(** * spacetest: namespace broker and thread-pinned execution

    A shallow embedding of the namespace broker of thediveo/spacetest
    (packages [spacetest], [spacer/api], [spacer/service], [spacer] and
    [uds]) over a small model of the Linux kernel objects the code talks to:
    the descriptor table, the namespaces a thread is attached to, and the
    system calls in the order in which they are issued. *)

From stdpp Require Import gmap strings list pretty.

#[local] Open Scope Z_scope.

(** ** Go-level results *)

(** A Go [(value, error)] pair whose error is either nil or carries a text. *)
Inductive Result (A : Type) : Type :=
  | Ok (a : A)
  | Err (e : string).
Arguments Ok {A} a.
Arguments Err {A} e.

(** A Go call either returns or unwinds with a panic. *)
Inductive Outcome (A : Type) : Type :=
  | Returned (a : A)
  | Panicked (msg : string).
Arguments Returned {A} a.
Arguments Panicked {A} msg.

(** ** golang.org/x/sys/unix: constants and the kernel model *)
Module Unix.

Definition CLONE_NEWTIME : Z := 0x80.
Definition CLONE_FS : Z := 0x200.
Definition CLONE_NEWNS : Z := 0x20000.
Definition CLONE_NEWCGROUP : Z := 0x2000000.
Definition CLONE_NEWUTS : Z := 0x4000000.
Definition CLONE_NEWIPC : Z := 0x8000000.
Definition CLONE_NEWUSER : Z := 0x10000000.
Definition CLONE_NEWPID : Z := 0x20000000.
Definition CLONE_NEWNET : Z := 0x40000000.

(** [uint64] values and the complement [^uint64(x)]. *)
Definition is_uint64 (x : Z) : Prop := 0 <= x < 2 ^ 64.
Definition not64 (x : Z) : Z := Z.lxor x (Z.ones 64).

(** The two shapes of procfs path the code opens. *)
Inductive Path : Type :=
  | ThreadSelfNs (name : string)        (* /proc/thread-self/ns/<name> *)
  | PidNs (pid : Z) (name : string).    (* /proc/<pid>/ns/<name> *)

(** What an open descriptor references. *)
Inductive Obj : Type :=
  | NsObj (typ : Z) (id : nat)          (* a namespace of a type, with its identity *)
  | SockObj (id : nat) (side : bool)    (* one end of a connected socket pair *)
  | FileObj (id : nat).                 (* any other open file *)

(** Kernel calls and scheduling points, in the order they happen. *)
Inductive Event : Type :=
  | EvOpen (p : Path)
  | EvClose (fd : Z)
  | EvUnshare (flags : Z)
  | EvSetns (fd nstype : Z)
  | EvMountRootPrivate
  | EvNsType (fd : Z)
  | EvSocketpair
  | EvDup (fd : Z)
  | EvStart (exe : string) (cloneflags : Z) (extra : Z)
  | EvSendmsg (fds : list Z)
  | EvLockOSThread
  | EvUnlockOSThread
  | EvDeferCleanup (fd : Z)             (* Ginkgo's DeferCleanup of a close *)
  | EvGo (typ : Z)                      (* go func() { ... }() of the unit for typ *)
  | EvRecv (typ : Z).                   (* res := <-ch of the unit for typ *)

(** The state of the kernel as seen by the running goroutine.  [faults] is
    the environment's script: every call that the environment may refuse
    takes the head of the script, [Some e] making the call fail with the
    error text [e]. *)
Record Kernel : Type := mkKernel {
  fdtab : gmap Z Obj;
  cur : Z -> nat;
  procs : gmap Z (Z -> nat);
  nextid : nat;
  locked : nat;
  faults : list (option string);
  trace : list Event
}.

Definition set_fdtab (t : gmap Z Obj) (K : Kernel) : Kernel :=
  mkKernel t (cur K) (procs K) (nextid K) (locked K) (faults K) (trace K).
Definition set_cur (c : Z -> nat) (K : Kernel) : Kernel :=
  mkKernel (fdtab K) c (procs K) (nextid K) (locked K) (faults K) (trace K).
Definition set_procs (p : gmap Z (Z -> nat)) (K : Kernel) : Kernel :=
  mkKernel (fdtab K) (cur K) p (nextid K) (locked K) (faults K) (trace K).
Definition set_nextid (n : nat) (K : Kernel) : Kernel :=
  mkKernel (fdtab K) (cur K) (procs K) n (locked K) (faults K) (trace K).
Definition set_locked (n : nat) (K : Kernel) : Kernel :=
  mkKernel (fdtab K) (cur K) (procs K) (nextid K) n (faults K) (trace K).
Definition set_faults (f : list (option string)) (K : Kernel) : Kernel :=
  mkKernel (fdtab K) (cur K) (procs K) (nextid K) (locked K) f (trace K).
Definition emit (e : Event) (K : Kernel) : Kernel :=
  mkKernel (fdtab K) (cur K) (procs K) (nextid K) (locked K) (faults K)
           (trace K ++ [e]).

(** Kernel calls are state transformers. *)
Definition M (A : Type) : Type := Kernel -> A * Kernel.
Definition ret {A} (a : A) : M A := fun K => (a, K).
Definition bind {A B} (m : M A) (k : A -> M B) : M B :=
  fun K => let (a, K') := m K in k a K'.

(** The environment's verdict on the next refusable call. *)
Definition next_fault : M (option string) := fun K =>
  match faults K with
  | [] => (None, K)
  | f :: rest => (f, set_faults rest K)
  end.

(** Descriptors are handed out lowest free first, from 0. *)
Fixpoint lowest_free_from (t : gmap Z Obj) (fuel : nat) (n : Z) : Z :=
  match fuel with
  | O => n
  | S fuel' =>
      match t !! n with
      | None => n
      | Some _ => lowest_free_from t fuel' (n + 1)
      end
  end.
Definition alloc_fd (t : gmap Z Obj) : Z := lowest_free_from t (size t) 0.

Definition install (o : Obj) : M Z := fun K =>
  let fd := alloc_fd (fdtab K) in
  (fd, set_fdtab (<[fd := o]> (fdtab K)) K).

(** The names of the entries of a procfs [ns] directory. *)
Definition nstype_of_name (name : string) : option Z :=
  if decide (name = "cgroup") then Some CLONE_NEWCGROUP
  else if decide (name = "ipc") then Some CLONE_NEWIPC
  else if decide (name = "mnt") then Some CLONE_NEWNS
  else if decide (name = "net") then Some CLONE_NEWNET
  else if decide (name = "pid") then Some CLONE_NEWPID
  else if decide (name = "time") then Some CLONE_NEWTIME
  else if decide (name = "user") then Some CLONE_NEWUSER
  else if decide (name = "uts") then Some CLONE_NEWUTS
  else None.

Definition resolve (p : Path) (K : Kernel) : option Obj :=
  match p with
  | ThreadSelfNs name =>
      typ ← nstype_of_name name; Some (NsObj typ (cur K typ))
  | PidNs pid name =>
      ns ← procs K !! pid; typ ← nstype_of_name name; Some (NsObj typ (ns typ))
  end.

(** open(2), read-only, on a namespace path. *)
Definition Open (p : Path) : M (Result Z) := fun K =>
  let (f, K) := next_fault (emit (EvOpen p) K) in
  match f with
  | Some e => (Err e, K)
  | None =>
      match resolve p K with
      | None => (Err "no such file or directory", K)
      | Some o => let (fd, K) := install o K in (Ok fd, K)
      end
  end.

(** close(2): the descriptor is released when it was open. *)
Definition Close (fd : Z) : M (Result unit) := fun K =>
  let K := emit (EvClose fd) K in
  match fdtab K !! fd with
  | None => (Err "bad file descriptor", K)
  | Some _ => (Ok tt, set_fdtab (delete fd (fdtab K)) K)
  end.

(** unshare(2): every namespace type selected by [flags] is replaced, for
    the calling thread, by a new namespace. *)
Definition Unshare (flags : Z) : M (Result unit) := fun K =>
  let (f, K) := next_fault (emit (EvUnshare flags) K) in
  match f with
  | Some e => (Err e, K)
  | None =>
      let c := cur K in
      let n := nextid K in
      (Ok tt,
       set_nextid (S n)
         (set_cur (fun t => if Z.land flags t =? 0 then c t else n) K))
  end.

(** setns(2): attach the calling thread to the namespace behind [fd];
    a non-zero [nstype] must agree with the type of that namespace. *)
Definition Setns (fd nstype : Z) : M (Result unit) := fun K =>
  let (f, K) := next_fault (emit (EvSetns fd nstype) K) in
  match f with
  | Some e => (Err e, K)
  | None =>
      match fdtab K !! fd with
      | Some (NsObj typ id) =>
          if (nstype =? 0) || (nstype =? typ) then
            let c := cur K in
            (Ok tt, set_cur (fun t => if t =? typ then id else c t) K)
          else (Err "invalid argument", K)
      | Some _ => (Err "invalid argument", K)
      | None => (Err "bad file descriptor", K)
      end
  end.

(** mount("none", "/", "/", MS_REC|MS_PRIVATE, ""). *)
Definition MountRootPrivate : M (Result unit) := fun K =>
  let (f, K) := next_fault (emit EvMountRootPrivate K) in
  match f with
  | Some e => (Err e, K)
  | None => (Ok tt, K)
  end.

(** ioctl(fd, NS_GET_NSTYPE) through [unix.IoctlRetInt], which returns 0
    together with the error when the call fails. *)
Definition IoctlRetInt_NSTYPE (fd : Z) : M (Z * option string) := fun K =>
  let K := emit (EvNsType fd) K in
  match fdtab K !! fd with
  | Some (NsObj typ _) => ((typ, None), K)
  | Some _ => ((0, Some "inappropriate ioctl for device"), K)
  | None => ((0, Some "bad file descriptor"), K)
  end.

(** socketpair(AF_UNIX, SOCK_STREAM, 0). *)
Definition Socketpair : M (Result (Z * Z)) := fun K =>
  let (f, K) := next_fault (emit EvSocketpair K) in
  match f with
  | Some e => (Err e, K)
  | None =>
      let n := nextid K in
      let (a, K) := install (SockObj n false) (set_nextid (S n) K) in
      let (b, K) := install (SockObj n true) K in
      (Ok (a, b), K)
  end.

(** dup(2). *)
Definition Dup (fd : Z) : M (Result Z) := fun K =>
  let (f, K) := next_fault (emit (EvDup fd) K) in
  match f with
  | Some e => (Err e, K)
  | None =>
      match fdtab K !! fd with
      | None => (Err "bad file descriptor", K)
      | Some o => let (fd', K) := install o K in (Ok fd', K)
      end
  end.

(** fork/exec of [exe] under [cloneflags] with one inherited descriptor;
    the child gets new user and PID namespaces as the flags select.  The
    result is the child's process id. *)
Definition Start (exe : string) (cloneflags extra : Z) : M (Result Z) := fun K =>
  let (f, K) := next_fault (emit (EvStart exe cloneflags extra) K) in
  match f with
  | Some e => (Err e, K)
  | None =>
      let c := cur K in
      let n := nextid K in
      let pid := Z.of_nat (S n) in
      (Ok pid,
       set_nextid (S n)
         (set_procs
            (<[pid := fun t => if Z.land cloneflags t =? 0 then c t else n]>
               (procs K)) K))
  end.

(** sendmsg(2) of one payload with the descriptors as SCM_RIGHTS. *)
Definition Sendmsg (fds : list Z) : M (Result unit) := fun K =>
  let (f, K) := next_fault (emit (EvSendmsg fds) K) in
  match f with
  | Some e => (Err e, K)
  | None => (Ok tt, K)
  end.

(** runtime.LockOSThread and runtime.UnlockOSThread count. *)
Definition LockOSThread : M unit := fun K =>
  (tt, set_locked (S (locked K)) (emit EvLockOSThread K)).
Definition UnlockOSThread : M unit := fun K =>
  (tt, set_locked (pred (locked K)) (emit EvUnlockOSThread K)).

End Unix.

Notation "'let!' x ':=' m 'in' k" := (Unix.bind m (fun x => k))
  (at level 10, x pattern, m at level 100, k at level 200, only parsing).
Notation "'run!' m 'in' k" := (Unix.bind m (fun _ => k))
  (at level 10, m at level 100, k at level 200, only parsing).

(** ** Package spacetest: names of namespace types *)
Module Spacetest.
Import Unix.

(** Modelled from the spec: [spacetest.Name], the human-readable name of a
    namespace type, is not among the sources.  Its table is the one that
    the package's test "type names of namespaces" fixes entry by entry;
    any other value has the empty name. *)
Definition Name (typ : Z) : string :=
  if typ =? CLONE_NEWCGROUP then "cgroup"
  else if typ =? CLONE_NEWIPC then "ipc"
  else if typ =? CLONE_NEWNS then "mnt"
  else if typ =? CLONE_NEWNET then "net"
  else if typ =? CLONE_NEWPID then "pid"
  else if typ =? CLONE_NEWTIME then "time"
  else if typ =? CLONE_NEWUSER then "user"
  else if typ =? CLONE_NEWUTS then "uts"
  else "".

(** A failed Gomega expectation ends in Ginkgo's [Fail], which panics; the
    panic is represented by the description given to the expectation. *)

(** [Type] of a descriptor reference. *)
Definition Type_fd (ref : Z) : M (Outcome Z) :=
  let! r := IoctlRetInt_NSTYPE ref in
  match snd r with
  | Some _ => ret (Panicked "cannot determine type of namespace")
  | None => ret (Returned (fst r))
  end.

Definition DeferCleanup_close (fd : Z) : M unit := fun K =>
  (tt, emit (EvDeferCleanup fd) K).

Definition Current (typ : Z) : M (Outcome Z) :=
  let typename := Name typ in
  if decide (typename = "") then
    ret (Panicked ("unknown type of namespace " +:+ pretty typ))
  else
    let! r := Open (ThreadSelfNs typename) in
    match r with
    | Err _ =>
        ret (Panicked ("cannot determine current " +:+ typename +:+ " namespace from procfs"))
    | Ok nsfd => run! DeferCleanup_close nsfd in ret (Returned nsfd)
    end.

(** The attach loop of [goInAndOut]; the first component is
    [callersNamespaces] as it stands when the loop ends or panics. *)
Fixpoint attach (othernsfds : list Z) (callersNamespaces : list Z)
    : M (list Z * Outcome unit) :=
  match othernsfds with
  | [] => ret (callersNamespaces, Returned tt)
  | nsfd :: rest =>
      let! t := Type_fd nsfd in
      match t with
      | Panicked m => ret (callersNamespaces, Panicked m)
      | Returned typ =>
          let! c := Current typ in
          match c with
          | Panicked m => ret (callersNamespaces, Panicked m)
          | Returned cfd =>
              let callersNamespaces := callersNamespaces ++ [cfd] in
              let! r := Setns nsfd typ in
              match r with
              | Err _ =>
                  ret (callersNamespaces,
                       Panicked ("cannot switch into " +:+ Name typ +:+ " namespace"))
              | Ok _ => attach rest callersNamespaces
              end
          end
      end
  end.

(** The recovering branch of the deferred function: errors are dropped. *)
Fixpoint restore_silently (nsfds : list Z) : M unit :=
  match nsfds with
  | [] => ret tt
  | nsfd :: rest => run! Setns nsfd 0 in restore_silently rest
  end.

(** The restoring loop of the deferred function; the description of the
    expectation is only computed when the expectation fails. *)
Fixpoint restore (nsfds : list Z) : M (Outcome unit) :=
  match nsfds with
  | [] => ret (Returned tt)
  | nsfd :: rest =>
      let! r := Setns nsfd 0 in
      match r with
      | Ok _ => restore rest
      | Err _ =>
          let! t := Type_fd nsfd in
          match t with
          | Panicked m => ret (Panicked m)
          | Returned typ =>
              ret (Panicked ("cannot restore " +:+ Name typ +:+ " namespace"))
          end
      end
  end.

(** The deferred function of [goInAndOut], given how the body ended. *)
Definition deferred (callersNamespaces : list Z) (body : Outcome unit)
    : M (Outcome unit) :=
  match body with
  | Panicked r =>
      run! restore_silently (rev callersNamespaces) in ret (Panicked r)
  | Returned _ =>
      let! o := restore (rev callersNamespaces) in
      match o with
      | Panicked m => ret (Panicked m)
      | Returned _ => run! UnlockOSThread in ret (Returned tt)
      end
  end.

Definition goInAndOut (fn : M (Outcome unit)) (othernsfds : list Z)
    : M (Outcome unit) :=
  run! LockOSThread in
  let! a := attach othernsfds [] in
  let! body :=
    match snd a with
    | Returned _ => fn
    | Panicked m => ret (Panicked m)
    end in
  deferred (fst a) body.

(** *** Transient namespaces (transient.go) *)

(** The types [EnterTransient] lets through its [BeElementOf] gate. *)
Definition EnterTransient_types : list Z :=
  [CLONE_NEWCGROUP; CLONE_NEWIPC; CLONE_NEWNET; CLONE_NEWPID; CLONE_NEWUTS].

(** [EnterTransient] up to the point where it returns its closure; the
    result is the descriptor [callersNamespace] the closure captures. *)
Definition EnterTransient (typ : Z) : M (Outcome Z) :=
  let name := Name typ in
  if bool_decide (typ ∈ EnterTransient_types) then
    run! LockOSThread in
    let! r := Open (ThreadSelfNs name) in
    match r with
    | Err _ =>
        ret (Panicked ("cannot determine current " +:+ name +:+ " namespace from procfs"))
    | Ok callersNamespace =>
        let! u := Unshare typ in
        match u with
        | Err _ => ret (Panicked ("cannot create new " +:+ Name typ +:+ " namespace"))
        | Ok _ => ret (Returned callersNamespace)
        end
    end
  else ret (Panicked ("unsupported type " +:+ name)).

(** The closure [EnterTransient] returns, over the variables it
    captured. *)
Definition EnterTransient_leave (typ callersNamespace : Z) : M (Outcome unit) :=
  let! r := Setns callersNamespace typ in
  match r with
  | Err e =>
      ret (Panicked ("leaving from EnterTransient: cannot restore original "
                     +:+ Name typ +:+ " namespace, reason: " +:+ e))
  | Ok _ =>
      run! Close callersNamespace in
      run! UnlockOSThread in
      ret (Returned tt)
  end.

(** The types [NewTransient] lets through its gate. *)
Definition NewTransient_types : list Z :=
  [CLONE_NEWCGROUP; CLONE_NEWIPC; CLONE_NEWNET; CLONE_NEWUTS].

(** [NewTransient]; the deferred close of [callersNamespace] runs on
    every way out once the first open succeeded. *)
Definition NewTransient (typ : Z) : M (Outcome Z) :=
  let name := Name typ in
  if bool_decide (typ ∈ NewTransient_types) then
    run! LockOSThread in
    let! r := Open (ThreadSelfNs name) in
    match r with
    | Err _ =>
        ret (Panicked ("cannot determine current " +:+ name +:+ " namespace from procfs"))
    | Ok callersNamespace =>
        let! out :=
          (let! u := Unshare typ in
           match u with
           | Err _ => ret (Panicked ("cannot create new " +:+ name +:+ " namespace"))
           | Ok _ =>
               let! n := Open (ThreadSelfNs name) in
               match n with
               | Err _ =>
                   ret (Panicked ("cannot determine new " +:+ name
                                  +:+ " namespace from procfs"))
               | Ok newNamespace =>
                   let! s := Setns callersNamespace typ in
                   match s with
                   | Err _ =>
                       ret (Panicked ("cannot switch back into original " +:+ name
                                      +:+ " namespace"))
                   | Ok _ =>
                       run! DeferCleanup_close newNamespace in
                       run! UnlockOSThread in
                       ret (Returned newNamespace)
                   end
               end
           end) in
        run! Close callersNamespace in
        ret out
    end
  else ret (Panicked ("unsupported type " +:+ name)).

End Spacetest.

(** ** Package mntns: transient mount namespaces *)
Module Mntns.
Import Unix.

(** [mntns.EnterTransient] up to the point where it returns its closure;
    the result is the descriptor the closure captures. *)
Definition EnterTransient : M (Outcome Z) :=
  run! LockOSThread in
  let! r := Open (ThreadSelfNs "mnt") in
  match r with
  | Err _ => ret (Panicked "cannot determine current mount namespace from procfs")
  | Ok callersMountNamespace =>
      let! u := Unshare (Z.lor CLONE_FS CLONE_NEWNS) in
      match u with
      | Err _ => ret (Panicked "cannot create new mount namespace")
      | Ok _ =>
          let! m := MountRootPrivate in
          match m with
          | Err _ => ret (Panicked "cannot change / mount propagation to private")
          | Ok _ => ret (Returned callersMountNamespace)
          end
      end
  end.

(** The closure [mntns.EnterTransient] returns: the thread stays locked. *)
Definition EnterTransient_leave (callersMountNamespace : Z) : M (Outcome unit) :=
  let! r := Setns callersMountNamespace 0 in
  match r with
  | Err e => ret (Panicked ("cannot restore original mount namespace, reason: " +:+ e))
  | Ok _ => run! Close callersMountNamespace in ret (Returned tt)
  end.

End Mntns.

(** ** Package api: requests, responses and their out-of-band descriptors *)
Module Api.
Import Unix.

(** [auxiliaryFds.borrow]: the second component is the new value of the
    field behind the pointer. *)
Definition borrow (f : list Z) (fd : Z) : list Z * Z :=
  if fd <=? 0 then (f, fd) else (f ++ [fd], 0).

Module RoomsRequest.
Record t : Type := mk { Spaces : Z }.
End RoomsRequest.

Module SubspaceRequest.
Record t : Type := mk { Spaces : Z }.
End SubspaceRequest.

Module RoomsResponse.
Record t : Type := mk { Cgroup : Z; IPC : Z; Mnt : Z; Net : Z; Time : Z; UTS : Z }.

Definition zero : t := mk 0 0 0 0 0 0.

(** A pointer to one of the six fields. *)
Inductive Field : Type := FCgroup | FIPC | FMnt | FNet | FTime | FUTS.

#[global] Instance Field_eq_dec : EqDecision Field.
Proof. solve_decision. Defined.

Definition get (f : Field) (s : t) : Z :=
  match f with
  | FCgroup => Cgroup s | FIPC => IPC s | FMnt => Mnt s
  | FNet => Net s | FTime => Time s | FUTS => UTS s
  end.

Definition set (f : Field) (v : Z) (s : t) : t :=
  match f with
  | FCgroup => mk v (IPC s) (Mnt s) (Net s) (Time s) (UTS s)
  | FIPC => mk (Cgroup s) v (Mnt s) (Net s) (Time s) (UTS s)
  | FMnt => mk (Cgroup s) (IPC s) v (Net s) (Time s) (UTS s)
  | FNet => mk (Cgroup s) (IPC s) (Mnt s) v (Time s) (UTS s)
  | FTime => mk (Cgroup s) (IPC s) (Mnt s) (Net s) v (UTS s)
  | FUTS => mk (Cgroup s) (IPC s) (Mnt s) (Net s) (Time s) v
  end.

(** The namespace type a field stands for. *)
Definition type_of (f : Field) : Z :=
  match f with
  | FCgroup => CLONE_NEWCGROUP | FIPC => CLONE_NEWIPC | FMnt => CLONE_NEWNS
  | FNet => CLONE_NEWNET | FTime => CLONE_NEWTIME | FUTS => CLONE_NEWUTS
  end.

Definition fields : list Field := [FCgroup; FIPC; FMnt; FNet; FTime; FUTS].

Definition borrow_field (f : Field) (acc : list Z * t) : list Z * t :=
  let (fds, v) := borrow (fst acc) (get f (snd acc)) in
  (fds, set f v (snd acc)).

(** [EncodeFds] returns the descriptors and leaves the receiver with the
    borrowed fields zeroed. *)
Definition EncodeFds (s : t) : list Z * t :=
  borrow_field FUTS
    (borrow_field FTime
       (borrow_field FNet
          (borrow_field FMnt
             (borrow_field FIPC
                (borrow_field FCgroup ([], s)))))).

(** One turn of the loop of [DecodeFds]. *)
Definition decode_one (fd : Z) (s : t) : M t :=
  let! r := IoctlRetInt_NSTYPE fd in
  let typ := fst r in
  if typ =? CLONE_NEWCGROUP then ret (set FCgroup fd s)
  else if typ =? CLONE_NEWIPC then ret (set FIPC fd s)
  else if typ =? CLONE_NEWNS then ret (set FMnt fd s)
  else if typ =? CLONE_NEWNET then ret (set FNet fd s)
  else if typ =? CLONE_NEWTIME then ret (set FTime fd s)
  else if typ =? CLONE_NEWUTS then ret (set FUTS fd s)
  else run! Close fd in ret s.

Fixpoint DecodeFds (fds : list Z) (s : t) : M t :=
  match fds with
  | [] => ret s
  | fd :: rest => let! s' := decode_one fd s in DecodeFds rest s'
  end.
End RoomsResponse.

Module SubspaceResponse.
(** The embedded [Subspaces] struct is flattened into the response. *)
Record t : Type := mk { Conn : Z; User : Z; PID : Z }.

Definition zero : t := mk 0 0 0.

Definition EncodeFds (s : t) : list Z * t :=
  let (f1, conn) := borrow [] (Conn s) in
  let (f2, user) := borrow f1 (User s) in
  let (f3, pid) := borrow f2 (PID s) in
  (f3, mk conn user pid).

Definition decode_one (fd : Z) (s : t) : M t :=
  let! r := IoctlRetInt_NSTYPE fd in
  let typ := fst r in
  if typ =? CLONE_NEWUSER then ret (mk (Conn s) fd (PID s))
  else if typ =? CLONE_NEWPID then ret (mk (Conn s) (User s) fd)
  else run! Close fd in ret s.

Fixpoint decode_rest (fds : list Z) (s : t) : M t :=
  match fds with
  | [] => ret s
  | fd :: rest => let! s' := decode_one fd s in decode_rest rest s'
  end.

(** [s.Conn = fds[0]] is an index expression: on an empty slice it
    raises Go's run-time index panic. *)
Definition DecodeFds (fds : list Z) (s : t) : M (Outcome t) :=
  match fds with
  | [] => ret (Panicked "index out of range [0] with length 0")
  | conn :: rest =>
      let! s' := decode_rest rest (mk conn (User s) (PID s)) in
      ret (Returned s')
  end.
End SubspaceResponse.

Inductive Response : Type :=
  | ErrorResponse (Reason : string)
  | SubspaceResp (r : SubspaceResponse.t)
  | RoomsResp (r : RoomsResponse.t).

Inductive Request : Type :=
  | SubspaceReq (r : SubspaceRequest.t)
  | RoomsReq (r : RoomsRequest.t)
  | UnhandlebarRequest.

End Api.

(** ** Package uds: connected unix domain sockets *)
Module Uds.
Import Unix.

(** A [*Conn] is represented by the descriptor it owns. *)
Definition Conn : Type := Z.

(** [NewUnixConn] wraps the socket in a connection holding a duplicate of
    the descriptor, and always closes the descriptor it was given. *)
Definition NewUnixConn (udsfd : Z) : M (Result Conn) :=
  let! r := Dup udsfd in
  run! Close udsfd in
  ret r.

Definition NewPair : M (Result (Conn * Conn)) :=
  let! p := Socketpair in
  match p with
  | Err e => ret (Err e)
  | Ok (fd0, fd1) =>
      let! c0 := NewUnixConn fd0 in
      match c0 with
      | Err e => run! Close fd1 in ret (Err e)
      | Ok dupond =>
          let! c1 := NewUnixConn fd1 in
          match c1 with
          | Err e => run! Close dupond in ret (Err e)
          | Ok dupont => ret (Ok (dupond, dupont))
          end
      end
  end.

(** [Conn.File] hands out a duplicate with a life cycle of its own. *)
Definition File (c : Conn) : M (Result Z) := Dup c.
Definition Close_conn (c : Conn) : M (Result unit) := Close c.

(** [ReceiveWithFds] sizes its control-message buffer for [maxfds]
    descriptors of four bytes each. *)
Definition oob_payload (maxfds : Z) : Z := maxfds * 4.

End Uds.

(** ** Package service: the Spacemaker *)
Module Service.
Import Unix Spacetest Api.

Definition validSpaces : Z :=
  Z.lor CLONE_NEWCGROUP
    (Z.lor CLONE_NEWIPC
       (Z.lor CLONE_NEWNS
          (Z.lor CLONE_NEWNET (Z.lor CLONE_NEWTIME CLONE_NEWUTS)))).

Definition subSpaces : Z := Z.lor CLONE_NEWUSER CLONE_NEWPID.

Record Spacemaker : Type := mkSpacemaker { Exe : string }.

(** [newNamespace], with its deferred restore-and-close run on every
    return after the first open succeeded.  The result is Go's
    [(int, error)]. *)
Definition newNamespace (typ : Z) : M (Z * option string) :=
  run! LockOSThread in
  let name := Name typ in
  let! r := Open (ThreadSelfNs name) in
  match r with
  | Err e => ret (0, Some e)
  | Ok callerns =>
      let! res :=
        (let! r1 := (if typ =? CLONE_NEWNS then Unshare CLONE_FS else ret (Ok tt)) in
         match r1 with
         | Err e => ret (0, Some e)
         | Ok _ =>
             let! r2 := Unshare typ in
             match r2 with
             | Err e => ret (0, Some e)
             | Ok _ =>
                 let! r3 := (if typ =? CLONE_NEWNS then MountRootPrivate else ret (Ok tt)) in
                 match r3 with
                 | Err e => ret (0, Some e)
                 | Ok _ =>
                     let! r4 := Open (ThreadSelfNs name) in
                     match r4 with
                     | Err e => ret (0, Some e)
                     | Ok newns => ret (newns, None)
                     end
                 end
             end
         end) in
      run! Setns callerns 0 in
      run! Close callerns in
      ret res
  end.

(** [go func() { ... ch <- ... }()] immediately followed by [res := <-ch]:
    the body runs on a goroutine of its own, whose thread and thread lock
    are not the caller's, and the caller resumes when the result arrives. *)
Definition go_and_receive {A} (typ : Z) (body : M A) : M A := fun K =>
  let (a, K') := body (set_locked 0 (emit (EvGo typ) K)) in
  (a, emit (EvRecv typ) (set_locked (locked K) (set_cur (cur K) K'))).

(** The variables the closure [unshare] of [Room] captures; [outcomes] is
    a ghost record of what each started unit returned, in start order. *)
Record RoomState : Type := mkRoomState {
  resp : RoomsResponse.t;
  errmsg : string;
  outcomes : list (Z * (Z * option string))
}.

Definition unshare (req : RoomsRequest.t) (typ : Z) (fd : RoomsResponse.Field)
    (st : RoomState) : M RoomState :=
  if Z.land (RoomsRequest.Spaces req) typ =? 0 then ret st
  else
    let! res := go_and_receive typ (newNamespace typ) in
    let log := outcomes st ++ [(typ, res)] in
    match snd res with
    | Some err =>
        let errmsg1 := if decide (errmsg st = "") then errmsg st else errmsg st +:+ "," in
        ret (mkRoomState (resp st) (errmsg1 +:+ ((Name typ +:+ ":") +:+ err)) log)
    | None =>
        ret (mkRoomState (RoomsResponse.set fd (fst res) (resp st)) (errmsg st) log)
    end.

Definition Room_units (req : RoomsRequest.t) : M RoomState :=
  let st := mkRoomState RoomsResponse.zero "" [] in
  let! st := unshare req CLONE_NEWCGROUP RoomsResponse.FCgroup st in
  let! st := unshare req CLONE_NEWIPC RoomsResponse.FIPC st in
  let! st := unshare req CLONE_NEWNS RoomsResponse.FMnt st in
  let! st := unshare req CLONE_NEWNET RoomsResponse.FNet st in
  let! st := unshare req CLONE_NEWTIME RoomsResponse.FTime st in
  unshare req CLONE_NEWUTS RoomsResponse.FUTS st.

Definition close_if_open (fd : Z) : M unit :=
  if 0 <? fd then run! Close fd in ret tt else ret tt.

Definition Room_finish (st : RoomState) : M Response :=
  if decide (errmsg st = "") then ret (RoomsResp (resp st))
  else
    run! close_if_open (RoomsResponse.Cgroup (resp st)) in
    run! close_if_open (RoomsResponse.IPC (resp st)) in
    run! close_if_open (RoomsResponse.Mnt (resp st)) in
    run! close_if_open (RoomsResponse.Net (resp st)) in
    run! close_if_open (RoomsResponse.Time (resp st)) in
    run! close_if_open (RoomsResponse.UTS (resp st)) in
    ret (ErrorResponse (errmsg st)).

Definition Room (req : RoomsRequest.t) : M Response :=
  if negb (Z.land (RoomsRequest.Spaces req) (not64 validSpaces) =? 0) then
    ret (ErrorResponse "out of space")
  else if Z.land (RoomsRequest.Spaces req) validSpaces =? 0 then
    ret (ErrorResponse "no space requested")
  else
    let! st := Room_units req in
    Room_finish st.

(** The last part of [Subspace]: reading back the namespaces of the
    started child. *)
Definition Subspace_namespaces (req : SubspaceRequest.t) (pid connfd : Z)
    : M Response :=
  let userfd := 0 in
  let pidfd := 0 in
  let! u :=
    (if negb (Z.land (SubspaceRequest.Spaces req) CLONE_NEWUSER =? 0) then
       let! r := Open (PidNs pid "user") in
       match r with
       | Err e =>
           run! Close connfd in
           ret (Err ("failed to determine new user namespace, reason: " +:+ e))
       | Ok fd => ret (Ok fd)
       end
     else ret (Ok userfd)) in
  match u with
  | Err reason => ret (ErrorResponse reason)
  | Ok userfd =>
      let! p :=
        (if negb (Z.land (SubspaceRequest.Spaces req) CLONE_NEWPID =? 0) then
           let! r := Open (PidNs pid "pid") in
           match r with
           | Err e =>
               run! Close userfd in
               run! Close connfd in
               ret (Err ("failed to determine new PID namespace, reason: " +:+ e))
           | Ok fd => ret (Ok fd)
           end
         else ret (Ok pidfd)) in
      match p with
      | Err reason => ret (ErrorResponse reason)
      | Ok pidfd => ret (SubspaceResp (SubspaceResponse.mk connfd userfd pidfd))
      end
  end.

(** [Subspace] after the socket pair exists; the deferred closes of the two
    duplicated files are run innermost first. *)
Definition Subspace_start (s : Spacemaker) (req : SubspaceRequest.t)
    (dupond dupont : Uds.Conn) : M Response :=
  let! f := Uds.File dupont in
  match f with
  | Err e => ret (ErrorResponse ("failed to fetch service *os.File, reason: " +:+ e))
  | Ok dupontf =>
      let! out :=
        (let exe := if decide (Exe s = "") then "/proc/self/exe" else Exe s in
         let! c := Start exe (Z.land (SubspaceRequest.Spaces req) subSpaces) dupontf in
         match c with
         | Err e => ret (ErrorResponse ("failed to start sub service, reason: " +:+ e))
         | Ok pid =>
             let! f := Uds.File dupond in
             match f with
             | Err e =>
                 ret (ErrorResponse ("failed to fetch client *os.File, reason: " +:+ e))
             | Ok dupondf =>
                 let! out :=
                   (let! d := Dup dupondf in
                    match d with
                    | Err e =>
                        ret (ErrorResponse ("failed to fetch client fd, reason: " +:+ e))
                    | Ok connfd => Subspace_namespaces req pid connfd
                    end) in
                 run! Close dupondf in
                 ret out
             end
         end) in
      run! Close dupontf in
      ret out
  end.

(** [Subspace].  When [uds.NewPair] fails both connections are nil, and
    the deferred [dupond.Close()] dereferences the nil connection. *)
Definition Subspace (s : Spacemaker) (req : SubspaceRequest.t) : M (Outcome Response) :=
  if negb (Z.land (SubspaceRequest.Spaces req) (not64 subSpaces) =? 0) then
    ret (Returned (ErrorResponse "out of space"))
  else if Z.land (SubspaceRequest.Spaces req) subSpaces =? 0 then
    ret (Returned (ErrorResponse "no space requested"))
  else
    let! p := Uds.NewPair in
    match p with
    | Err _ => ret (Panicked "invalid memory address or nil pointer dereference")
    | Ok (dupond, dupont) =>
        let! out := Subspace_start s req dupond dupont in
        run! Uds.Close_conn dupond in
        run! Uds.Close_conn dupont in
        ret (Returned out)
    end.

(** The answering half of one turn of [Serve]'s loop.  The gob encoder is a
    parameter: [gob_encode] stands for [gobmsg.Encoder.Encode], whose bytes
    are those of the value as it is when the call is made. *)
Section Serve.
Context {Bytes : Type} (gob_encode : Response -> Result Bytes).

(** [resp.(api.FdsEncoder)]: the descriptors to send and the response as
    it is left in memory. *)
Definition EncodeFds (resp : Response) : list Z * Response :=
  match resp with
  | ErrorResponse r => ([], ErrorResponse r)
  | SubspaceResp r =>
      let (fds, r') := SubspaceResponse.EncodeFds r in (fds, SubspaceResp r')
  | RoomsResp r =>
      let (fds, r') := RoomsResponse.EncodeFds r in (fds, RoomsResp r')
  end.

Fixpoint close_all (fds : list Z) : M unit :=
  match fds with
  | [] => ret tt
  | fd :: rest => run! Close fd in close_all rest
  end.

(** What went on the wire, or [None] when the loop ended instead. *)
Definition Serve_reply (resp : Response) : M (option (Bytes * list Z)) :=
  match gob_encode resp with
  | Err _ => ret None
  | Ok msg =>
      let (fds, _) := EncodeFds resp in
      let! sent := Sendmsg fds in
      run! close_all fds in
      match sent with
      | Err _ => ret None
      | Ok _ => ret (Some (msg, fds))
      end
  end.

(** The dispatch of one decoded request; [None] ends the loop. *)
Definition Serve_dispatch (s : Spacemaker) (req : Request) : M (option (Outcome Response)) :=
  match req with
  | SubspaceReq r => let! o := Subspace s r in ret (Some o)
  | RoomsReq r => let! o := Room r in ret (Some (Returned o))
  | UnhandlebarRequest => ret None
  end.
End Serve.

End Service.

(** ** Package spacer: the client *)
Module Client.
Import Unix Api.

(** [c.conn.ReceiveWithFds(c.dec.Buffer(), 3)] in [Client.do]. *)
Definition do_maxfds : Z := 3.

(** [namespaces.ifrequested]. *)
Definition ifrequested (n : Z) (b : bool) (flag : Z) : Z :=
  if b then Z.lor n flag else n.

(** The request [Client.Rooms] sends. *)
Definition Rooms_request (cgroup ipc mnt net time uts : bool) : RoomsRequest.t :=
  RoomsRequest.mk
    (ifrequested
       (ifrequested
          (ifrequested
             (ifrequested
                (ifrequested (ifrequested 0 cgroup CLONE_NEWCGROUP) ipc CLONE_NEWIPC)
                mnt CLONE_NEWNS)
             net CLONE_NEWNET)
          time CLONE_NEWTIME)
       uts CLONE_NEWUTS).

(** The tail of [Client.do], from the decoded response on.
    Modelled from the spec: [api.HaveFailed] is not among the sources; the
    operation fails when the decoded response is an ErrorResponse. *)
Definition do_finish (resp : Response) (fds : list Z) : M (Outcome Response) :=
  match resp with
  | ErrorResponse _ => ret (Panicked "service failed")
  | RoomsResp r =>
      let! r' := RoomsResponse.DecodeFds fds r in
      ret (Returned (RoomsResp r'))
  | SubspaceResp r =>
      let! o := SubspaceResponse.DecodeFds fds r in
      match o with
      | Panicked m => ret (Panicked m)
      | Returned r' => ret (Returned (SubspaceResp r'))
      end
  end.

(** The request [Client.Subspace] sends. *)
Definition Subspace_request (user pid : bool) : SubspaceRequest.t :=
  SubspaceRequest.mk (ifrequested (ifrequested 0 user CLONE_NEWUSER) pid CLONE_NEWPID).

(** The switch of [Client.NewTransient]: the request it has [Rooms] send
    and the field of the response it returns; [None] is the failed
    expectation ("invalid namespace type") of the fall-through. *)
Definition NewTransient_select (typ : Z) : option (RoomsRequest.t * RoomsResponse.Field) :=
  if typ =? CLONE_NEWCGROUP then
    Some (Rooms_request true false false false false false, RoomsResponse.FCgroup)
  else if typ =? CLONE_NEWIPC then
    Some (Rooms_request false true false false false false, RoomsResponse.FIPC)
  else if typ =? CLONE_NEWNS then
    Some (Rooms_request false false true false false false, RoomsResponse.FMnt)
  else if typ =? CLONE_NEWNET then
    Some (Rooms_request false false false true false false, RoomsResponse.FNet)
  else if typ =? CLONE_NEWTIME then
    Some (Rooms_request false false false false true false, RoomsResponse.FTime)
  else if typ =? CLONE_NEWUTS then
    Some (Rooms_request false false false false false true, RoomsResponse.FUTS)
  else None.

End Client.

(** ** Notions the statements are phrased in *)
Module Props.
Import Unix Api.

(** The two families of namespace types. *)
Definition hierarchical_types : list Z := [CLONE_NEWUSER; CLONE_NEWPID].
Definition flat_types : list Z :=
  [CLONE_NEWCGROUP; CLONE_NEWIPC; CLONE_NEWNS; CLONE_NEWNET; CLONE_NEWTIME;
   CLONE_NEWUTS].

(** A selection has a flag outside a set of types when one of its bits
    belongs to none of them. *)
Definition flag_outside (spaces : Z) (allowed : list Z) : Prop :=
  exists i, 0 <= i /\ Z.testbit spaces i = true
            /\ Forall (fun typ => Z.testbit typ i = false) allowed.

Definition invalid_selection (spaces : Z) (allowed : list Z) : Prop :=
  spaces = 0 \/ flag_outside spaces allowed.

Definition valid_selection (spaces : Z) (allowed : list Z) : Prop :=
  is_uint64 spaces /\ ~ invalid_selection spaces allowed.

(** A type is requested when its flag is in the selection. *)
Definition requested (spaces typ : Z) : bool := negb (Z.land spaces typ =? 0).

(** The events a run added to the trace. *)
Definition events_since (K K' : Kernel) : list Event :=
  drop (length (trace K)) (trace K').

(** What NS_GET_NSTYPE reports for a descriptor, if it is a namespace. *)
Definition kernel_type (K : Kernel) (fd : Z) : option Z :=
  match fdtab K !! fd with
  | Some (NsObj typ _) => Some typ
  | _ => None
  end.

(** Calls into the kernel or the runtime, as opposed to the start of a
    unit's goroutine and the receipt of its result. *)
Definition is_call (e : Event) : bool :=
  match e with
  | EvGo _ | EvRecv _ => false
  | _ => true
  end.

(** The units of [Room] as a loop over the fields, in the order of the six
    calls of the closure. *)
Fixpoint run_units (req : RoomsRequest.t) (fs : list RoomsResponse.Field)
    (st : Service.RoomState) : M Service.RoomState :=
  match fs with
  | [] => ret st
  | f :: rest =>
      let! st' := Service.unshare req (RoomsResponse.type_of f) f st in
      run_units req rest st'
  end.

(** The failed units of a run, and the text that names one of them with
    its reason. *)
Definition failed (os : list (Z * (Z * option string))) : list (Z * string) :=
  omap (fun o => match o.2.2 with Some e => Some (o.1, e) | None => None end) os.
Definition describe (f : Z * string) : string :=
  Spacetest.Name f.1 +:+ ":" +:+ f.2.
(** The handles the successful units of a run returned. *)
Definition obtained (os : list (Z * (Z * option string))) : list Z :=
  omap (fun o => match o.2.2 with Some _ => None | None => Some o.2.1 end) os.

(** Texts separated by commas. *)
Fixpoint join_comma (l : list string) : string :=
  match l with
  | [] => ""
  | [x] => x
  | x :: rest => x +:+ "," +:+ join_comma rest
  end.

(** What holds of the state of [Room] between two units, relative to the
    kernel [Room] started from: the handles held in the response are the
    only difference to the descriptor table, each is a namespace of the
    type of its field, and the log and the error text agree. *)
Definition room_inv (req : RoomsRequest.t) (K0 : Kernel)
    (pending : list RoomsResponse.Field) (st : Service.RoomState) (K : Kernel) : Prop :=
  let r := Service.resp st in
  (forall f, RoomsResponse.get f r = 0
             \/ (0 < RoomsResponse.get f r
                 /\ fdtab K0 !! RoomsResponse.get f r = None
                 /\ exists id, fdtab K !! RoomsResponse.get f r
                               = Some (NsObj (RoomsResponse.type_of f) id)))
  /\ (forall fd, (forall f, 0 < RoomsResponse.get f r -> RoomsResponse.get f r <> fd) ->
                 fdtab K !! fd = fdtab K0 !! fd)
  /\ (forall f, f ∈ pending -> RoomsResponse.get f r = 0)
  /\ (forall f, f ∉ pending ->
         if requested (RoomsRequest.Spaces req) (RoomsResponse.type_of f)
         then exists o, (RoomsResponse.type_of f, o) ∈ Service.outcomes st
                        /\ (o.2 = None -> RoomsResponse.get f r = o.1)
         else RoomsResponse.get f r = 0)
  /\ (forall fd, fd ∈ obtained (Service.outcomes st) ->
                 0 < fd /\ exists f, RoomsResponse.get f r = fd)
  /\ Service.errmsg st = join_comma (map describe (failed (Service.outcomes st))).

(** The units of a trace run one at a time: a unit is started only while
    no other is running, and the result received is that of the running
    unit.  [unit_steps] follows a trace from a running unit, if any. *)
Fixpoint unit_steps (running : option Z) (evs : list Event) : option (option Z) :=
  match evs with
  | [] => Some running
  | EvGo t :: rest =>
      match running with
      | None => unit_steps (Some t) rest
      | Some _ => None
      end
  | EvRecv t :: rest =>
      match running with
      | Some t' => if t =? t' then unit_steps None rest else None
      | None => None
      end
  | _ :: rest => unit_steps running rest
  end.
Definition one_at_a_time (evs : list Event) : Prop := unit_steps None evs = Some None.

(** The types of the units in the order in which they were started. *)
Definition starts (evs : list Event) : list Z :=
  omap (fun e => match e with EvGo t => Some t | _ => None end) evs.

(** The unit for [b] was started after the result of the unit for [a] had
    been received. *)
Definition started_after_completion (evs : list Event) (b a : Z) : Prop :=
  exists i j, (i < j)%nat /\ evs !! i = Some (EvRecv a) /\ evs !! j = Some (EvGo b).

(** A process as it is usually started: standard input, output and error
    are open, nothing else. *)
Definition boot : Kernel :=
  mkKernel (<[0 := FileObj 0]> (<[1 := FileObj 1]> (<[2 := FileObj 2]> ∅)))
           (fun _ => 0%nat) ∅ 1 0 [] [].

(** The same process in an environment that lets [n] refusable calls
    through and refuses the next with the error [e]. *)
Definition boot_refusing (n : nat) (e : string) : Kernel :=
  set_faults (replicate n None ++ [Some e]) boot.

(** Closing, in order, the positive ones of a list of descriptors. *)
Definition close_list (vs : list Z) (t : gmap Z Obj) : gmap Z Obj :=
  foldl (fun t v => if 0 <? v then delete v t else t) t vs.

(** A descriptor is wanted by a response shape when the kernel reports for
    it one of the namespace types of the shape's fields. *)
Definition wanted_type (wanted : list Z) (K : Kernel) (fd : Z) : bool :=
  match kernel_type K fd with
  | Some typ => bool_decide (typ ∈ wanted)
  | None => false
  end.

(** Each handle is queried once, and closed at once when unwanted. *)
Definition decode_events (wanted : list Z) (K : Kernel) (fds : list Z) : list Event :=
  flat_map (fun fd => if wanted_type wanted K fd then [EvNsType fd]
                      else [EvNsType fd; EvClose fd]) fds.

(** What the claim on decoding asks of one run over the handles [fds]:
    every handle whose type matches no wanted field is closed. *)
Definition unwanted_closed (wanted fds : list Z) (K K' : Kernel) : Prop :=
  forall fd, fd ∈ fds -> wanted_type wanted K fd = false -> fdtab K' !! fd = None.

(** How one turn of a decoding loop may change the kernel state. *)
Definition turn (wanted : list Z) (fd : Z) (K K1 : Kernel) : Prop :=
  if wanted_type wanted K fd
  then fdtab K1 = fdtab K /\ trace K1 = trace K ++ [EvNsType fd]
  else fdtab K1 = delete fd (fdtab K)
       /\ trace K1 = trace K ++ [EvNsType fd; EvClose fd].

(** A process holding one more descriptor. *)
Definition holding (fd : Z) (o : Obj) (K : Kernel) : Kernel :=
  set_fdtab (<[fd := o]> (fdtab K)) K.

(** The restorations of a list of recorded namespaces, in list order. *)
Definition restore_events (nsfds : list Z) : list Event :=
  map (fun fd => EvSetns fd 0) nsfds.

(** Units fan out when none is started after another has completed. *)
Definition units_fan_out (evs : list Event) : Prop :=
  forall a b, ~ started_after_completion evs b a.

(** The eight types of namespaces. *)
Definition ns_types : list Z := hierarchical_types ++ flat_types.

(** The flag [Client.Rooms] was given for the type of a field. *)
Definition flag_of (cgroup ipc mnt net time uts : bool) (f : RoomsResponse.Field) : bool :=
  match f with
  | RoomsResponse.FCgroup => cgroup
  | RoomsResponse.FIPC => ipc
  | RoomsResponse.FMnt => mnt
  | RoomsResponse.FNet => net
  | RoomsResponse.FTime => time
  | RoomsResponse.FUTS => uts
  end.

(** The namespace of type [t] that the first of the handles [fds]
    referencing one of that type stands for. *)
Fixpoint saved_of (tab : gmap Z Obj) (t : Z) (fds : list Z) : option nat :=
  match fds with
  | [] => None
  | fd :: rest =>
      match tab !! fd with
      | Some (NsObj t' id) => if t' =? t then Some id else saved_of tab t rest
      | _ => saved_of tab t rest
      end
  end.

(** A computation that keeps the lock count of the thread and never
    unlocks it. *)
Definition keeps_lock {A} (m : M A) : Prop :=
  forall K, locked (m K).2 = locked K
            /\ exists evs, trace (m K).2 = trace K ++ evs
                           /\ Forall (fun e => e <> EvUnlockOSThread) evs.

End Props.

(** * Facts about the kernel model *)
Module UnixFacts.
Import Unix.

Section Alloc.
Variable t : gmap Z Obj.

Lemma lowest_free_from_bounds fuel n :
  n <= lowest_free_from t fuel n <= n + Z.of_nat fuel.
Proof.
  revert n. induction fuel as [|fuel IH]; intros n; simpl; [lia|].
  destruct (t !! n); [|lia]. specialize (IH (n + 1)). lia.
Qed.

Lemma lowest_free_from_below fuel n k :
  n <= k < lowest_free_from t fuel n -> is_Some (t !! k).
Proof.
  revert n. induction fuel as [|fuel IH]; intros n; simpl; [lia|].
  destruct (t !! n) as [o|] eqn:E; [|lia].
  intros Hk. destruct (decide (k = n)) as [->|Hne]; [eauto|].
  apply (IH (n + 1)). lia.
Qed.

Lemma lowest_free_from_stop fuel n :
  t !! lowest_free_from t fuel n = None
  \/ lowest_free_from t fuel n = n + Z.of_nat fuel.
Proof.
  revert n. induction fuel as [|fuel IH]; intros n; simpl; [right; lia|].
  destruct (t !! n) as [o|] eqn:E; [|by left].
  destruct (IH (n + 1)) as [H|H]; [by left|right; lia].
Qed.

Lemma alloc_fd_nonneg : 0 <= alloc_fd t.
Proof. unfold alloc_fd. pose proof (lowest_free_from_bounds (size t) 0). lia. Qed.

Lemma alloc_fd_least k : 0 <= k < alloc_fd t -> is_Some (t !! k).
Proof. apply lowest_free_from_below. Qed.

(** Pigeonhole: among the first [size t + 1] descriptors one is free. *)
Lemma alloc_fd_fresh : t !! alloc_fd t = None.
Proof.
  unfold alloc_fd.
  destruct (lowest_free_from_stop (size t) 0) as [H|H]; [done|].
  destruct (t !! lowest_free_from t (size t) 0) as [o|] eqn:E; [|done].
  exfalso.
  assert (Hall : forall k, 0 <= k < Z.of_nat (size t) + 1 -> is_Some (t !! k)).
  { intros k Hk. destruct (decide (k = Z.of_nat (size t))) as [->|Hne].
    - rewrite H in E. replace (0 + Z.of_nat (size t)) with (Z.of_nat (size t)) in E by lia.
      eauto.
    - apply (lowest_free_from_below (size t) 0). lia. }
  assert (Hsub : (list_to_set (seqZ 0 (Z.of_nat (size t) + 1)) : gset Z) ⊆ dom t).
  { intros k Hk. apply elem_of_list_to_set in Hk.
    apply list_elem_of_lookup in Hk as [i Hi].
    apply lookup_seqZ in Hi as [-> Hi]. apply elem_of_dom, Hall. lia. }
  apply subseteq_size in Hsub.
  rewrite size_list_to_set in Hsub by apply NoDup_seqZ.
  rewrite length_seqZ, size_dom in Hsub. lia.
Qed.
End Alloc.

End UnixFacts.

(** * Validation of requests *)
Module ValidationFacts.
Import Unix Api Service Props.

Lemma testbit_uint64_high s i : is_uint64 s -> 64 <= i -> Z.testbit s i = false.
Proof.
  intros [H0 H1] Hi. destruct (decide (s = 0)) as [->|Hne]; [apply Z.bits_0|].
  apply Z.bits_above_log2; [lia|].
  assert (Z.log2 s < 64); [|lia]. apply Z.log2_lt_pow2; lia.
Qed.

Lemma testbit_not64 m i : 0 <= i < 64 -> Z.testbit (not64 m) i = negb (Z.testbit m i).
Proof.
  intros Hi. unfold not64. rewrite Z.lxor_spec, Z.ones_spec_low by lia.
  by destruct (Z.testbit m i).
Qed.

Lemma testbit_validSpaces i :
  Z.testbit validSpaces i = false <-> Forall (fun typ => Z.testbit typ i = false) flat_types.
Proof.
  unfold validSpaces, flat_types. rewrite !Z.lor_spec, !Forall_cons, Forall_nil.
  rewrite !orb_false_iff. tauto.
Qed.

Lemma testbit_subSpaces i :
  Z.testbit subSpaces i = false
  <-> Forall (fun typ => Z.testbit typ i = false) hierarchical_types.
Proof.
  unfold subSpaces, hierarchical_types. rewrite !Z.lor_spec, !Forall_cons, Forall_nil.
  rewrite !orb_false_iff. tauto.
Qed.

Section Mask.
Variables (mask : Z) (allowed : list Z).
Hypothesis mask_spec : forall i,
  Z.testbit mask i = false <-> Forall (fun typ => Z.testbit typ i = false) allowed.

(** The first check of [Subspace] and [Room] fires on a flag outside. *)
Lemma outside_detected s :
  is_uint64 s -> flag_outside s allowed -> Z.land s (not64 mask) <> 0.
Proof.
  intros Hs (i & Hi & Hbit & Hout) Hz.
  assert (i < 64).
  { destruct (decide (i < 64)); [done|].
    rewrite testbit_uint64_high in Hbit by (done || lia). done. }
  apply mask_spec in Hout.
  assert (Hb : Z.testbit (Z.land s (not64 mask)) i = true).
  { rewrite Z.land_spec, testbit_not64, Hbit, Hout by lia. done. }
  rewrite Hz, Z.bits_0 in Hb. done.
Qed.

(** A valid selection passes both checks. *)
Lemma valid_passes s :
  valid_selection s allowed ->
  Z.land s (not64 mask) = 0 /\ Z.land s mask <> 0.
Proof.
  intros [Hs Hv].
  assert (Hin : forall i, 0 <= i -> Z.testbit s i = true -> Z.testbit mask i = true).
  { intros i Hi Hbit. destruct (Z.testbit mask i) eqn:E; [done|].
    exfalso. apply Hv. right. exists i. by rewrite <- mask_spec. }
  split.
  - apply Z.bits_inj'. intros i Hi. rewrite Z.bits_0, Z.land_spec.
    destruct (Z.testbit s i) eqn:E; [|done]. simpl.
    destruct (decide (i < 64)).
    + rewrite testbit_not64, (Hin i) by (done || lia). done.
    + rewrite testbit_uint64_high in E by (done || lia). done.
  - intros Hz. apply Hv. left.
    apply Z.bits_inj'. intros i Hi. rewrite Z.bits_0.
    destruct (Z.testbit s i) eqn:E; [|done].
    assert (Hb : Z.testbit (Z.land s mask) i = true).
    { rewrite Z.land_spec, E, (Hin i) by done. done. }
    rewrite Hz, Z.bits_0 in Hb. done.
Qed.
End Mask.

(** C1. For every SubspaceRequest whose selection is empty or has a flag
    outside user and PID, and for every RoomsRequest whose selection is
    empty or has a flag outside the six flat types, [Subspace] respectively
    [Room] returns an ErrorResponse and the kernel state is the one it
    started from: no call was made, no descriptor created. *)
Theorem invalid_requests_rejected_untouched :
  (forall s req K,
      is_uint64 (SubspaceRequest.Spaces req) ->
      invalid_selection (SubspaceRequest.Spaces req) hierarchical_types ->
      exists reason, Subspace s req K = (Returned (ErrorResponse reason), K))
  /\ (forall req K,
      is_uint64 (RoomsRequest.Spaces req) ->
      invalid_selection (RoomsRequest.Spaces req) flat_types ->
      exists reason, Room req K = (ErrorResponse reason, K)).
Proof.
  split.
  - intros s [sp] K Hu [Hz|Hout]; unfold Subspace; simpl in *.
    + subst sp. rewrite !Z.land_0_l. simpl. eauto.
    + apply (outside_detected subSpaces _ testbit_subSpaces) in Hout; [|done].
      apply Z.eqb_neq in Hout. rewrite Hout. simpl. eauto.
  - intros [sp] K Hu [Hz|Hout]; unfold Room; simpl in *.
    + subst sp. rewrite !Z.land_0_l. simpl. eauto.
    + apply (outside_detected validSpaces _ testbit_validSpaces) in Hout; [|done].
      apply Z.eqb_neq in Hout. rewrite Hout. simpl. eauto.
Qed.

(** A selection that passes both checks is valid. *)
Lemma checks_valid mask allowed s :
  (forall i, Z.testbit mask i = false
             <-> Forall (fun typ => Z.testbit typ i = false) allowed) ->
  is_uint64 s -> Z.land s (not64 mask) = 0 -> Z.land s mask <> 0 ->
  valid_selection s allowed.
Proof.
  intros Hm Hs H1 H2. split; [done|]. intros [->|Hout].
  - by rewrite Z.land_0_l in H2.
  - by apply (outside_detected mask allowed Hm s Hs) in Hout.
Qed.

Lemma invalid_requests_rejected_untouched_witness :
  (exists reason,
      Subspace (mkSpacemaker "") (SubspaceRequest.mk CLONE_NEWNET) boot
      = (Returned (ErrorResponse reason), boot))
  /\ (exists reason, Room (RoomsRequest.mk 0) boot = (ErrorResponse reason, boot)).
Proof.
  destruct invalid_requests_rejected_untouched as [HS HR]. split.
  - apply HS.
    + split; by vm_compute.
    + right. exists 30. split; [lia|]. split; [reflexivity|].
      repeat constructor.
  - apply HR.
    + split; by vm_compute.
    + left. reflexivity.
Defined.

End ValidationFacts.

(** * The kernel calls, one by one *)
Module CallFacts.
Import Unix Props UnixFacts.

Ltac crush_call :=
  repeat match goal with
    | |- context [match faults ?K with _ => _ end] => destruct (faults K) as [|[?|] ?]
    | |- context [match ?x with (Some _) => _ | None => _ end] =>
        let E := fresh "E" in destruct x eqn:E
    | |- context [match ?x with NsObj _ _ => _ | _ => _ end] => destruct x
    | |- context [if ?b then _ else _] => destruct b
    end;
  simpl in *.

Lemma Open_spec p K :
  trace (Open p K).2 = trace K ++ [EvOpen p] /\
  match (Open p K).1 with
  | Ok fd =>
      0 <= fd /\ fdtab K !! fd = None /\
      (forall k, 0 <= k < fd -> is_Some (fdtab K !! k)) /\
      exists o, resolve p K = Some o /\ fdtab (Open p K).2 = <[fd := o]> (fdtab K)
  | Err _ => fdtab (Open p K).2 = fdtab K
  end.
Proof.
  unfold Open, next_fault, install. simpl.
  destruct (faults K) as [|[e|] fs]; simpl; try done.
  - change (resolve p (emit (EvOpen p) K)) with (resolve p K).
    destruct (resolve p K) as [o|]; simpl; [|done].
    split; [done|]. split; [apply alloc_fd_nonneg|].
    split; [apply alloc_fd_fresh|]. split; [apply alloc_fd_least|]. eauto.
  - change (resolve p (set_faults fs (emit (EvOpen p) K))) with (resolve p K).
    destruct (resolve p K) as [o|]; simpl; [|done].
    split; [done|]. split; [apply alloc_fd_nonneg|].
    split; [apply alloc_fd_fresh|]. split; [apply alloc_fd_least|]. eauto.
Qed.

Lemma Close_spec fd K :
  trace (Close fd K).2 = trace K ++ [EvClose fd] /\
  fdtab (Close fd K).2 = delete fd (fdtab K).
Proof.
  unfold Close. simpl. destruct (fdtab K !! fd) eqn:E; simpl; [done|].
  split; [done|]. by rewrite delete_id.
Qed.

Lemma Unshare_spec flags K :
  trace (Unshare flags K).2 = trace K ++ [EvUnshare flags] /\
  fdtab (Unshare flags K).2 = fdtab K /\
  match (Unshare flags K).1 with
  | Ok _ =>
      forall t, cur (Unshare flags K).2 t
                = if Z.land flags t =? 0 then cur K t else nextid K
  | Err _ => cur (Unshare flags K).2 = cur K
  end.
Proof.
  unfold Unshare, next_fault. simpl.
  destruct (faults K) as [|[e|] fs]; simpl; done.
Qed.

Lemma Setns_spec fd nstype K :
  trace (Setns fd nstype K).2 = trace K ++ [EvSetns fd nstype] /\
  fdtab (Setns fd nstype K).2 = fdtab K.
Proof. unfold Setns, next_fault. simpl. crush_call; done. Qed.

Lemma MountRootPrivate_spec K :
  trace (MountRootPrivate K).2 = trace K ++ [EvMountRootPrivate] /\
  fdtab (MountRootPrivate K).2 = fdtab K.
Proof. unfold MountRootPrivate, next_fault. simpl. crush_call; done. Qed.

Lemma IoctlRetInt_NSTYPE_spec fd K :
  (IoctlRetInt_NSTYPE fd K).2 = emit (EvNsType fd) K /\
  (IoctlRetInt_NSTYPE fd K).1
  = match kernel_type K fd with
    | Some typ => (typ, None)
    | None =>
        (0, Some (match fdtab K !! fd with
                  | Some _ => "inappropriate ioctl for device"
                  | None => "bad file descriptor"
                  end))
    end.
Proof.
  unfold IoctlRetInt_NSTYPE, kernel_type. simpl.
  destruct (fdtab K !! fd) as [[]|]; done.
Qed.

End CallFacts.

(** * The flat path: [newNamespace] and [Room] *)
Module RoomFacts.
Import Unix Spacetest Api Service Props UnixFacts CallFacts ValidationFacts.

Ltac step :=
  match goal with
  | |- context [Open ?p ?K] =>
      let Ht := fresh "Ht" in let Hf := fresh "Hf" in
      pose proof (Open_spec p K) as [Ht Hf];
      destruct (Open p K) as [[?|?] ?]
  | |- context [Unshare ?f ?K] =>
      let Ht := fresh "Ht" in let Hf := fresh "Hf" in
      pose proof (Unshare_spec f K) as (Ht & Hf & _);
      destruct (Unshare f K) as [[[]|?] ?]
  | |- context [MountRootPrivate ?K] =>
      let Ht := fresh "Ht" in let Hf := fresh "Hf" in
      pose proof (MountRootPrivate_spec K) as (Ht & Hf);
      destruct (MountRootPrivate K) as [[[]|?] ?]
  | |- context [Setns ?fd ?t ?K] =>
      let Ht := fresh "Ht" in let Hf := fresh "Hf" in
      pose proof (Setns_spec fd t K) as (Ht & Hf);
      destruct (Setns fd t K) as [? ?]
  | |- context [Close ?fd ?K] =>
      let Ht := fresh "Ht" in let Hf := fresh "Hf" in
      pose proof (Close_spec fd K) as (Ht & Hf);
      destruct (Close fd K) as [? ?]
  end; simpl in *.

Lemma newNamespace_spec typ K :
  (exists evs, trace (newNamespace typ K).2 = trace K ++ evs
               /\ forallb is_call evs = true) /\
  match (newNamespace typ K).1 with
  | (fd, None) =>
      0 < fd /\ fdtab K !! fd = None /\
      exists typ' id, nstype_of_name (Name typ) = Some typ' /\
        fdtab (newNamespace typ K).2 = <[fd := NsObj typ' id]> (fdtab K)
  | (fd, Some _) => fd = 0 /\ fdtab (newNamespace typ K).2 = fdtab K
  end.
Proof.
  unfold newNamespace, bind, LockOSThread, ret.
  set (K1 := set_locked _ _).
  assert (HK1 : trace K1 = trace K ++ [EvLockOSThread] /\ fdtab K1 = fdtab K) by done.
  destruct HK1 as [Ht0 Hf0]. clearbody K1.
  step.
  2:{ split; [|by rewrite Hf, Hf0]. eexists. rewrite Ht, Ht0, <- !app_assoc. done. }
  destruct (typ =? CLONE_NEWNS); repeat step.
  all: repeat match goal with H : trace _ = _ |- _ => rewrite H; clear H end.
  all: rewrite <- ?app_assoc.
  all: split; [eexists; split; [reflexivity|reflexivity]|].
  all: destruct Hf as (Ha & Hfresh & Hleast & o & Ho & Hfa).
  all: try destruct Hf4 as (Ha0 & Hfresh0 & Hleast0 & o0 & Ho0 & Hfa0).
  all: try destruct Hf2 as (Ha0 & Hfresh0 & Hleast0 & o0 & Ho0 & Hfa0).
  all: repeat match goal with H : fdtab _ = _ |- _ => rewrite H in *; clear H end.
  all: try (split; [done|]; by rewrite delete_insert_eq, delete_id).
  all: assert (Hne : a <> a0) by (intros ->; by rewrite lookup_insert_eq in Hfresh0).
  all: rewrite lookup_insert_ne in Hfresh0 by done.
  all: split; [|split; [done|]].
  all: try (destruct (decide (a0 = 0)) as [->|]; [|lia];
            destruct (decide (a = 0)) as [->|]; [done|];
            destruct (Hleast 0) as [? ?]; [lia|congruence]).
  all: destruct (nstype_of_name (Name typ)) as [typ'|]; simpl in *; [|done].
  all: injection Ho0 as <-; do 2 eexists; split; [done|].
  all: rewrite delete_insert_ne by done.
  all: rewrite delete_insert_eq, delete_id by done; done.
Qed.

(** One unit, from the start of its goroutine to the receipt of its
    result. *)
Lemma unit_spec typ K :
  (exists evs,
      trace (go_and_receive typ (newNamespace typ) K).2
      = trace K ++ EvGo typ :: evs ++ [EvRecv typ]
      /\ forallb is_call evs = true) /\
  match (go_and_receive typ (newNamespace typ) K).1 with
  | (fd, None) =>
      0 < fd /\ fdtab K !! fd = None /\
      exists typ' id, nstype_of_name (Name typ) = Some typ' /\
        fdtab (go_and_receive typ (newNamespace typ) K).2
        = <[fd := NsObj typ' id]> (fdtab K)
  | (fd, Some _) =>
      fd = 0 /\ fdtab (go_and_receive typ (newNamespace typ) K).2 = fdtab K
  end.
Proof.
  unfold go_and_receive.
  pose proof (newNamespace_spec typ (set_locked 0 (emit (EvGo typ) K))) as [[evs [Ht Hc]] Hf].
  destruct (newNamespace typ (set_locked 0 (emit (EvGo typ) K))) as [[fd err] K']; simpl in *.
  split.
  - exists evs. rewrite Ht, <- !app_assoc. done.
  - done.
Qed.

Lemma nstype_of_name_flat f :
  nstype_of_name (Name (RoomsResponse.type_of f)) = Some (RoomsResponse.type_of f).
Proof. by destruct f. Qed.

Lemma get_set_eq f v r : RoomsResponse.get f (RoomsResponse.set f v r) = v.
Proof. by destruct f. Qed.

Lemma get_set_ne f g v r :
  f <> g -> RoomsResponse.get g (RoomsResponse.set f v r) = RoomsResponse.get g r.
Proof. by destruct f, g. Qed.

Lemma Room_units_run req K :
  Room_units req K
  = run_units req RoomsResponse.fields (mkRoomState RoomsResponse.zero "" []) K.
Proof.
  unfold Room_units, run_units, RoomsResponse.fields, bind, ret. simpl.
  repeat match goal with
    | |- context [unshare ?r ?t ?f ?st ?K] => destruct (unshare r t f st K)
    end.
  done.
Qed.

Lemma sapp_assoc (a b c : string) : (a +:+ b) +:+ c = a +:+ (b +:+ c).
Proof.
  induction a as [|ch a IH]; [done|].
  change (String ch ((a +:+ b) +:+ c) = String ch (a +:+ (b +:+ c))). by rewrite IH.
Qed.

Lemma sapp_nil_r (a : string) : a +:+ "" = a.
Proof.
  induction a as [|ch a IH]; [done|].
  change (String ch (a +:+ "") = String ch a). by rewrite IH.
Qed.

Lemma sapp_eq_nil (a b : string) : a +:+ b = "" -> a = "" /\ b = "".
Proof. destruct a; simpl; [done|discriminate]. Qed.

Lemma describe_nonempty x : describe x <> "".
Proof.
  unfold describe. intros H. apply sapp_eq_nil in H as [_ H].
  apply sapp_eq_nil in H as [H _]. discriminate.
Qed.

Lemma join_comma_nil_inv l :
  Forall (fun x => x <> "") l -> join_comma l = "" -> l = [].
Proof.
  intros Hl. destruct l as [|x [|y l]]; simpl; [done| |].
  - apply Forall_cons in Hl as [Hx _]. done.
  - apply Forall_cons in Hl as [Hx _]. intros H. by apply sapp_eq_nil in H as [H _].
Qed.

(** Appending one more text the way the closure of [Room] does. *)
Lemma join_comma_snoc l x :
  Forall (fun x => x <> "") l ->
  join_comma (l ++ [x])
  = (if decide (join_comma l = "") then join_comma l else join_comma l +:+ ",") +:+ x.
Proof.
  intros Hl. induction l as [|y l IH]; [done|].
  apply Forall_cons in Hl as [Hy Hl]. specialize (IH Hl).
  destruct l as [|z l].
  - simpl. rewrite decide_False by done. by rewrite sapp_assoc.
  - change (join_comma ((y :: z :: l) ++ [x]))
      with (y +:+ "," +:+ join_comma ((z :: l) ++ [x])).
    rewrite IH.
    change (join_comma (y :: z :: l)) with (y +:+ "," +:+ join_comma (z :: l)).
    rewrite (decide_False (P := (y +:+ _ = ""))).
    2:{ intros H. by apply sapp_eq_nil in H as [H _]. }
    rewrite decide_False.
    2:{ intros H. apply join_comma_nil_inv in H; done. }
    by rewrite !sapp_assoc.
Qed.

Lemma failed_snoc os o :
  failed (os ++ [o])
  = failed os ++ match o.2.2 with Some e => [(o.1, e)] | None => [] end.
Proof.
  unfold failed. rewrite omap_app. simpl. by destruct (o.2.2).
Qed.

Lemma obtained_snoc os o :
  obtained (os ++ [o])
  = obtained os ++ match o.2.2 with Some _ => [] | None => [o.2.1] end.
Proof.
  unfold obtained. rewrite omap_app. simpl. by destruct (o.2.2).
Qed.

Lemma described_nonempty l : Forall (fun x => x <> "") (map describe l).
Proof. apply Forall_forall. intros x Hx. apply list_elem_of_fmap in Hx as [y [-> _]]. apply describe_nonempty. Qed.

Lemma type_of_inj f g : RoomsResponse.type_of f = RoomsResponse.type_of g -> f = g.
Proof. by destruct f, g. Qed.

Ltac split_inv := split; [|split; [|split; [|split; [|split]]]].

Lemma unshare_inv req K0 f rest st K :
  f ∉ rest ->
  room_inv req K0 (f :: rest) st K ->
  room_inv req K0 rest
    (unshare req (RoomsResponse.type_of f) f st K).1
    (unshare req (RoomsResponse.type_of f) f st K).2.
Proof.
  intros Hf (Ha & Hb & He & Hd & Hc & Hm).
  assert (Hf0 : RoomsResponse.get f (resp st) = 0) by (apply He; left).
  unfold unshare, bind, ret.
  destruct (Z.land (RoomsRequest.Spaces req) (RoomsResponse.type_of f) =? 0) eqn:Hreq.
  { (* not requested *)
    simpl. split_inv; try done.
    - intros g Hg. apply He. by right.
    - intros g Hg. destruct (decide (g = f)) as [->|Hne].
      + unfold requested. rewrite Hreq. done.
      + apply Hd. by apply not_elem_of_cons. }
  pose proof (unit_spec (RoomsResponse.type_of f) K) as [_ Hu].
  destruct (go_and_receive (RoomsResponse.type_of f)
              (newNamespace (RoomsResponse.type_of f)) K) as [[fd [e|]] K'];
    simpl in *.
  - (* the unit failed *)
    destruct Hu as [-> Hu]. unfold room_inv; simpl. rewrite Hu.
    split_inv; try done.
    + intros g Hg. apply He. by right.
    + intros g Hg. destruct (decide (g = f)) as [->|Hne].
      * unfold requested. rewrite Hreq. simpl. exists (0, Some e).
        split; [|done]. apply elem_of_app. right. by left.
      * assert (Hg' : g ∉ f :: rest) by (by apply not_elem_of_cons).
        specialize (Hd g Hg').
        destruct (requested _ _); [|done].
        destruct Hd as (o & Ho & Hget). exists o. split; [|done].
        apply elem_of_app. by left.
    + intros fd Hfd. rewrite obtained_snoc in Hfd. simpl in Hfd.
      rewrite app_nil_r in Hfd. by apply Hc.
    + rewrite failed_snoc, map_app. simpl.
      rewrite join_comma_snoc by apply described_nonempty.
      rewrite <- Hm. unfold describe. simpl. by rewrite sapp_assoc.
  - (* the unit returned a handle *)
    destruct Hu as (Hpos & Hfree & typ' & id & Hty & Htab).
    rewrite nstype_of_name_flat in Hty. injection Hty as <-.
    assert (Hfresh : forall g, 0 < RoomsResponse.get g (resp st) ->
                               RoomsResponse.get g (resp st) <> fd).
    { intros g Hg Heq. destruct (Ha g) as [?|(_ & _ & id' & Hid)]; [lia|].
      rewrite Heq in Hid. congruence. }
    unfold room_inv; simpl. rewrite Htab.
    split_inv.
    + intros g. destruct (decide (g = f)) as [->|Hne].
      * right. rewrite get_set_eq. split; [done|]. split.
        -- rewrite <- (Hb fd) by done. done.
        -- exists id. by rewrite lookup_insert_eq.
      * rewrite get_set_ne by done.
        destruct (Ha g) as [?|(Hg & Hg0 & id' & Hid)]; [by left|right].
        split; [done|]. split; [done|]. exists id'.
        rewrite lookup_insert_ne; [done|]. intros Heq. rewrite Heq in Hfree. congruence.
    + intros fd0 Hfd0.
      assert (fd <> fd0).
      { specialize (Hfd0 f). rewrite get_set_eq in Hfd0. by apply Hfd0. }
      rewrite lookup_insert_ne by done. apply Hb.
      intros g Hg. destruct (decide (g = f)) as [->|Hne]; [lia|].
      specialize (Hfd0 g). rewrite get_set_ne in Hfd0 by done. by apply Hfd0.
    + intros g Hg. rewrite get_set_ne; [apply He; by right|]. by intros ->.
    + intros g Hg. destruct (decide (g = f)) as [->|Hne].
      * unfold requested. rewrite Hreq. simpl. exists (fd, None).
        split; [apply elem_of_app; right; by left|]. by rewrite get_set_eq.
      * assert (Hg' : g ∉ f :: rest) by (by apply not_elem_of_cons).
        specialize (Hd g Hg'). rewrite get_set_ne by done.
        destruct (requested _ _); [|done].
        destruct Hd as (o & Ho & Hget). exists o. split; [|done].
        apply elem_of_app. by left.
    + intros fd0 Hfd0. rewrite obtained_snoc in Hfd0. simpl in Hfd0.
      apply elem_of_app in Hfd0 as [Hfd0|Hfd0].
      * destruct (Hc fd0 Hfd0) as (Hp & g & Hg). split; [done|]. exists g.
        rewrite get_set_ne; [done|]. intros ->. lia.
      * apply list_elem_of_singleton in Hfd0 as ->. split; [done|].
        exists f. by rewrite get_set_eq.
    + rewrite failed_snoc. simpl. by rewrite app_nil_r.
Qed.

Lemma run_units_inv req K0 fs :
  NoDup fs -> forall st K,
  room_inv req K0 fs st K ->
  room_inv req K0 [] (run_units req fs st K).1 (run_units req fs st K).2.
Proof.
  induction 1 as [|f rest Hf Hnd IH]; intros st K Hinv; [done|].
  simpl. unfold bind.
  pose proof (unshare_inv req K0 f rest st K Hf Hinv) as Hstep.
  destruct (unshare req (RoomsResponse.type_of f) f st K) as [st' K'].
  by apply IH.
Qed.

Lemma room_inv_init req K :
  room_inv req K RoomsResponse.fields (mkRoomState RoomsResponse.zero "" []) K.
Proof.
  split_inv; simpl; try done.
  - intros f. left. by destruct f.
  - intros f _. by destruct f.
  - intros f Hf. exfalso. apply Hf. destruct f; unfold RoomsResponse.fields;
      repeat (first [by left | right]).
  - intros fd Hfd. by apply elem_of_nil in Hfd.
Qed.

Lemma fields_NoDup : NoDup RoomsResponse.fields.
Proof. apply (bool_decide_unpack _). by vm_compute. Qed.

(** The state of [Room] when its units are done. *)
Lemma Room_units_inv req K :
  room_inv req K [] (Room_units req K).1 (Room_units req K).2.
Proof.
  rewrite Room_units_run. apply run_units_inv; [apply fields_NoDup|apply room_inv_init].
Qed.

(** *** The order of the units in the trace *)

Lemma unit_steps_app r l1 l2 :
  unit_steps r (l1 ++ l2) = unit_steps r l1 ≫= fun r' => unit_steps r' l2.
Proof.
  revert r. induction l1 as [|e l1 IH]; intros r; [done|].
  destruct e; simpl; try apply IH.
  - destruct r; [done|apply IH].
  - destruct r as [t'|]; [|done]. destruct (typ =? t'); [apply IH|done].
Qed.

Lemma unit_steps_calls r evs : forallb is_call evs = true -> unit_steps r evs = Some r.
Proof.
  induction evs as [|e evs IH]; [done|]. simpl. intros H.
  apply andb_true_iff in H as [He H]. destruct e; try done; by apply IH.
Qed.

Lemma starts_calls evs : forallb is_call evs = true -> starts evs = [].
Proof.
  induction evs as [|e evs IH]; [done|]. simpl. intros H.
  apply andb_true_iff in H as [He H]. destruct e; try done; by apply IH.
Qed.

Lemma starts_app l1 l2 : starts (l1 ++ l2) = starts l1 ++ starts l2.
Proof. apply omap_app. Qed.

Lemma unshare_trace req typ f st K :
  exists evs,
    trace (unshare req typ f st K).2 = trace K ++ evs
    /\ unit_steps None evs = Some None
    /\ starts evs = (if requested (RoomsRequest.Spaces req) typ then [typ] else [])
    /\ map fst (outcomes (unshare req typ f st K).1) = map fst (outcomes st) ++ starts evs.
Proof.
  unfold unshare, bind, ret, requested.
  destruct (Z.land (RoomsRequest.Spaces req) typ =? 0) eqn:Hreq; simpl.
  { exists []. by rewrite !app_nil_r. }
  pose proof (unit_spec typ K) as [(evs & Ht & Hc) _].
  destruct (go_and_receive typ (newNamespace typ) K) as [[fd err] K']; simpl in *.
  exists (EvGo typ :: evs ++ [EvRecv typ]).
  assert (Hs : starts (EvGo typ :: evs ++ [EvRecv typ]) = [typ]).
  { change (starts (EvGo typ :: evs ++ [EvRecv typ]))
      with (typ :: starts (evs ++ [EvRecv typ])).
    by rewrite starts_app, starts_calls. }
  assert (Hu : unit_steps None (EvGo typ :: evs ++ [EvRecv typ]) = Some None).
  { simpl. rewrite unit_steps_app, unit_steps_calls by done. simpl.
    by rewrite Z.eqb_refl. }
  rewrite Hs. destruct err; simpl; rewrite ?map_app; done.
Qed.

Lemma run_units_trace req fs : forall st K,
  exists evs,
    trace (run_units req fs st K).2 = trace K ++ evs
    /\ unit_steps None evs = Some None
    /\ starts evs
       = filter (fun typ => requested (RoomsRequest.Spaces req) typ = true)
                (map RoomsResponse.type_of fs)
    /\ map fst (outcomes (run_units req fs st K).1) = map fst (outcomes st) ++ starts evs.
Proof.
  induction fs as [|f rest IH]; intros st K.
  { exists []. simpl. by rewrite !app_nil_r. }
  simpl. unfold bind.
  destruct (unshare_trace req (RoomsResponse.type_of f) f st K)
    as (evs1 & Ht1 & Hu1 & Hs1 & Ho1).
  destruct (unshare req (RoomsResponse.type_of f) f st K) as [st' K']; simpl in *.
  destruct (IH st' K') as (evs2 & Ht2 & Hu2 & Hs2 & Ho2).
  exists (evs1 ++ evs2). split; [|split; [|split]].
  - by rewrite Ht2, Ht1, app_assoc.
  - by rewrite unit_steps_app, Hu1.
  - rewrite starts_app, Hs1, Hs2. rewrite filter_cons.
    destruct (requested _ _); simpl; done.
  - by rewrite Ho2, Ho1, starts_app, app_assoc.
Qed.

(** *** Unwinding after a failure *)

Lemma lookup_close_list vs : forall (t : gmap Z Obj) k,
  close_list vs t !! k = if decide (0 < k /\ k ∈ vs) then None else t !! k.
Proof.
  induction vs as [|v vs IH]; intros t k; simpl.
  { rewrite decide_False; [done|]. intros [_ H]. by apply elem_of_nil in H. }
  unfold close_list in *. simpl. rewrite IH.
  destruct (decide (0 < k /\ k ∈ vs)) as [[Hk Hin]|Hn].
  - rewrite decide_True; [done|]. split; [done|by right].
  - destruct (decide (k = v)) as [->|Hne].
    + destruct (0 <? v) eqn:Hv.
      * rewrite lookup_delete_eq. rewrite decide_True; [done|].
        split; [lia|by left].
      * rewrite decide_False; [done|]. intros [H _]. lia.
    + rewrite decide_False.
      2:{ intros [Hk Hin]. apply elem_of_cons in Hin as [?|?]; [done|]. by apply Hn. }
      destruct (0 <? v); [by rewrite lookup_delete_ne|done].
Qed.

Lemma close_if_open_spec fd K :
  fdtab (close_if_open fd K).2 = (if 0 <? fd then delete fd (fdtab K) else fdtab K)
  /\ trace (close_if_open fd K).2 = trace K ++ (if 0 <? fd then [EvClose fd] else []).
Proof.
  unfold close_if_open, bind, ret. destruct (0 <? fd); simpl.
  - pose proof (Close_spec fd K) as [Ht Hf]. by destruct (Close fd K).
  - by rewrite app_nil_r.
Qed.

Lemma Room_finish_failed st K :
  errmsg st <> "" ->
  (Room_finish st K).1 = ErrorResponse (errmsg st)
  /\ fdtab (Room_finish st K).2
     = close_list (map (fun f => RoomsResponse.get f (resp st)) RoomsResponse.fields)
                  (fdtab K)
  /\ trace (Room_finish st K).2
     = trace K ++ map EvClose
                    (filter (fun v => 0 < v)
                       (map (fun f => RoomsResponse.get f (resp st)) RoomsResponse.fields)).
Proof.
  intros He. unfold Room_finish. rewrite decide_False by done.
  unfold bind, ret.
  repeat match goal with
    | |- context [close_if_open ?fd ?K] =>
        let Ht := fresh "Ht" in let Hf := fresh "Hf" in
        pose proof (close_if_open_spec fd K) as [Hf Ht];
        destruct (close_if_open fd K) as [[] ?]; simpl in Hf, Ht
    end.
  simpl. split; [done|]. split.
  - unfold close_list. simpl. rewrite Hf4, Hf3, Hf2, Hf1, Hf0, Hf. done.
  - rewrite Ht4, Ht3, Ht2, Ht1, Ht0, Ht. rewrite <- !app_assoc. f_equal.
    unfold RoomsResponse.fields. simpl.
    rewrite !filter_cons, filter_nil.
    repeat match goal with
      | |- context [decide (0 < ?v)] =>
          destruct (decide (0 < v)); [rewrite (proj2 (Z.ltb_lt 0 v)) by done
                                     |rewrite (proj2 (Z.ltb_ge 0 v)) by lia]
      end; done.
Qed.

Lemma valid_Room req K :
  valid_selection (RoomsRequest.Spaces req) flat_types ->
  Room req K = Room_finish (Room_units req K).1 (Room_units req K).2.
Proof.
  intros Hv. apply (valid_passes validSpaces _ testbit_validSpaces) in Hv as [H1 H2].
  unfold Room. rewrite H1. apply Z.eqb_neq in H2. rewrite H2. simpl.
  unfold bind. by destruct (Room_units req K).
Qed.

Lemma failed_nil os : Forall (fun o => o.2.2 = None) os -> failed os = [].
Proof.
  induction 1 as [|o os Ho _ IH]; [done|]. unfold failed in *. simpl.
  by rewrite Ho.
Qed.

Lemma failed_not_nil os : Exists (fun o => o.2.2 <> None) os -> failed os <> [].
Proof.
  induction 1 as [o os Ho|o os _ IH]; unfold failed in *; simpl.
  - destruct (o.2.2); done.
  - destruct (o.2.2); [done|]. done.
Qed.

Lemma obtained_elem os typ o :
  (typ, o) ∈ os -> o.2 = None -> o.1 ∈ obtained os.
Proof.
  intros Hin Ho. unfold obtained. apply list_elem_of_omap.
  exists (typ, o). split; [done|]. simpl. by rewrite Ho.
Qed.

(** When every unit succeeds, [Room] answers with the response the units
    filled in, and the kernel is as the units left it. *)
Lemma Room_success req K :
  valid_selection (RoomsRequest.Spaces req) flat_types ->
  Forall (fun o => o.2.2 = None) (outcomes (Room_units req K).1) ->
  exists r,
    Room req K = (RoomsResp r, (Room_units req K).2)
    /\ forall f,
         if requested (RoomsRequest.Spaces req) (RoomsResponse.type_of f)
         then 0 < RoomsResponse.get f r
              /\ exists id, fdtab (Room_units req K).2 !! RoomsResponse.get f r
                            = Some (NsObj (RoomsResponse.type_of f) id)
         else RoomsResponse.get f r = 0.
Proof.
  intros Hv Hok. rewrite (valid_Room _ _ Hv).
  pose proof (Room_units_inv req K) as (Ha & Hb & He & Hd & Hc & Hm).
  destruct (Room_units req K) as [st K']; simpl in *.
  rewrite (failed_nil _ Hok) in Hm. simpl in Hm.
  exists (resp st). unfold Room_finish. rewrite decide_True by done. split; [done|].
  intros f. specialize (Hd f (not_elem_of_nil f)).
  destruct (requested _ _); [|done].
  destruct Hd as (o & Hin & Hget).
  assert (Ho : o.2 = None).
  { rewrite Forall_forall in Hok. apply (Hok _ Hin). }
  specialize (Hget Ho).
  destruct (Hc _ (obtained_elem _ _ _ Hin Ho)) as [Hpos _].
  rewrite Hget. split; [done|].
  destruct (Ha f) as [H0|(_ & _ & id & Hid)]; [lia|].
  rewrite Hget in Hid. eauto.
Qed.

(** C2. For every valid RoomsRequest, when every unit succeeds, [Room]
    returns a RoomsResponse whose field is positive for exactly the
    requested types and zero for the others, and NS_GET_NSTYPE on each
    returned handle reports the type it was requested under. *)
Theorem Room_returns_requested_namespaces req K :
  valid_selection (RoomsRequest.Spaces req) flat_types ->
  Forall (fun o => o.2.2 = None) (outcomes (Room_units req K).1) ->
  exists r,
    (Room req K).1 = RoomsResp r
    /\ forall f,
         if requested (RoomsRequest.Spaces req) (RoomsResponse.type_of f)
         then 0 < RoomsResponse.get f r
              /\ (IoctlRetInt_NSTYPE (RoomsResponse.get f r) (Room req K).2).1
                 = (RoomsResponse.type_of f, None)
         else RoomsResponse.get f r = 0.
Proof.
  intros Hv Hok. destruct (Room_success req K Hv Hok) as (r & HR & Hf).
  exists r. rewrite HR. split; [done|]. intros f. specialize (Hf f).
  destruct (requested _ _); [|done]. destruct Hf as (Hpos & id & Hid).
  split; [done|]. simpl.
  rewrite (proj2 (IoctlRetInt_NSTYPE_spec _ _)). unfold kernel_type. by rewrite Hid.
Qed.

Lemma events_since_app K K' evs : trace K' = trace K ++ evs -> events_since K K' = evs.
Proof. intros H. unfold events_since. by rewrite H, drop_app_length. Qed.

(** C3. For every valid RoomsRequest of which at least one unit fails,
    [Room] returns one ErrorResponse whose reason lists, separated by
    commas, every failing type with its reason; every handle a unit had
    obtained is closed, and the descriptor table is back to what it was. *)
Theorem Room_unwinds_on_failure req K :
  valid_selection (RoomsRequest.Spaces req) flat_types ->
  Exists (fun o => o.2.2 <> None) (outcomes (Room_units req K).1) ->
  let os := outcomes (Room_units req K).1 in
  (Room req K).1 = ErrorResponse (join_comma (map describe (failed os)))
  /\ fdtab (Room req K).2 = fdtab K
  /\ forall fd, fd ∈ obtained os ->
       EvClose fd ∈ events_since K (Room req K).2
       /\ fdtab (Room req K).2 !! fd = None.
Proof.
  intros Hv Hfail os. subst os. rewrite (valid_Room _ _ Hv).
  pose proof (Room_units_inv req K) as (Ha & Hb & He & Hd & Hc & Hm).
  destruct (run_units_trace req RoomsResponse.fields
              (mkRoomState RoomsResponse.zero "" []) K) as (evs & Ht & _).
  rewrite <- Room_units_run in Ht.
  destruct (Room_units req K) as [st K']; simpl in *.
  assert (Hne : errmsg st <> "").
  { rewrite Hm. intros H. apply join_comma_nil_inv in H; [|apply described_nonempty].
    apply fmap_nil_inv in H. by apply failed_not_nil in Hfail. }
  destruct (Room_finish_failed st K' Hne) as (HR & Hf & Htr).
  assert (Htab : fdtab (Room_finish st K').2 = fdtab K).
  { rewrite Hf. apply map_eq. intros k. rewrite lookup_close_list.
    destruct (decide (0 < k /\ _)) as [[Hk Hin]|Hn].
    - apply list_elem_of_fmap in Hin as (f & -> & _).
      destruct (Ha f) as [?|(_ & H0 & _)]; [lia|done].
    - apply Hb. intros f Hpos Heq. apply Hn. split; [lia|].
      apply list_elem_of_fmap. exists f. split; [done|].
      destruct f; unfold RoomsResponse.fields; repeat (first [by left | right]). }
  split; [by rewrite HR, Hm|]. split; [done|].
  intros fd Hfd. destruct (Hc fd Hfd) as (Hpos & f & Hget). split.
  - rewrite (events_since_app K _ (evs ++ map EvClose
        (filter (fun v => 0 < v)
           (map (fun f => RoomsResponse.get f (resp st)) RoomsResponse.fields)))).
    2:{ rewrite Htr, Ht. by rewrite app_assoc. }
    apply elem_of_app. right. apply list_elem_of_fmap. exists fd. split; [done|].
    apply list_elem_of_filter. split; [done|].
    apply list_elem_of_fmap. exists f. split; [done|].
    destruct f; unfold RoomsResponse.fields; repeat (first [by left | right]).
  - rewrite Htab. destruct (Ha f) as [?|(_ & H0 & _)]; [lia|]. by rewrite <- Hget.
Qed.

Lemma flat_checks_valid s :
  is_uint64 s -> Z.land s (not64 validSpaces) = 0 -> Z.land s validSpaces <> 0 ->
  valid_selection s flat_types.
Proof. apply checks_valid, testbit_validSpaces. Qed.

Lemma Room_returns_requested_namespaces_witness :
  exists r,
    (Room (RoomsRequest.mk (Z.lor CLONE_NEWNET CLONE_NEWUTS)) boot).1 = RoomsResp r
    /\ forall f,
         if requested (Z.lor CLONE_NEWNET CLONE_NEWUTS) (RoomsResponse.type_of f)
         then 0 < RoomsResponse.get f r
              /\ (IoctlRetInt_NSTYPE (RoomsResponse.get f r)
                    (Room (RoomsRequest.mk (Z.lor CLONE_NEWNET CLONE_NEWUTS)) boot).2).1
                 = (RoomsResponse.type_of f, None)
         else RoomsResponse.get f r = 0.
Proof.
  apply (Room_returns_requested_namespaces
           (RoomsRequest.mk (Z.lor CLONE_NEWNET CLONE_NEWUTS)) boot).
  - apply flat_checks_valid; [split; by vm_compute|reflexivity|by vm_compute].
  - vm_compute. repeat constructor.
Defined.

Lemma Room_unwinds_on_failure_witness :
  let req := RoomsRequest.mk (Z.lor CLONE_NEWNET CLONE_NEWUTS) in
  let K := boot_refusing 5 "operation not permitted" in
  (Room req K).1 = ErrorResponse "uts:operation not permitted"
  /\ fdtab (Room req K).2 = fdtab K
  /\ EvClose 4 ∈ events_since K (Room req K).2.
Proof.
  intros req K.
  destruct (Room_unwinds_on_failure req K) as (HR & Htab & Hcl).
  - apply flat_checks_valid; [split; by vm_compute|reflexivity|by vm_compute].
  - vm_compute. apply Exists_cons_tl, Exists_cons_hd. discriminate.
  - split; [exact HR|]. split; [exact Htab|].
    apply (Hcl 4). vm_compute. left.
Defined.

(** Every unit of [Room] is started only after the result of the unit
    before it has been received: the request for cgroup and IPC on a
    fresh process starts the IPC unit after the cgroup unit completed. *)
Lemma Room_units_do_not_fan_out :
  ~ units_fan_out
      (events_since boot
         (Room (RoomsRequest.mk (Z.lor CLONE_NEWCGROUP CLONE_NEWIPC)) boot).2).
Proof.
  intros H. apply (H CLONE_NEWCGROUP CLONE_NEWIPC).
  exists 7%nat, 8%nat. split; [lia|]. split; by vm_compute.
Qed.

(** C7, as the code has it.  For every valid RoomsRequest the units of
    [Room] run one at a time, each on a goroutine of its own: a unit is
    started only when the result of the previous one has been received,
    and the units are started in the order cgroup, IPC, mount, net, time,
    UTS, restricted to the requested types. *)
Theorem Room_units_run_one_at_a_time req K :
  valid_selection (RoomsRequest.Spaces req) flat_types ->
  one_at_a_time (events_since K (Room req K).2)
  /\ starts (events_since K (Room req K).2)
     = filter (fun typ => requested (RoomsRequest.Spaces req) typ = true) flat_types.
Proof.
  intros Hv. rewrite (valid_Room _ _ Hv).
  destruct (run_units_trace req RoomsResponse.fields
              (mkRoomState RoomsResponse.zero "" []) K) as (evs & Ht & Hu & Hs & _).
  rewrite <- Room_units_run in Ht.
  destruct (Room_units req K) as [st K']; simpl in *.
  unfold Room_finish. destruct (decide (errmsg st = "")) as [He|He].
  - simpl. rewrite (events_since_app _ _ _ Ht). done.
  - pose proof (Room_finish_failed st K' He) as (_ & _ & Htr).
    unfold Room_finish in Htr. rewrite decide_False in Htr by done.
    rewrite Ht, <- app_assoc in Htr. rewrite (events_since_app _ _ _ Htr).
    assert (Hcalls : forallb is_call
              (map EvClose
                 (filter (fun v => 0 < v)
                    (map (fun f => RoomsResponse.get f (resp st)) RoomsResponse.fields)))
            = true).
    { apply forallb_forall. intros e He'. apply in_map_iff in He' as (fd & <- & _). done. }
    split.
    + unfold one_at_a_time. rewrite unit_steps_app, Hu. simpl.
      by apply unit_steps_calls.
    + rewrite starts_app, (starts_calls _ Hcalls), app_nil_r. exact Hs.
Qed.

Lemma Room_units_run_one_at_a_time_witness :
  let req := RoomsRequest.mk (Z.lor CLONE_NEWCGROUP CLONE_NEWIPC) in
  one_at_a_time (events_since boot (Room req boot).2)
  /\ starts (events_since boot (Room req boot).2) = [CLONE_NEWCGROUP; CLONE_NEWIPC].
Proof.
  intros req. apply (Room_units_run_one_at_a_time req boot).
  apply flat_checks_valid; [split; by vm_compute|reflexivity|by vm_compute].
Defined.

Lemma borrow_field_positive f acc :
  0 < RoomsResponse.get f acc.2 ->
  RoomsResponse.borrow_field f acc
  = (acc.1 ++ [RoomsResponse.get f acc.2], RoomsResponse.set f 0 acc.2).
Proof.
  intros H. unfold RoomsResponse.borrow_field, borrow.
  by rewrite (proj2 (Z.leb_gt _ 0)) by lia.
Qed.

Lemma EncodeFds_all_positive r :
  (forall f, 0 < RoomsResponse.get f r) ->
  (RoomsResponse.EncodeFds r).1
  = map (fun f => RoomsResponse.get f r) RoomsResponse.fields.
Proof.
  intros H. unfold RoomsResponse.EncodeFds.
  rewrite (borrow_field_positive RoomsResponse.FCgroup) by apply H.
  rewrite (borrow_field_positive RoomsResponse.FIPC)
    by (cbn [snd]; rewrite get_set_ne by done; apply H).
  rewrite (borrow_field_positive RoomsResponse.FMnt)
    by (cbn [snd]; rewrite !get_set_ne by done; apply H).
  rewrite (borrow_field_positive RoomsResponse.FNet)
    by (cbn [snd]; rewrite !get_set_ne by done; apply H).
  rewrite (borrow_field_positive RoomsResponse.FTime)
    by (cbn [snd]; rewrite !get_set_ne by done; apply H).
  rewrite (borrow_field_positive RoomsResponse.FUTS)
    by (cbn [snd]; rewrite !get_set_ne by done; apply H).
  cbn [fst snd]. rewrite !get_set_ne by done. done.
Qed.

(** C8. [Client.do] receives with room for 3 descriptors, while the
    response to the valid request for all six flat types, the one
    [Client.Rooms] sends when all six are asked for, carries 6 descriptors
    in its auxiliary set: more than the client admits per message. *)
Theorem reply_exceeds_receive_limit K :
  let req := Client.Rooms_request true true true true true true in
  Forall (fun o => o.2.2 = None) (outcomes (Room_units req K).1) ->
  valid_selection (RoomsRequest.Spaces req) flat_types
  /\ Client.do_maxfds = 3
  /\ exists r,
       (Room req K).1 = RoomsResp r
       /\ length (RoomsResponse.EncodeFds r).1 = 6%nat
       /\ Client.do_maxfds < Z.of_nat (length (RoomsResponse.EncodeFds r).1)
       /\ Uds.oob_payload Client.do_maxfds
          < 4 * Z.of_nat (length (RoomsResponse.EncodeFds r).1).
Proof.
  intros req Hok.
  assert (Hv : valid_selection (RoomsRequest.Spaces req) flat_types).
  { apply flat_checks_valid; [split; by vm_compute|reflexivity|by vm_compute]. }
  split; [done|]. split; [done|].
  destruct (Room_success _ K Hv Hok) as (r & HR & Hf).
  exists r. rewrite HR. split; [done|].
  rewrite EncodeFds_all_positive.
  - done.
  - intros f. specialize (Hf f). by destruct f; destruct Hf.
Qed.

Lemma reply_exceeds_receive_limit_witness :
  exists r,
    (Room (Client.Rooms_request true true true true true true) boot).1 = RoomsResp r
    /\ length (RoomsResponse.EncodeFds r).1 = 6%nat
    /\ Client.do_maxfds < Z.of_nat (length (RoomsResponse.EncodeFds r).1).
Proof.
  destruct (reply_exceeds_receive_limit boot) as (_ & _ & r & HR & Hlen & Hlim & _).
  - vm_compute. repeat constructor.
  - exists r. split; [exact HR|]. split; [exact Hlen|exact Hlim].
Defined.

End RoomFacts.

(** * Redistributing received handles: [DecodeFds] *)
Module DecodeFacts.
Import Unix Spacetest Api Service Props UnixFacts CallFacts RoomFacts.

Lemma type_of_flat f : RoomsResponse.type_of f ∈ flat_types.
Proof. destruct f; unfold flat_types; repeat (first [by left | right]). Qed.

Lemma flat_type_of typ : typ ∈ flat_types -> exists f, typ = RoomsResponse.type_of f.
Proof.
  unfold flat_types. rewrite !elem_of_cons, elem_of_nil.
  intros [->|[->|[->|[->|[->|[->|[]]]]]]];
    [by exists RoomsResponse.FCgroup|by exists RoomsResponse.FIPC
    |by exists RoomsResponse.FMnt|by exists RoomsResponse.FNet
    |by exists RoomsResponse.FTime|by exists RoomsResponse.FUTS].
Qed.

(** One turn of the loop of [RoomsResponse.DecodeFds]. *)
Lemma rooms_decode_one fd s K :
  if wanted_type flat_types K fd then
    (RoomsResponse.decode_one fd s K).2 = emit (EvNsType fd) K
    /\ exists f, kernel_type K fd = Some (RoomsResponse.type_of f)
                 /\ (RoomsResponse.decode_one fd s K).1 = RoomsResponse.set f fd s
  else
    (RoomsResponse.decode_one fd s K).2 = (Close fd (emit (EvNsType fd) K)).2
    /\ (RoomsResponse.decode_one fd s K).1 = s.
Proof.
  unfold wanted_type, RoomsResponse.decode_one, bind, ret.
  pose proof (IoctlRetInt_NSTYPE_spec fd K) as [HK Hr].
  destruct (IoctlRetInt_NSTYPE fd K) as [r K1]. simpl in *. subst K1.
  destruct (kernel_type K fd) as [typ|] eqn:Ety; subst r; simpl.
  - destruct (bool_decide (typ ∈ flat_types)) eqn:Hw.
    + apply bool_decide_eq_true in Hw. apply flat_type_of in Hw as [f ->].
      split; [by destruct f|]. exists f. split; [done|]. by destruct f.
    + apply bool_decide_eq_false in Hw.
      assert (Hne : forall f, typ <> RoomsResponse.type_of f).
      { intros f ->. apply Hw, type_of_flat. }
      pose proof (Hne RoomsResponse.FCgroup) as H1. pose proof (Hne RoomsResponse.FIPC) as H2.
      pose proof (Hne RoomsResponse.FMnt) as H3. pose proof (Hne RoomsResponse.FNet) as H4.
      pose proof (Hne RoomsResponse.FTime) as H5. pose proof (Hne RoomsResponse.FUTS) as H6.
      simpl in *.
      apply Z.eqb_neq in H1, H2, H3, H4, H5, H6.
      rewrite H1, H2, H3, H4, H5, H6.
      by destruct (Close fd (emit (EvNsType fd) K)).
  - by destruct (Close fd (emit (EvNsType fd) K)).
Qed.

Lemma turn_wanted wanted fd K K1 x :
  turn wanted fd K K1 -> wanted_type wanted K1 x = wanted_type wanted K x.
Proof.
  unfold turn. destruct (wanted_type wanted K fd) eqn:Hw; intros [Hf _].
  - unfold wanted_type, kernel_type. by rewrite Hf.
  - destruct (decide (x = fd)) as [->|Hne].
    + rewrite Hw. unfold wanted_type, kernel_type. by rewrite Hf, lookup_delete_eq.
    + unfold wanted_type, kernel_type. by rewrite Hf, lookup_delete_ne.
Qed.

Lemma turn_kernel_type wanted fd K K1 x typ :
  turn wanted fd K K1 -> typ ∈ wanted ->
  kernel_type K1 x = Some typ <-> kernel_type K x = Some typ.
Proof.
  unfold turn. destruct (wanted_type wanted K fd) eqn:Hw; intros [Hf _] Hty.
  - unfold kernel_type. by rewrite Hf.
  - destruct (decide (x = fd)) as [->|Hne].
    + unfold kernel_type at 1. rewrite Hf, lookup_delete_eq. split; [done|].
      intros Hk. unfold wanted_type in Hw. rewrite Hk in Hw.
      by apply bool_decide_eq_false in Hw.
    + unfold kernel_type. by rewrite Hf, lookup_delete_ne.
Qed.

Lemma turn_decode_events wanted fd K K1 fds :
  turn wanted fd K K1 -> decode_events wanted K1 fds = decode_events wanted K fds.
Proof.
  intros Ht. unfold decode_events. induction fds as [|x fds IH]; [done|].
  simpl. by rewrite IH, (turn_wanted _ _ _ _ x Ht).
Qed.

Lemma rooms_turn fd s K :
  turn flat_types fd K (RoomsResponse.decode_one fd s K).2.
Proof.
  pose proof (rooms_decode_one fd s K) as H. unfold turn.
  destruct (wanted_type flat_types K fd).
  - destruct H as [-> _]. done.
  - destruct H as [-> _]. pose proof (Close_spec fd (emit (EvNsType fd) K)) as [Ht Hf].
    rewrite Hf, Ht. simpl. by rewrite <- app_assoc.
Qed.

Lemma rooms_decode_loop fds : forall s K,
  let R := RoomsResponse.DecodeFds fds s K in
  trace R.2 = trace K ++ decode_events flat_types K fds
  /\ (forall fd, fd ∈ fds -> wanted_type flat_types K fd = false -> fdtab R.2 !! fd = None)
  /\ (forall fd, wanted_type flat_types K fd = true -> fdtab R.2 !! fd = fdtab K !! fd)
  /\ (forall fd, fdtab K !! fd = None -> fdtab R.2 !! fd = None)
  /\ (forall fd, fd ∉ fds -> fdtab R.2 !! fd = fdtab K !! fd)
  /\ (forall f, RoomsResponse.get f R.1 = RoomsResponse.get f s
                \/ (RoomsResponse.get f R.1 ∈ fds
                    /\ kernel_type K (RoomsResponse.get f R.1)
                       = Some (RoomsResponse.type_of f))).
Proof.
  induction fds as [|fd rest IH]; intros s K R; subst R.
  { simpl. rewrite app_nil_r. split_inv; try done.
    - intros fd H. by apply elem_of_nil in H.
    - intros f. by left. }
  simpl. unfold bind.
  pose proof (rooms_turn fd s K) as Hturn.
  pose proof (rooms_decode_one fd s K) as Hone.
  destruct (RoomsResponse.decode_one fd s K) as [s1 K1]. simpl in *.
  specialize (IH s1 K1). simpl in IH.
  destruct IH as (Ht & Hclosed & Hkept & Hnone & Hframe & Hfields).
  assert (Htab : forall x, x <> fd \/ wanted_type flat_types K fd = true ->
                           fdtab K1 !! x = fdtab K !! x).
  { intros x Hx. unfold turn in Hturn. destruct (wanted_type flat_types K fd).
    - destruct Hturn as [-> _]. done.
    - destruct Hturn as [-> _]. destruct Hx as [Hx|?]; [|done].
      by rewrite lookup_delete_ne. }
  split; [|split; [|split; [|split; [|split]]]].
  - rewrite Ht, (turn_decode_events _ _ _ _ _ Hturn).
    unfold turn in Hturn. unfold decode_events at 2. simpl.
    destruct (wanted_type flat_types K fd); destruct Hturn as [_ ->];
      by rewrite <- app_assoc.
  - intros x Hx Hw. apply elem_of_cons in Hx as [->|Hx].
    + apply Hnone. unfold turn in Hturn. rewrite Hw in Hturn.
      destruct Hturn as [-> _]. apply lookup_delete_eq.
    + apply Hclosed; [done|]. by rewrite (turn_wanted _ _ _ _ x Hturn).
  - intros x Hw. rewrite Hkept by (by rewrite (turn_wanted _ _ _ _ x Hturn)).
    apply Htab. destruct (decide (x = fd)) as [->|?]; [by right|by left].
  - intros x Hx. apply Hnone. unfold turn in Hturn.
    destruct (wanted_type flat_types K fd); destruct Hturn as [-> _]; [done|].
    destruct (decide (x = fd)) as [->|?];
      [apply lookup_delete_eq|by rewrite lookup_delete_ne].
  - intros x Hx. apply not_elem_of_cons in Hx as [Hne Hx].
    rewrite Hframe by done. apply Htab. by left.
  - intros f. destruct (Hfields f) as [Heq|[Hin Hty]].
    + rewrite Heq. destruct (wanted_type flat_types K fd).
      * destruct Hone as (_ & f0 & Hty & ->).
        destruct (decide (f0 = f)) as [->|Hne].
        -- right. rewrite get_set_eq in *. split; [by left|done].
        -- left. by rewrite get_set_ne.
      * destruct Hone as [_ ->]. by left.
    + right. split; [by right|].
      by apply (turn_kernel_type _ _ _ _ _ _ Hturn (type_of_flat f)).
Qed.

(** One turn of the loop of [SubspaceResponse.DecodeFds]. *)
Lemma subspace_decode_one fd s K :
  if wanted_type hierarchical_types K fd then
    (SubspaceResponse.decode_one fd s K).2 = emit (EvNsType fd) K
    /\ ((kernel_type K fd = Some CLONE_NEWUSER
         /\ (SubspaceResponse.decode_one fd s K).1
            = SubspaceResponse.mk (SubspaceResponse.Conn s) fd (SubspaceResponse.PID s))
        \/ (kernel_type K fd = Some CLONE_NEWPID
            /\ (SubspaceResponse.decode_one fd s K).1
               = SubspaceResponse.mk (SubspaceResponse.Conn s) (SubspaceResponse.User s) fd))
  else
    (SubspaceResponse.decode_one fd s K).2 = (Close fd (emit (EvNsType fd) K)).2
    /\ (SubspaceResponse.decode_one fd s K).1 = s.
Proof.
  unfold wanted_type, SubspaceResponse.decode_one, bind, ret.
  pose proof (IoctlRetInt_NSTYPE_spec fd K) as [HK Hr].
  destruct (IoctlRetInt_NSTYPE fd K) as [r K1]. simpl in *. subst K1.
  destruct (kernel_type K fd) as [typ|] eqn:Ety; subst r; simpl.
  - destruct (bool_decide (typ ∈ hierarchical_types)) eqn:Hw.
    + apply bool_decide_eq_true in Hw. unfold hierarchical_types in Hw.
      rewrite !elem_of_cons, elem_of_nil in Hw.
      destruct Hw as [->|[->|[]]]; simpl; split; try done; [by left|by right].
    + apply bool_decide_eq_false in Hw. unfold hierarchical_types in Hw.
      rewrite !not_elem_of_cons in Hw. destruct Hw as (H1 & H2 & _).
      apply Z.eqb_neq in H1, H2. rewrite H1, H2.
      by destruct (Close fd (emit (EvNsType fd) K)).
  - by destruct (Close fd (emit (EvNsType fd) K)).
Qed.

Lemma subspace_turn fd s K :
  turn hierarchical_types fd K (SubspaceResponse.decode_one fd s K).2.
Proof.
  pose proof (subspace_decode_one fd s K) as H. unfold turn.
  destruct (wanted_type hierarchical_types K fd).
  - destruct H as [-> _]. done.
  - destruct H as [-> _]. pose proof (Close_spec fd (emit (EvNsType fd) K)) as [Ht Hf].
    rewrite Hf, Ht. simpl. by rewrite <- app_assoc.
Qed.

Lemma subspace_decode_loop fds : forall s K,
  let R := SubspaceResponse.decode_rest fds s K in
  trace R.2 = trace K ++ decode_events hierarchical_types K fds
  /\ (forall fd, fd ∈ fds -> wanted_type hierarchical_types K fd = false ->
                 fdtab R.2 !! fd = None)
  /\ (forall fd, fdtab K !! fd = None -> fdtab R.2 !! fd = None)
  /\ (forall fd, fd ∉ fds -> fdtab R.2 !! fd = fdtab K !! fd)
  /\ SubspaceResponse.Conn R.1 = SubspaceResponse.Conn s
  /\ (SubspaceResponse.User R.1 = SubspaceResponse.User s
      \/ (SubspaceResponse.User R.1 ∈ fds
          /\ kernel_type K (SubspaceResponse.User R.1) = Some CLONE_NEWUSER))
  /\ (SubspaceResponse.PID R.1 = SubspaceResponse.PID s
      \/ (SubspaceResponse.PID R.1 ∈ fds
          /\ kernel_type K (SubspaceResponse.PID R.1) = Some CLONE_NEWPID)).
Proof.
  induction fds as [|fd rest IH]; intros s K R; subst R.
  { simpl. rewrite app_nil_r. split; [done|]. split.
    - intros fd H. by apply elem_of_nil in H.
    - repeat (split; [done|]). split; by left. }
  simpl. unfold bind.
  pose proof (subspace_turn fd s K) as Hturn.
  pose proof (subspace_decode_one fd s K) as Hone.
  destruct (SubspaceResponse.decode_one fd s K) as [s1 K1]. simpl in *.
  specialize (IH s1 K1). simpl in IH.
  destruct IH as (Ht & Hclosed & Hnone & Hframe & Hconn & Huser & Hpid).
  assert (Hu : CLONE_NEWUSER ∈ hierarchical_types) by (by left).
  assert (Hp : CLONE_NEWPID ∈ hierarchical_types) by (right; by left).
  split; [|split; [|split; [|split; [|split; [|split]]]]].
  - rewrite Ht, (turn_decode_events _ _ _ _ _ Hturn).
    unfold turn in Hturn. unfold decode_events at 2. simpl.
    destruct (wanted_type hierarchical_types K fd); destruct Hturn as [_ ->];
      by rewrite <- app_assoc.
  - intros x Hx Hw. apply elem_of_cons in Hx as [->|Hx].
    + apply Hnone. unfold turn in Hturn. rewrite Hw in Hturn.
      destruct Hturn as [-> _]. apply lookup_delete_eq.
    + apply Hclosed; [done|]. by rewrite (turn_wanted _ _ _ _ x Hturn).
  - intros x Hx. apply Hnone. unfold turn in Hturn.
    destruct (wanted_type hierarchical_types K fd); destruct Hturn as [-> _]; [done|].
    destruct (decide (x = fd)) as [->|?];
      [apply lookup_delete_eq|by rewrite lookup_delete_ne].
  - intros x Hx. apply not_elem_of_cons in Hx as [Hne Hx].
    rewrite Hframe by done. unfold turn in Hturn.
    destruct (wanted_type hierarchical_types K fd); destruct Hturn as [-> _]; [done|].
    by rewrite lookup_delete_ne.
  - rewrite Hconn. destruct (wanted_type hierarchical_types K fd).
    + by destruct Hone as [_ [[_ ->]|[_ ->]]].
    + by destruct Hone as [_ ->].
  - destruct Huser as [Heq|[Hin Hty]].
    + rewrite Heq. destruct (wanted_type hierarchical_types K fd).
      * destruct Hone as [_ [[Hty ->]|[_ ->]]]; simpl; [right|by left].
        split; [by left|done].
      * destruct Hone as [_ ->]. by left.
    + right. split; [by right|].
      by apply (turn_kernel_type _ _ _ _ _ _ Hturn Hu).
  - destruct Hpid as [Heq|[Hin Hty]].
    + rewrite Heq. destruct (wanted_type hierarchical_types K fd).
      * destruct Hone as [_ [[_ ->]|[Hty ->]]]; simpl; [by left|right].
        split; [by left|done].
      * destruct Hone as [_ ->]. by left.
    + right. split; [by right|].
      by apply (turn_kernel_type _ _ _ _ _ _ Hturn Hp).
Qed.

(** The first handle of a SubspaceResponse goes into [Conn] whatever it
    is: a network namespace handed over as the only handle is neither
    queried nor closed, though user and PID are the only wanted types. *)
Lemma subspace_first_handle_kept_unqueried :
  let K := holding 3 (NsObj CLONE_NEWNET 7) boot in
  ~ exists s' K',
      SubspaceResponse.DecodeFds [3] SubspaceResponse.zero K = (Returned s', K')
      /\ unwanted_closed hierarchical_types [3] K K'.
Proof.
  intros K (s' & K' & Hrun & Hclosed).
  injection Hrun as <- <-.
  specialize (Hclosed 3). discriminate Hclosed; [by left|by vm_compute].
Qed.

(** C4, as the code has it.  [RoomsResponse.DecodeFds] queries the type of
    every received handle, [SubspaceResponse.DecodeFds] that of every
    handle after the first of a non-empty list, the first going into
    [Conn] unqueried.  A queried handle whose type matches no wanted field
    is closed right after the query, no error is raised, and a field is
    either left as it was or holds a received handle of the field's own
    type. *)
Theorem decode_sorts_queried_handles :
  (forall fds s K,
      let R := RoomsResponse.DecodeFds fds s K in
      events_since K R.2 = decode_events flat_types K fds
      /\ unwanted_closed flat_types fds K R.2
      /\ forall f,
           RoomsResponse.get f R.1 = RoomsResponse.get f s
           \/ (RoomsResponse.get f R.1 ∈ fds
               /\ kernel_type K (RoomsResponse.get f R.1)
                  = Some (RoomsResponse.type_of f)))
  /\ (forall conn rest s K,
      exists s' K',
        SubspaceResponse.DecodeFds (conn :: rest) s K = (Returned s', K')
        /\ SubspaceResponse.Conn s' = conn
        /\ events_since K K' = decode_events hierarchical_types K rest
        /\ unwanted_closed hierarchical_types rest K K'
        /\ (SubspaceResponse.User s' = SubspaceResponse.User s
            \/ (SubspaceResponse.User s' ∈ rest
                /\ kernel_type K (SubspaceResponse.User s') = Some CLONE_NEWUSER))
        /\ (SubspaceResponse.PID s' = SubspaceResponse.PID s
            \/ (SubspaceResponse.PID s' ∈ rest
                /\ kernel_type K (SubspaceResponse.PID s') = Some CLONE_NEWPID))).
Proof.
  split.
  - intros fds s K R. subst R.
    destruct (rooms_decode_loop fds s K) as (Ht & Hclosed & _ & _ & _ & Hfields).
    split; [by apply events_since_app|]. split; [exact Hclosed|exact Hfields].
  - intros conn rest s K. unfold SubspaceResponse.DecodeFds, bind, ret.
    destruct (subspace_decode_loop rest
                (SubspaceResponse.mk conn (SubspaceResponse.User s)
                   (SubspaceResponse.PID s)) K)
      as (Ht & Hclosed & _ & _ & Hconn & Huser & Hpid).
    destruct (SubspaceResponse.decode_rest rest _ K) as [s' K']. simpl in *.
    exists s', K'. split; [done|]. split; [done|].
    split; [by apply events_since_app|]. done.
Qed.

(** C9. [SubspaceResponse.DecodeFds] on an empty handle list panics, the
    kernel state untouched, where [RoomsResponse.DecodeFds] returns the
    response as it was: decoding is not total on SubspaceResponse. *)
Theorem subspace_decode_empty_panics :
  (forall s K, exists msg,
      SubspaceResponse.DecodeFds [] s K = (Panicked msg, K))
  /\ (forall s K, RoomsResponse.DecodeFds [] s K = (s, K)).
Proof. split; [intros s K; by eexists|done]. Qed.

End DecodeFacts.

(** * The hierarchical path: [Subspace] *)
Module SubspaceFacts.
Import Unix Spacetest Api Service Props UnixFacts CallFacts RoomFacts.

Lemma Dup_spec fd K :
  trace (Dup fd K).2 = trace K ++ [EvDup fd].
Proof.
  unfold Dup, next_fault, install. simpl.
  destruct (faults K) as [|[e|] fs]; simpl; try done;
    by destruct (fdtab K !! fd).
Qed.

Lemma Socketpair_spec K :
  trace (Socketpair K).2 = trace K ++ [EvSocketpair].
Proof.
  unfold Socketpair, next_fault, install. simpl.
  destruct (faults K) as [|[e|] fs]; simpl; done.
Qed.

Lemma Start_spec exe flags extra K :
  trace (Start exe flags extra K).2 = trace K ++ [EvStart exe flags extra].
Proof.
  unfold Start, next_fault. simpl.
  destruct (faults K) as [|[e|] fs]; simpl; done.
Qed.

(** Only a close removes a descriptor, and a closed descriptor stays
    closed while nothing is opened. *)
Ltac tstep :=
  match goal with
  | H : context [Open ?p ?K] |- _ =>
      let Ht := fresh "Ht" in
      pose proof (proj1 (Open_spec p K)) as Ht;
      destruct (Open p K) as [[?|?] ?]
  | H : context [Dup ?fd ?K] |- _ =>
      let Ht := fresh "Ht" in
      pose proof (Dup_spec fd K) as Ht;
      destruct (Dup fd K) as [[?|?] ?]
  | H : context [Socketpair ?K] |- _ =>
      let Ht := fresh "Ht" in
      pose proof (Socketpair_spec K) as Ht;
      destruct (Socketpair K) as [[[? ?]|?] ?]
  | H : context [Start ?x ?f ?e ?K] |- _ =>
      let Ht := fresh "Ht" in
      pose proof (Start_spec x f e K) as Ht;
      destruct (Start x f e K) as [[?|?] ?]
  | H : context [Close ?fd ?K] |- _ =>
      let Ht := fresh "Ht" in let Hf := fresh "Hf" in
      pose proof (Close_spec fd K) as [Ht Hf];
      destruct (Close fd K) as [? ?]
  end; simpl in *.

(** C10. When a request for the PID namespace alone gets as far as
    opening the handle of the new PID namespace and that open fails,
    [Subspace] calls close on descriptor 0, the value of the user handle
    that was never opened, directly after the failed open; whatever
    descriptor 0 was, it is closed when [Subspace] returns. *)
Theorem Subspace_pid_failure_closes_descriptor_zero s req K e K' :
  SubspaceRequest.Spaces req = CLONE_NEWPID ->
  Subspace s req K
  = (Returned (ErrorResponse ("failed to determine new PID namespace, reason: " +:+ e)), K') ->
  (exists pid before after,
      events_since K K' = before ++ EvOpen (PidNs pid "pid") :: EvClose 0 :: after)
  /\ fdtab K' !! 0 = None.
Proof.
  destruct req as [sp]. simpl. intros -> Hrun.
  unfold Subspace in Hrun. simpl in Hrun.
  unfold bind, ret, Uds.NewPair, Uds.NewUnixConn, Uds.Close_conn, bind, ret in Hrun.
  repeat tstep; try discriminate.
  unfold Subspace_start, Uds.File, bind, ret in Hrun.
  repeat tstep; try discriminate.
  unfold Subspace_namespaces, bind, ret in Hrun. simpl in Hrun.
  repeat tstep; try discriminate.
  injection Hrun as _ <-. split.
  - rewrite Ht13, Ht12, Ht11, Ht10, Ht9, Ht8, Ht7, Ht6, Ht5, Ht4, Ht3, Ht2, Ht1, Ht0, Ht
      in Ht14.
    rewrite <- !app_assoc in Ht14. cbn [app] in Ht14.
    rewrite (events_since_app _ _ _ Ht14).
    eexists _, [_; _; _; _; _; _; _; _; _], _. reflexivity.
  - rewrite Hf6, Hf5, Hf4, Hf3, Hf2, Hf1.
    do 5 (apply lookup_delete_None; right). apply lookup_delete_eq.
Qed.

Lemma Subspace_pid_failure_closes_descriptor_zero_witness :
  let K := boot_refusing 7 "no such file or directory" in
  let K' := (Subspace (mkSpacemaker "") (SubspaceRequest.mk CLONE_NEWPID) K).2 in
  (exists pid before after,
      events_since K K' = before ++ EvOpen (PidNs pid "pid") :: EvClose 0 :: after)
  /\ fdtab K' !! 0 = None.
Proof.
  intros K K'.
  apply (Subspace_pid_failure_closes_descriptor_zero
           (mkSpacemaker "") (SubspaceRequest.mk CLONE_NEWPID) K
           "no such file or directory" K').
  - reflexivity.
  - transitivity
      ((Subspace (mkSpacemaker "") (SubspaceRequest.mk CLONE_NEWPID) K).1,
       (Subspace (mkSpacemaker "") (SubspaceRequest.mk CLONE_NEWPID) K).2).
    + by destruct (Subspace (mkSpacemaker "") (SubspaceRequest.mk CLONE_NEWPID) K).
    + reflexivity.
Defined.

End SubspaceFacts.

(** * Thread-pinned execution: [goInAndOut] *)
Module ExecuteFacts.
Import Unix Spacetest Api Service Props UnixFacts CallFacts RoomFacts.

Lemma Setns_locked fd nstype K : locked (Setns fd nstype K).2 = locked K.
Proof. unfold Setns, next_fault. simpl. crush_call; done. Qed.

(** The restoring loop either goes through the whole list, or stops at the
    first descriptor whose setns fails. *)
Lemma restore_spec nsfds : forall K,
  let R := restore nsfds K in
  fdtab R.2 = fdtab K /\ locked R.2 = locked K /\
  ((R.1 = Returned tt /\ trace R.2 = trace K ++ restore_events nsfds)
   \/ (exists before fd after,
         nsfds = before ++ fd :: after
         /\ trace R.2 = trace K ++ restore_events (before ++ [fd]) ++ [EvNsType fd]
         /\ R.1 = Panicked (match kernel_type K fd with
                            | Some typ => "cannot restore " +:+ Name typ +:+ " namespace"
                            | None => "cannot determine type of namespace"
                            end))).
Proof.
  induction nsfds as [|fd rest IH]; intros K R; subst R.
  { simpl. split; [done|]. split; [done|]. left. by rewrite app_nil_r. }
  simpl. unfold bind.
  pose proof (Setns_spec fd 0 K) as [Ht Hf].
  pose proof (Setns_locked fd 0 K) as Hl.
  destruct (Setns fd 0 K) as [[[]|e] K1]; simpl in *.
  - specialize (IH K1). simpl in IH. destruct IH as (Hf' & Hl' & IH).
    split; [congruence|]. split; [congruence|].
    destruct IH as [[HR Htr]|(before & fd' & after & -> & Htr & HR)].
    + left. split; [done|]. rewrite Htr, Ht. by rewrite <- app_assoc.
    + right. exists (fd :: before), fd', after. split; [done|]. split.
      * rewrite Htr, Ht. by rewrite <- !app_assoc.
      * rewrite HR. unfold kernel_type. by rewrite Hf.
  - unfold Type_fd, bind, ret.
    pose proof (IoctlRetInt_NSTYPE_spec fd K1) as [HK Hr].
    destruct (IoctlRetInt_NSTYPE fd K1) as [r K2]. simpl in *. subst K2 r.
    assert (Hkt : kernel_type K1 fd = kernel_type K fd).
    { unfold kernel_type. by rewrite Hf. }
    rewrite Hkt.
    split; [by destruct (kernel_type K fd)|]. split; [by destruct (kernel_type K fd)|].
    right. exists [], fd, rest. split; [done|].
    destruct (kernel_type K fd); simpl; rewrite Ht, <- app_assoc; done.
Qed.

(** C6. In [goInAndOut], once the namespaces have been attached and the
    caller logic has returned, the recorded original namespaces are
    restored by setns in exactly the reverse order of attachment.  Either
    every restoration succeeds, and then, and only then, the thread is
    unlocked; or the first failing restoration aborts with the diagnostic
    "cannot restore <type> namespace", no later restoration is attempted
    and the thread stays locked.  The recorded descriptors are those the
    primitive opened itself; they are taken to be still open. *)
Theorem goInAndOut_restores_in_reverse fn nsfds K recorded K1 K2 :
  attach nsfds [] (LockOSThread K).2 = ((recorded, Returned tt), K1) ->
  fn K1 = (Returned tt, K2) ->
  Forall (fun fd => is_Some (kernel_type K2 fd)) recorded ->
  let R := goInAndOut fn nsfds K in
  (R.1 = Returned tt
   /\ events_since K2 R.2 = restore_events (rev recorded) ++ [EvUnlockOSThread]
   /\ locked R.2 = pred (locked K2))
  \/ (exists before fd after typ,
        rev recorded = before ++ fd :: after
        /\ kernel_type K2 fd = Some typ
        /\ R.1 = Panicked ("cannot restore " +:+ Name typ +:+ " namespace")
        /\ events_since K2 R.2 = restore_events (before ++ [fd]) ++ [EvNsType fd]
        /\ locked R.2 = locked K2).
Proof.
  intros Hattach Hfn Hopen R. subst R.
  unfold goInAndOut, bind. destruct (LockOSThread K) as [[] K0]. simpl in Hattach.
  rewrite Hattach. simpl. rewrite Hfn. unfold deferred, bind, ret.
  pose proof (restore_spec (rev recorded) K2) as (Hf & Hl & Hcases).
  destruct (restore (rev recorded) K2) as [o K3]. simpl in *.
  destruct Hcases as [[-> Htr]|(before & fd & after & Hrev & Htr & ->)].
  - left. unfold UnlockOSThread. simpl. split; [done|]. split.
    + apply events_since_app. simpl. by rewrite Htr, <- app_assoc.
    + by rewrite Hl.
  - right.
    assert (Hin : fd ∈ recorded).
    { apply list_elem_of_In, in_rev. rewrite Hrev. apply in_or_app. right. by left. }
    rewrite Forall_forall in Hopen. destruct (Hopen fd Hin) as [typ Hty].
    exists before, fd, after, typ. rewrite Hty. simpl.
    split; [done|]. split; [done|]. split; [done|].
    split; [by apply events_since_app|done].
Qed.

Lemma goInAndOut_restores_in_reverse_witness :
  let K := set_faults [None; None; None; None; None; Some "operation not permitted"]
             (holding 4 (NsObj CLONE_NEWUTS 8) (holding 3 (NsObj CLONE_NEWNET 7) boot)) in
  let fn : M (Outcome unit) := ret (Returned tt) in
  let K1 := (attach [3; 4] [] (LockOSThread K).2).2 in
  let R := goInAndOut fn [3; 4] K in
  (R.1 = Returned tt
   /\ events_since K1 R.2 = restore_events (rev [5; 6]) ++ [EvUnlockOSThread]
   /\ locked R.2 = pred (locked K1))
  \/ (exists before fd after typ,
        rev [5; 6] = before ++ fd :: after
        /\ kernel_type K1 fd = Some typ
        /\ R.1 = Panicked ("cannot restore " +:+ Name typ +:+ " namespace")
        /\ events_since K1 R.2 = restore_events (before ++ [fd]) ++ [EvNsType fd]
        /\ locked R.2 = locked K1).
Proof.
  intros K fn K1 R.
  apply (goInAndOut_restores_in_reverse fn [3; 4] K [5; 6] K1 K1).
  - vm_compute. reflexivity.
  - reflexivity.
  - repeat constructor; by eexists.
Defined.

(** The run of the witness above ends in the abort that names the net
    namespace, after the UTS namespace had been restored. *)
Example goInAndOut_restore_failure_run :
  let K := set_faults [None; None; None; None; None; Some "operation not permitted"]
             (holding 4 (NsObj CLONE_NEWUTS 8) (holding 3 (NsObj CLONE_NEWNET 7) boot)) in
  let R := goInAndOut (ret (Returned tt)) [3; 4] K in
  R.1 = Panicked "cannot restore net namespace"
  /\ events_since (attach [3; 4] [] (LockOSThread K).2).2 R.2
     = [EvSetns 6 0; EvSetns 5 0; EvNsType 5]
  /\ locked R.2 = 1%nat.
Proof. repeat split; by vm_compute. Qed.

End ExecuteFacts.

(** * Answering a request: [Serve] *)
Module ServeFacts.
Import Unix Spacetest Api Service Props UnixFacts CallFacts RoomFacts.

Lemma close_all_trace fds : forall K,
  trace (close_all fds K).2 = trace K ++ map EvClose fds.
Proof.
  induction fds as [|fd rest IH]; intros K; simpl.
  { by rewrite app_nil_r. }
  unfold bind. pose proof (Close_spec fd K) as [Ht _].
  destruct (Close fd K) as [r K1]. simpl in *. rewrite IH, Ht.
  by rewrite <- app_assoc.
Qed.

(** C5, on the answering side.  [Serve] encodes the response before it
    calls [EncodeFds]: the bytes it sends are those of the response with
    every handle still in its field, so a decoder that inverts the encoder
    gets the response back with the handles in-band, while the same
    handles travel in the auxiliary set. *)
Theorem Serve_encodes_before_borrowing {Bytes : Type}
    (gob_encode : Response -> Result Bytes) (gob_decode : Bytes -> Result Response)
    resp K msg fds K' :
  (forall v b, gob_encode v = Ok b -> gob_decode b = Ok v) ->
  Serve_reply gob_encode resp K = (Some (msg, fds), K') ->
  gob_decode msg = Ok resp
  /\ fds = (EncodeFds resp).1
  /\ events_since K K' = EvSendmsg fds :: map EvClose fds.
Proof.
  intros Hinv Hrun. unfold Serve_reply in Hrun.
  destruct (gob_encode resp) as [b|e] eqn:Henc; [|discriminate].
  destruct (EncodeFds resp) as [fds' resp'] eqn:Hfds.
  unfold bind, ret, Sendmsg, next_fault in Hrun. simpl in Hrun.
  pose proof (close_all_trace fds') as Hcl.
  destruct (faults K) as [|[e|] fs]; simpl in Hrun.
  - specialize (Hcl (emit (EvSendmsg fds') K)).
    destruct (close_all fds' (emit (EvSendmsg fds') K)) as [[] K1].
    injection Hrun as <- <- <-. split; [by apply Hinv|]. split; [done|].
    apply events_since_app. simpl in Hcl. by rewrite Hcl, <- app_assoc.
  - specialize (Hcl (set_faults fs (emit (EvSendmsg fds') K))).
    destruct (close_all fds' (set_faults fs (emit (EvSendmsg fds') K))) as [[] K1].
    discriminate.
  - specialize (Hcl (set_faults fs (emit (EvSendmsg fds') K))).
    destruct (close_all fds' (set_faults fs (emit (EvSendmsg fds') K))) as [[] K1].
    injection Hrun as <- <- <-. split; [by apply Hinv|]. split; [done|].
    apply events_since_app. simpl in Hcl. by rewrite Hcl, <- app_assoc.
Qed.

Lemma Serve_encodes_before_borrowing_witness :
  let resp := RoomsResp (RoomsResponse.mk 0 0 0 7 0 0) in
  let K := holding 7 (NsObj CLONE_NEWNET 1) boot in
  let K' := (Serve_reply (Bytes := Response) Ok resp K).2 in
  Ok (A := Response) resp
  = Ok (RoomsResp (RoomsResponse.mk 0 0 0 7 0 0))
  /\ [7] = (EncodeFds resp).1
  /\ events_since K K' = [EvSendmsg [7]; EvClose 7].
Proof.
  intros resp K K'.
  apply (Serve_encodes_before_borrowing (Bytes := Response) Ok Ok resp K resp [7] K').
  - intros v b Hv. injection Hv as ->. reflexivity.
  - vm_compute. reflexivity.
Defined.

End ServeFacts.

(** * Handles in transit: [EncodeFds] and [DecodeFds] *)
Module ApiFacts.
Import Unix Spacetest Api Service Props UnixFacts CallFacts ValidationFacts RoomFacts DecodeFacts.

Lemma borrow_spec acc v :
  borrow acc v = (acc ++ (if 0 <? v then [v] else []), if 0 <? v then 0 else v).
Proof.
  unfold borrow. destruct (Z.leb_spec v 0).
  - rewrite (proj2 (Z.ltb_ge 0 v)) by lia. by rewrite app_nil_r.
  - by rewrite (proj2 (Z.ltb_lt 0 v)) by lia.
Qed.

Lemma record_ext (a b : RoomsResponse.t) :
  (forall f, RoomsResponse.get f a = RoomsResponse.get f b) -> a = b.
Proof.
  intros H. destruct a, b.
  pose proof (H RoomsResponse.FCgroup). pose proof (H RoomsResponse.FIPC).
  pose proof (H RoomsResponse.FMnt). pose proof (H RoomsResponse.FNet).
  pose proof (H RoomsResponse.FTime). pose proof (H RoomsResponse.FUTS).
  simpl in *. congruence.
Qed.

(** Borrowing a list of distinct fields. *)
Lemma borrow_fields_spec fs : NoDup fs -> forall acc,
  let R := foldl (fun acc f => RoomsResponse.borrow_field f acc) acc fs in
  R.1 = acc.1 ++ filter (fun v => 0 < v) (map (fun f => RoomsResponse.get f acc.2) fs)
  /\ forall f, RoomsResponse.get f R.2
               = if bool_decide (f ∈ fs) && (0 <? RoomsResponse.get f acc.2) then 0
                 else RoomsResponse.get f acc.2.
Proof.
  induction 1 as [|g fs Hg Hnd IH]; intros acc R; subst R.
  { simpl. rewrite app_nil_r. split; [done|]. intros f. done. }
  simpl. specialize (IH (RoomsResponse.borrow_field g acc)). simpl in IH.
  destruct IH as [IH1 IH2].
  unfold RoomsResponse.borrow_field in *. rewrite borrow_spec in *. simpl in *.
  assert (Hother : forall f, f <> g ->
            RoomsResponse.get f (RoomsResponse.set g
               (if 0 <? RoomsResponse.get g acc.2 then 0 else RoomsResponse.get g acc.2) acc.2)
            = RoomsResponse.get f acc.2).
  { intros f Hne. by rewrite get_set_ne. }
  split.
  - rewrite IH1. rewrite <- app_assoc. f_equal.
    rewrite filter_cons.
    assert (Hm : map (fun f => RoomsResponse.get f (RoomsResponse.set g
               (if 0 <? RoomsResponse.get g acc.2 then 0 else RoomsResponse.get g acc.2) acc.2)) fs
                 = map (fun f => RoomsResponse.get f acc.2) fs).
    { apply map_ext_in. intros f Hf. apply Hother. intros ->.
      by apply Hg, list_elem_of_In. }
    rewrite Hm.
    destruct (Z.ltb_spec 0 (RoomsResponse.get g acc.2)).
    + by rewrite decide_True.
    + by rewrite decide_False by lia.
  - intros f. rewrite IH2. destruct (decide (f = g)) as [->|Hne].
    + rewrite get_set_eq. rewrite (bool_decide_eq_false_2 (g ∈ fs)) by done.
      rewrite (bool_decide_eq_true_2 (g ∈ g :: fs)) by (by left). simpl.
      by destruct (0 <? RoomsResponse.get g acc.2).
    + rewrite Hother by done.
      assert (Hiff : bool_decide (f ∈ fs) = bool_decide (f ∈ g :: fs)).
      { apply bool_decide_ext. rewrite elem_of_cons. tauto. }
      by rewrite Hiff.
Qed.

Lemma all_fields f : f ∈ RoomsResponse.fields.
Proof. destruct f; unfold RoomsResponse.fields; repeat (first [by left | right]). Qed.

Lemma rooms_EncodeFds_spec r :
  (RoomsResponse.EncodeFds r).1
  = filter (fun v => 0 < v) (map (fun f => RoomsResponse.get f r) RoomsResponse.fields)
  /\ (forall f, RoomsResponse.get f (RoomsResponse.EncodeFds r).2
                = if 0 <? RoomsResponse.get f r then 0 else RoomsResponse.get f r).
Proof.
  pose proof (borrow_fields_spec RoomsResponse.fields fields_NoDup ([], r)) as [H1 H2].
  change (foldl (fun acc f => RoomsResponse.borrow_field f acc) ([], r) RoomsResponse.fields)
    with (RoomsResponse.EncodeFds r) in *.
  simpl in *. split; [done|].
  intros f. rewrite H2. by rewrite (bool_decide_eq_true_2 _ (all_fields f)).
Qed.

Lemma rooms_EncodeFds_nonpositive r f :
  RoomsResponse.get f (RoomsResponse.EncodeFds r).2 <= 0.
Proof.
  rewrite (proj2 (rooms_EncodeFds_spec r)).
  destruct (Z.ltb_spec 0 (RoomsResponse.get f r)); lia.
Qed.

(** X1. [RoomsResponse.EncodeFds] returns the positive fields, in the
    order Cgroup, IPC, Mnt, Net, Time, UTS; it zeroes exactly those fields
    and leaves the others as they were, so that no field is positive
    afterwards. *)
Theorem rooms_EncodeFds_moves_positive_fields r :
  (RoomsResponse.EncodeFds r).1
  = filter (fun v => 0 < v) (map (fun f => RoomsResponse.get f r) RoomsResponse.fields)
  /\ (forall f, RoomsResponse.get f (RoomsResponse.EncodeFds r).2
                = if 0 <? RoomsResponse.get f r then 0 else RoomsResponse.get f r)
  /\ (forall f, RoomsResponse.get f (RoomsResponse.EncodeFds r).2 <= 0).
Proof.
  destruct (rooms_EncodeFds_spec r) as [H1 H2]. split; [done|]. split; [done|].
  apply rooms_EncodeFds_nonpositive.
Qed.

Lemma filter_none (l : list Z) :
  Forall (fun v => ~ 0 < v) l -> filter (fun v => 0 < v) l = [].
Proof.
  induction 1 as [|v l Hv _ IH]; [done|]. rewrite filter_cons, decide_False by done. done.
Qed.

Lemma subspace_EncodeFds_spec s :
  let vals := [SubspaceResponse.Conn s; SubspaceResponse.User s; SubspaceResponse.PID s] in
  let zeroed v := if 0 <? v then 0 else v in
  (SubspaceResponse.EncodeFds s).1 = filter (fun v => 0 < v) vals
  /\ (SubspaceResponse.EncodeFds s).2
     = SubspaceResponse.mk (zeroed (SubspaceResponse.Conn s))
         (zeroed (SubspaceResponse.User s)) (zeroed (SubspaceResponse.PID s)).
Proof.
  destruct s as [c u p]. unfold SubspaceResponse.EncodeFds. cbn [SubspaceResponse.Conn
    SubspaceResponse.User SubspaceResponse.PID].
  rewrite !borrow_spec. rewrite !filter_cons, filter_nil.
  destruct (Z.ltb_spec 0 c), (Z.ltb_spec 0 u), (Z.ltb_spec 0 p);
    repeat (first [rewrite decide_True by lia | rewrite decide_False by lia]); done.
Qed.

(** X2. [SubspaceResponse.EncodeFds] returns the positive ones of Conn,
    User and PID, in this order, and zeroes exactly those; no field is
    positive afterwards. *)
Theorem subspace_EncodeFds_moves_positive_fields s :
  let vals := [SubspaceResponse.Conn s; SubspaceResponse.User s; SubspaceResponse.PID s] in
  let zeroed v := if 0 <? v then 0 else v in
  let s' := (SubspaceResponse.EncodeFds s).2 in
  (SubspaceResponse.EncodeFds s).1 = filter (fun v => 0 < v) vals
  /\ s' = SubspaceResponse.mk (zeroed (SubspaceResponse.Conn s))
            (zeroed (SubspaceResponse.User s)) (zeroed (SubspaceResponse.PID s))
  /\ Forall (fun v => v <= 0)
        [SubspaceResponse.Conn s'; SubspaceResponse.User s'; SubspaceResponse.PID s'].
Proof.
  intros vals zeroed s'. destruct (subspace_EncodeFds_spec s) as [H1 H2].
  split; [done|]. split; [done|]. subst s'. rewrite H2.
  cbn [SubspaceResponse.Conn SubspaceResponse.User SubspaceResponse.PID].
  repeat constructor;
    match goal with |- (if 0 <? ?v then _ else _) <= 0 => destruct (Z.ltb_spec 0 v); lia end.
Qed.

(** X3. Borrowing the handles of a response a second time yields none
    and changes nothing: after [EncodeFds] a response holds no handle in
    any field, whatever kind of response it is. *)
Theorem EncodeFds_idempotent resp :
  EncodeFds (EncodeFds resp).2 = ([], (EncodeFds resp).2).
Proof.
  destruct resp as [reason|s|r]; [done| |].
  - unfold EncodeFds.
    pose proof (subspace_EncodeFds_spec s) as [_ H2].
    destruct (SubspaceResponse.EncodeFds s) as [fds s']. simpl in *. subst s'.
    pose proof (subspace_EncodeFds_spec
                  (SubspaceResponse.mk
                     (if 0 <? SubspaceResponse.Conn s then 0 else SubspaceResponse.Conn s)
                     (if 0 <? SubspaceResponse.User s then 0 else SubspaceResponse.User s)
                     (if 0 <? SubspaceResponse.PID s then 0 else SubspaceResponse.PID s)))
      as [H1 H2].
    destruct (SubspaceResponse.EncodeFds _) as [fds' s']. simpl in *. subst fds' s'.
    rewrite !filter_cons, filter_nil.
    destruct (Z.ltb_spec 0 (SubspaceResponse.Conn s)),
      (Z.ltb_spec 0 (SubspaceResponse.User s)), (Z.ltb_spec 0 (SubspaceResponse.PID s));
      repeat (first [rewrite decide_True by lia | rewrite decide_False by lia]);
      repeat (first [rewrite (proj2 (Z.ltb_ge 0 _)) by lia]); done.
  - unfold EncodeFds.
    pose proof (rooms_EncodeFds_nonpositive r) as Hle.
    destruct (RoomsResponse.EncodeFds r) as [fds r']. cbn [fst snd] in *.
    pose proof (rooms_EncodeFds_spec r') as (H1 & H2).
    destruct (RoomsResponse.EncodeFds r') as [fds' r'']. cbn [fst snd] in *.
    f_equal.
    + rewrite H1. apply filter_none. apply Forall_forall. intros v Hv.
      apply list_elem_of_fmap in Hv as (f & -> & _). specialize (Hle f). lia.
    + f_equal. apply record_ext. intros f. rewrite H2. specialize (Hle f).
      by rewrite (proj2 (Z.ltb_ge 0 _)) by lia.
Qed.

Lemma last_cons_default {A} (d x : A) l : default d (last (x :: l)) = default x (last l).
Proof. rewrite last_cons. by destruct (last l). Qed.

(** The field of a type after decoding. *)
Lemma rooms_DecodeFds_get fds : forall s K f,
  RoomsResponse.get f (RoomsResponse.DecodeFds fds s K).1
  = default (RoomsResponse.get f s)
      (last (filter (fun fd => kernel_type K fd = Some (RoomsResponse.type_of f)) fds)).
Proof.
  induction fds as [|fd rest IH]; intros s K f; [done|].
  simpl. unfold bind.
  pose proof (rooms_turn fd s K) as Hturn.
  pose proof (rooms_decode_one fd s K) as Hone.
  destruct (RoomsResponse.decode_one fd s K) as [s1 K1]. simpl in *.
  rewrite IH.
  rewrite (list_filter_iff _ (fun x => kernel_type K x = Some (RoomsResponse.type_of f)))
    by (intros x; apply (turn_kernel_type _ _ _ _ _ _ Hturn (type_of_flat f))).
  rewrite filter_cons.
  destruct (wanted_type flat_types K fd) eqn:Hw.
  - destruct Hone as (_ & f0 & Hty & ->).
    destruct (decide (f0 = f)) as [->|Hne].
    + rewrite decide_True by done. rewrite last_cons_default. by rewrite get_set_eq.
    + rewrite get_set_ne by done. rewrite decide_False; [done|].
      rewrite Hty. intros Heq. injection Heq as Heq. by apply type_of_inj in Heq.
  - destruct Hone as [_ ->]. rewrite decide_False; [done|].
    intros Heq. unfold wanted_type in Hw. rewrite Heq in Hw.
    apply bool_decide_eq_false in Hw. apply Hw, type_of_flat.
Qed.

(** Received handles of a wanted type are never closed by decoding,
    whether or not they end up in a field. *)
Lemma rooms_DecodeFds_keeps_wanted fds s K fd :
  wanted_type flat_types K fd = true ->
  fdtab (RoomsResponse.DecodeFds fds s K).2 !! fd = fdtab K !! fd.
Proof.
  intros Hw. destruct (rooms_decode_loop fds s K) as (_ & _ & Hkept & _). by apply Hkept.
Qed.

(** X7. After [RoomsResponse.DecodeFds] each field holds the last of the
    received handles whose kernel type is the field's, or its former value
    when no such handle was received; and no handle of one of the six flat
    types is closed. *)
Theorem rooms_DecodeFds_last_of_type_wins fds s K :
  let R := RoomsResponse.DecodeFds fds s K in
  (forall f, RoomsResponse.get f R.1
             = default (RoomsResponse.get f s)
                 (last (filter (fun fd => kernel_type K fd = Some (RoomsResponse.type_of f))
                               fds)))
  /\ (forall fd, wanted_type flat_types K fd = true -> fdtab R.2 !! fd = fdtab K !! fd).
Proof.
  split; [intros f; apply rooms_DecodeFds_get|].
  intros fd. apply rooms_DecodeFds_keeps_wanted.
Qed.

(** X8. A received handle of a flat type that is not the last of its
    type among the received ones ends up in no field of the response, yet
    it is not closed: decoding leaves it open in the receiving process. *)
Theorem rooms_DecodeFds_shadowed_handle_leaks fds s K fd f :
  kernel_type K fd = Some (RoomsResponse.type_of f) ->
  last (filter (fun x => kernel_type K x = Some (RoomsResponse.type_of f)) fds) <> Some fd ->
  (forall g, RoomsResponse.get g s <> fd) ->
  let R := RoomsResponse.DecodeFds fds s K in
  (forall g, RoomsResponse.get g R.1 <> fd)
  /\ fdtab R.2 !! fd = fdtab K !! fd
  /\ EvClose fd ∉ events_since K R.2.
Proof.
  intros Hty Hlast Hs R. subst R.
  assert (Hw : wanted_type flat_types K fd = true).
  { unfold wanted_type. rewrite Hty. apply bool_decide_eq_true, type_of_flat. }
  split; [|split].
  - intros g Hg. rewrite rooms_DecodeFds_get in Hg.
    destruct (last (filter (fun x => kernel_type K x = Some (RoomsResponse.type_of g)) fds))
      as [x|] eqn:El; simpl in Hg; [|by apply (Hs g)].
    subst x. pose proof El as Hin. apply last_Some_elem_of, list_elem_of_filter in Hin as [Hk _].
    rewrite Hty in Hk. injection Hk as Hk. apply type_of_inj in Hk. subst g. done.
  - by apply rooms_DecodeFds_keeps_wanted.
  - destruct (rooms_decode_loop fds s K) as (Hev & _).
    rewrite (events_since_app _ _ _ Hev). clear -Hw.
    unfold decode_events. intros Hin. apply list_elem_of_In, in_flat_map in Hin as (x & _ & Hx).
    destruct (wanted_type flat_types K x) eqn:Ex.
    + destruct Hx as [Hx|[]]. discriminate.
    + destruct Hx as [Hx|[Hx|[]]]; [discriminate|]. injection Hx as ->. congruence.
Qed.

Lemma typed_handles_of_field r K f fs :
  (forall g, 0 < RoomsResponse.get g r ->
             kernel_type K (RoomsResponse.get g r) = Some (RoomsResponse.type_of g)) ->
  NoDup fs ->
  filter (fun fd => kernel_type K fd = Some (RoomsResponse.type_of f))
    (filter (fun v => 0 < v) (map (fun g => RoomsResponse.get g r) fs))
  = if bool_decide (f ∈ fs) && (0 <? RoomsResponse.get f r)
    then [RoomsResponse.get f r] else [].
Proof.
  intros Hty. induction 1 as [|g fs Hg Hnd IH].
  { by rewrite bool_decide_eq_false_2 by apply not_elem_of_nil. }
  cbn [map]. rewrite filter_cons.
  assert (Hin : bool_decide (f ∈ g :: fs)
                = bool_decide (f = g) || bool_decide (f ∈ fs)).
  { destruct (decide (f = g)) as [->|Hne].
    - rewrite (bool_decide_eq_true_2 (g = g)) by done.
      by rewrite bool_decide_eq_true_2 by (by left).
    - rewrite (bool_decide_eq_false_2 (f = g)) by done. simpl.
      apply bool_decide_ext. rewrite elem_of_cons. tauto. }
  rewrite Hin.
  destruct (decide (0 < RoomsResponse.get g r)) as [Hpos|Hnpos].
  - rewrite filter_cons, IH, (Hty g Hpos).
    destruct (decide (f = g)) as [->|Hne].
    + rewrite decide_True by done.
      rewrite (bool_decide_eq_true_2 (g = g)) by done.
      rewrite (bool_decide_eq_false_2 (g ∈ fs)) by done. simpl.
      by rewrite (proj2 (Z.ltb_lt 0 _)) by done.
    + rewrite decide_False.
      2:{ intros Heq. injection Heq as Heq. apply type_of_inj in Heq. by subst. }
      by rewrite (bool_decide_eq_false_2 (f = g)) by done.
  - rewrite IH. destruct (decide (f = g)) as [->|Hne].
    + rewrite (proj2 (Z.ltb_ge 0 _)) by lia. by rewrite !andb_false_r.

    + by rewrite (bool_decide_eq_false_2 (f = g)) by done.
Qed.

(** X4. Decoding what [RoomsResponse.EncodeFds] produced restores the
    response: when every positive field holds a namespace handle of the
    type of its field, [DecodeFds] applied to the borrowed handles and the
    zeroed response gives the original response back, closes nothing and
    queries each handle once, in order. *)
Theorem rooms_EncodeFds_DecodeFds_round_trip r K :
  (forall f, 0 < RoomsResponse.get f r ->
             kernel_type K (RoomsResponse.get f r) = Some (RoomsResponse.type_of f)) ->
  let E := RoomsResponse.EncodeFds r in
  let R := RoomsResponse.DecodeFds E.1 E.2 K in
  R.1 = r /\ fdtab R.2 = fdtab K /\ events_since K R.2 = map EvNsType E.1.
Proof.
  intros Hty E R. subst E R.
  pose proof (rooms_EncodeFds_spec r) as (H1 & H2).
  destruct (RoomsResponse.EncodeFds r) as [fds r']. cbn [fst snd] in *.
  assert (Hwanted : forall fd, fd ∈ fds -> wanted_type flat_types K fd = true).
  { intros fd Hfd. rewrite H1 in Hfd. apply list_elem_of_filter in Hfd as [Hpos Hfd].
    apply list_elem_of_fmap in Hfd as (f & -> & _).
    unfold wanted_type. rewrite (Hty f Hpos). apply bool_decide_eq_true, type_of_flat. }
  destruct (rooms_decode_loop fds r' K) as (Hev & _ & Hkept & _ & Hframe & _).
  split; [|split].
  - apply record_ext. intros f. rewrite rooms_DecodeFds_get.
    rewrite H1, (typed_handles_of_field r K f _ Hty fields_NoDup), H2.
    rewrite (bool_decide_eq_true_2 _ (all_fields f)). simpl.
    by destruct (0 <? RoomsResponse.get f r).
  - apply map_eq. intros fd. destruct (decide (fd ∈ fds)) as [Hin|Hout].
    + by apply Hkept, Hwanted.
    + by apply Hframe.
  - rewrite (events_since_app _ _ _ Hev). clear -Hwanted.
    unfold decode_events. induction fds as [|fd fds IH]; [done|].
    simpl. rewrite Hwanted by (by left). simpl. f_equal. apply IH.
    intros x Hx. apply Hwanted. by right.
Qed.

Lemma subspace_decode_user fd s K :
  kernel_type K fd = Some CLONE_NEWUSER ->
  SubspaceResponse.decode_one fd s K
  = (SubspaceResponse.mk (SubspaceResponse.Conn s) fd (SubspaceResponse.PID s),
     emit (EvNsType fd) K).
Proof.
  intros Hty. unfold SubspaceResponse.decode_one, bind, ret.
  pose proof (IoctlRetInt_NSTYPE_spec fd K) as [HK Hr].
  destruct (IoctlRetInt_NSTYPE fd K) as [r K1]. cbn [fst snd] in *. subst K1.
  rewrite Hty in Hr. by subst r.
Qed.

Lemma subspace_decode_pid fd s K :
  kernel_type K fd = Some CLONE_NEWPID ->
  SubspaceResponse.decode_one fd s K
  = (SubspaceResponse.mk (SubspaceResponse.Conn s) (SubspaceResponse.User s) fd,
     emit (EvNsType fd) K).
Proof.
  intros Hty. unfold SubspaceResponse.decode_one, bind, ret.
  pose proof (IoctlRetInt_NSTYPE_spec fd K) as [HK Hr].
  destruct (IoctlRetInt_NSTYPE fd K) as [r K1]. cbn [fst snd] in *. subst K1.
  rewrite Hty in Hr. by subst r.
Qed.

Lemma events_since_emit K es :
  events_since K (foldl (fun K e => emit e K) K es) = es.
Proof.
  assert (H : trace (foldl (fun K e => emit e K) K es) = trace K ++ es).
  { revert K. induction es as [|e es IH]; intros K; simpl.
    - by rewrite app_nil_r.
    - rewrite IH. simpl. by rewrite <- app_assoc. }
  by apply events_since_app.
Qed.

(** X5. Decoding what [SubspaceResponse.EncodeFds] produced restores the
    response when the connection handle is positive and the user and PID
    handles, where positive, are namespaces of these types; the connection
    handle is never queried. *)
Theorem subspace_EncodeFds_DecodeFds_round_trip s K :
  0 < SubspaceResponse.Conn s ->
  (0 < SubspaceResponse.User s ->
   kernel_type K (SubspaceResponse.User s) = Some CLONE_NEWUSER) ->
  (0 < SubspaceResponse.PID s ->
   kernel_type K (SubspaceResponse.PID s) = Some CLONE_NEWPID) ->
  let E := SubspaceResponse.EncodeFds s in
  let R := SubspaceResponse.DecodeFds E.1 E.2 K in
  R.1 = Returned s /\ fdtab R.2 = fdtab K
  /\ events_since K R.2 = map EvNsType (tail E.1).
Proof.
  intros Hc Hu Hp E R. subst E R.
  pose proof (subspace_EncodeFds_spec s) as [H1 H2].
  destruct (SubspaceResponse.EncodeFds s) as [fds s0]. cbn [fst snd] in *.
  subst fds s0. destruct s as [c u p].
  cbn [SubspaceResponse.Conn SubspaceResponse.User SubspaceResponse.PID] in *.
  rewrite !filter_cons, filter_nil. rewrite decide_True by done.
  rewrite (proj2 (Z.ltb_lt 0 c)) by done.
  destruct (0 <? u) eqn:Eu; destruct (0 <? p) eqn:Ep;
    [rewrite !decide_True by (by apply Z.ltb_lt)
    |rewrite decide_True, decide_False by (first [by apply Z.ltb_lt|by apply Z.nlt_ge, Z.ltb_ge])
    |rewrite decide_False, decide_True by (first [by apply Z.ltb_lt|by apply Z.nlt_ge, Z.ltb_ge])
    |rewrite !decide_False by (by apply Z.nlt_ge, Z.ltb_ge)];
    cbn [app fst snd tail map];
    unfold SubspaceResponse.DecodeFds, SubspaceResponse.decode_rest, bind, ret;
    cbn [SubspaceResponse.User SubspaceResponse.PID].
  - apply Z.ltb_lt in Eu, Ep.
    rewrite (subspace_decode_user u _ K (Hu Eu)).
    rewrite (subspace_decode_pid p _ (emit (EvNsType u) K)) by (by apply Hp).
    cbn [fst snd SubspaceResponse.Conn SubspaceResponse.User SubspaceResponse.PID].
    split; [done|]. split; [done|].
    apply (events_since_emit K [EvNsType u; EvNsType p]).
  - apply Z.ltb_lt in Eu.
    rewrite (subspace_decode_user u _ K (Hu Eu)).
    cbn [fst snd SubspaceResponse.Conn SubspaceResponse.User SubspaceResponse.PID].
    split; [done|]. split; [done|].
    apply (events_since_emit K [EvNsType u]).
  - apply Z.ltb_lt in Ep.
    rewrite (subspace_decode_pid p _ K (Hp Ep)).
    cbn [fst snd SubspaceResponse.Conn SubspaceResponse.User SubspaceResponse.PID].
    split; [done|]. split; [done|].
    apply (events_since_emit K [EvNsType p]).
  - cbn [fst snd]. split; [done|]. split; [done|].
    apply (events_since_emit K []).
Qed.

(** X6. The decoder relies on the connection handle travelling first:
    when a SubspaceResponse without a positive Conn but with a positive
    User is encoded and decoded, the user handle arrives in Conn and the
    User field holds either nothing or the PID handle. *)
Theorem subspace_decode_without_conn_misplaces_user s K :
  SubspaceResponse.Conn s <= 0 ->
  0 < SubspaceResponse.User s ->
  let E := SubspaceResponse.EncodeFds s in
  let R := SubspaceResponse.DecodeFds E.1 E.2 K in
  exists s', R.1 = Returned s'
    /\ SubspaceResponse.Conn s' = SubspaceResponse.User s
    /\ (SubspaceResponse.User s' = 0
        \/ SubspaceResponse.User s' = SubspaceResponse.PID s).
Proof.
  intros Hc Hu E R. subst E R.
  pose proof (subspace_EncodeFds_spec s) as [H1 H2].
  destruct (SubspaceResponse.EncodeFds s) as [fds s0]. cbn [fst snd] in *.
  subst fds s0. destruct s as [c u p].
  cbn [SubspaceResponse.Conn SubspaceResponse.User SubspaceResponse.PID] in *.
  rewrite !filter_cons, filter_nil.
  rewrite decide_False, decide_True by lia.
  rewrite (proj2 (Z.ltb_ge 0 c)) by done.
  rewrite (proj2 (Z.ltb_lt 0 u)) by done.
  unfold SubspaceResponse.DecodeFds, bind, ret.
  cbn [SubspaceResponse.User SubspaceResponse.PID SubspaceResponse.Conn].
  destruct (0 <? p) eqn:Ep;
    [rewrite decide_True by (by apply Z.ltb_lt)
    |rewrite decide_False by (by apply Z.nlt_ge, Z.ltb_ge)].
  - pose proof (subspace_decode_loop [p] (SubspaceResponse.mk u 0 0) K)
      as (_ & _ & _ & _ & Hconn & Huser & _).
    destruct (SubspaceResponse.decode_rest [p] (SubspaceResponse.mk u 0 0) K)
      as [s' K'] eqn:E. cbn [fst snd] in *.
    exists s'. split; [done|]. split; [done|].
    destruct Huser as [H|[Hin _]]; [by left|right].
    by apply list_elem_of_singleton in Hin.
  - cbn [SubspaceResponse.decode_rest ret fst snd]. eexists. split; [done|].
    split; [done|]. by left.
Qed.

Lemma subspace_DecodeFds_rest fds : forall s K,
  let R := SubspaceResponse.decode_rest fds s K in
  SubspaceResponse.Conn R.1 = SubspaceResponse.Conn s
  /\ SubspaceResponse.User R.1
     = default (SubspaceResponse.User s)
         (last (filter (fun fd => kernel_type K fd = Some CLONE_NEWUSER) fds))
  /\ SubspaceResponse.PID R.1
     = default (SubspaceResponse.PID s)
         (last (filter (fun fd => kernel_type K fd = Some CLONE_NEWPID) fds)).
Proof.
  induction fds as [|fd rest IH]; intros s K R; subst R; [done|].
  cbn [SubspaceResponse.decode_rest]. unfold bind.
  pose proof (subspace_turn fd s K) as Hturn.
  pose proof (subspace_decode_one fd s K) as Hone.
  destruct (SubspaceResponse.decode_one fd s K) as [s1 K1]. cbn [fst snd] in *.
  destruct (IH s1 K1) as (Hc & Hu & Hp). cbn zeta in Hc, Hu, Hp.
  assert (HU : CLONE_NEWUSER ∈ hierarchical_types) by (by left).
  assert (HP : CLONE_NEWPID ∈ hierarchical_types) by (right; by left).
  rewrite Hc, Hu, Hp.
  rewrite (list_filter_iff _ (fun x => kernel_type K x = Some CLONE_NEWUSER))
    by (intros x; apply (turn_kernel_type _ _ _ _ _ _ Hturn HU)).
  rewrite (list_filter_iff (fun x => kernel_type K1 x = Some CLONE_NEWPID)
             (fun x => kernel_type K x = Some CLONE_NEWPID))
    by (intros x; apply (turn_kernel_type _ _ _ _ _ _ Hturn HP)).
  rewrite !filter_cons.
  destruct (wanted_type hierarchical_types K fd) eqn:Hw.
  - destruct Hone as (_ & [[Hty ->]|[Hty ->]]); rewrite Hty;
      cbn [SubspaceResponse.Conn SubspaceResponse.User SubspaceResponse.PID].
    + rewrite decide_True by done. rewrite decide_False by done.
      by rewrite last_cons_default.
    + rewrite decide_False by done. rewrite decide_True by done.
      by rewrite last_cons_default.
  - destruct Hone as [_ ->].
    unfold wanted_type in Hw.
    destruct (kernel_type K fd) as [t|] eqn:Et.
    + apply bool_decide_eq_false in Hw.
      rewrite !decide_False; [done| |].
      * intros [= ->]. by apply Hw.
      * intros [= ->]. by apply Hw.
    + by rewrite !decide_False.
Qed.

(** X30. [SubspaceResponse.DecodeFds] on a non-empty list returns with
    the first handle in Conn, whatever it references; User and PID hold
    the last of the remaining handles whose kernel type is user
    respectively PID, or their former value when there is none. *)
Theorem subspace_DecodeFds_first_is_conn conn rest s K :
  exists s', (SubspaceResponse.DecodeFds (conn :: rest) s K).1 = Returned s'
    /\ SubspaceResponse.Conn s' = conn
    /\ SubspaceResponse.User s'
       = default (SubspaceResponse.User s)
           (last (filter (fun fd => kernel_type K fd = Some CLONE_NEWUSER) rest))
    /\ SubspaceResponse.PID s'
       = default (SubspaceResponse.PID s)
           (last (filter (fun fd => kernel_type K fd = Some CLONE_NEWPID) rest)).
Proof.
  cbn [SubspaceResponse.DecodeFds]. unfold bind, ret.
  pose proof (subspace_DecodeFds_rest rest
                (SubspaceResponse.mk conn (SubspaceResponse.User s) (SubspaceResponse.PID s)) K)
    as (Hc & Hu & Hp).
  destruct (SubspaceResponse.decode_rest rest _ K) as [s' K']. cbn [fst snd] in *.
  exists s'. done.
Qed.

End ApiFacts.

(** * The requests of the client *)
Module ClientFacts.
Import Unix Spacetest Api Service Client Props ValidationFacts RoomFacts.

(** X9. The selection [Client.Rooms] sends has the flag of a flat type
    set exactly when the caller asked for that type, and it is a valid
    selection for [Room] exactly when at least one type was asked for. *)
Theorem Rooms_request_asks_flagged_types cgroup ipc mnt net time uts :
  let req := Rooms_request cgroup ipc mnt net time uts in
  (forall f, requested (RoomsRequest.Spaces req) (RoomsResponse.type_of f)
             = flag_of cgroup ipc mnt net time uts f)
  /\ (valid_selection (RoomsRequest.Spaces req) flat_types
      <-> cgroup || ipc || mnt || net || time || uts = true).
Proof.
  intros req. subst req. split; [|split].
  - intros f. destruct cgroup, ipc, mnt, net, time, uts, f; reflexivity.
  - intros [_ Hv]. destruct cgroup, ipc, mnt, net, time, uts; try done.
    exfalso. apply Hv. by left.
  - intros Hb. apply flat_checks_valid.
    + destruct cgroup, ipc, mnt, net, time, uts; split; by vm_compute.
    + destruct cgroup, ipc, mnt, net, time, uts; reflexivity.
    + destruct cgroup, ipc, mnt, net, time, uts; by vm_compute.
Qed.

(** X10. The selection [Client.Subspace] sends has the user and the PID
    flag set exactly as the caller asked, and it is a valid selection for
    [Subspace] exactly when at least one of the two was asked for. *)
Theorem Subspace_request_asks_flagged_types user pid :
  let req := Subspace_request user pid in
  requested (SubspaceRequest.Spaces req) CLONE_NEWUSER = user
  /\ requested (SubspaceRequest.Spaces req) CLONE_NEWPID = pid
  /\ (valid_selection (SubspaceRequest.Spaces req) hierarchical_types
      <-> user || pid = true).
Proof.
  intros req. subst req. split; [|split; [|split]].
  - by destruct user, pid.
  - by destruct user, pid.
  - intros [_ Hv]. destruct user, pid; try done. exfalso. apply Hv. by left.
  - intros Hb. apply (checks_valid subSpaces _ _ testbit_subSpaces).
    + destruct user, pid; split; by vm_compute.
    + destruct user, pid; reflexivity.
    + destruct user, pid; by vm_compute.
Qed.

(** X11. [Client.NewTransient] lets exactly the six flat types through;
    for each it asks [Rooms] for that one type alone and returns the field
    of the response that belongs to this type. *)
Theorem NewTransient_selects_matching_field typ :
  match NewTransient_select typ with
  | Some (req, f) =>
      typ ∈ flat_types /\ RoomsRequest.Spaces req = typ /\ RoomsResponse.type_of f = typ
  | None => typ ∉ flat_types
  end.
Proof.
  unfold NewTransient_select.
  repeat (match goal with
          | |- context [?a =? ?b] =>
              destruct (Z.eqb_spec a b) as [->|?]
          end;
          [split; [apply (bool_decide_unpack _); by vm_compute|split; reflexivity]|]).
  unfold flat_types. intros Hin. rewrite !elem_of_cons, elem_of_nil in Hin. tauto.
Qed.

End ClientFacts.

(** * The kernel calls, by their outcome *)
Module KernelFacts.
Import Unix Spacetest Props UnixFacts CallFacts.

Lemma Name_resolves typ :
  typ ∈ ns_types -> nstype_of_name (Name typ) = Some typ.
Proof.
  unfold ns_types, hierarchical_types, flat_types. cbn [app].
  rewrite !elem_of_cons, elem_of_nil.
  intros H. repeat (destruct H as [->|H]; [by vm_compute|]). done.
Qed.

Lemma ns_types_disjoint typ t :
  typ ∈ ns_types -> t ∈ ns_types -> (Z.land typ t =? 0) = negb (t =? typ).
Proof.
  unfold ns_types, hierarchical_types, flat_types. cbn [app].
  rewrite !elem_of_cons, !elem_of_nil.
  intros H H'.
  repeat (destruct H as [->|H];
          [repeat (destruct H' as [->|H']; [by vm_compute|]); done|]).
  done.
Qed.

(** What each call leaves alone. *)
Lemma Open_Ok p K fd K' :
  Open p K = (Ok fd, K') ->
  exists o, resolve p K = Some o
    /\ fd = alloc_fd (fdtab K) /\ fdtab K' = <[fd := o]> (fdtab K)
    /\ cur K' = cur K /\ locked K' = locked K /\ nextid K' = nextid K
    /\ trace K' = trace K ++ [EvOpen p].
Proof.
  unfold Open, next_fault, install. cbn.
  destruct (faults K) as [|[e|] fs]; cbn; try done.
  - change (resolve p (emit (EvOpen p) K)) with (resolve p K).
    destruct (resolve p K) as [o|]; cbn; [|done].
    intros [= <- <-]. by exists o.
  - change (resolve p (set_faults fs (emit (EvOpen p) K))) with (resolve p K).
    destruct (resolve p K) as [o|]; cbn; [|done].
    intros [= <- <-]. by exists o.
Qed.

Lemma Open_Err p K e K' :
  Open p K = (Err e, K') ->
  fdtab K' = fdtab K /\ cur K' = cur K /\ locked K' = locked K
  /\ nextid K' = nextid K /\ trace K' = trace K ++ [EvOpen p].
Proof.
  unfold Open, next_fault, install. cbn.
  destruct (faults K) as [|[e'|] fs]; cbn.
  - change (resolve p (emit (EvOpen p) K)) with (resolve p K).
    destruct (resolve p K) as [o|]; cbn; [done|]. by intros [= <- <-].
  - by intros [= <- <-].
  - change (resolve p (set_faults fs (emit (EvOpen p) K))) with (resolve p K).
    destruct (resolve p K) as [o|]; cbn; [done|]. by intros [= <- <-].
Qed.

Lemma Unshare_Ok flags K u K' :
  Unshare flags K = (Ok u, K') ->
  fdtab K' = fdtab K /\ locked K' = locked K /\ nextid K' = S (nextid K)
  /\ (forall t, cur K' t = if Z.land flags t =? 0 then cur K t else nextid K)
  /\ trace K' = trace K ++ [EvUnshare flags].
Proof.
  unfold Unshare, next_fault. cbn.
  destruct (faults K) as [|[e|] fs]; cbn; try done; by intros [= <- <-].
Qed.

Lemma Unshare_Err flags K e K' :
  Unshare flags K = (Err e, K') ->
  fdtab K' = fdtab K /\ locked K' = locked K /\ nextid K' = nextid K
  /\ cur K' = cur K /\ trace K' = trace K ++ [EvUnshare flags].
Proof.
  unfold Unshare, next_fault. cbn.
  destruct (faults K) as [|[e'|] fs]; cbn; try done; by intros [= <- <-].
Qed.

Lemma Setns_Ok fd nstype K u K' :
  Setns fd nstype K = (Ok u, K') ->
  exists typ id, fdtab K !! fd = Some (NsObj typ id)
    /\ (nstype = 0 \/ nstype = typ)
    /\ (forall t, cur K' t = if t =? typ then id else cur K t)
    /\ fdtab K' = fdtab K /\ locked K' = locked K /\ nextid K' = nextid K
    /\ trace K' = trace K ++ [EvSetns fd nstype].
Proof.
  unfold Setns, next_fault. cbn.
  destruct (faults K) as [|[e|] fs]; cbn; try done.
  - destruct (fdtab K !! fd) as [[typ id| |]|] eqn:E; try done.
    destruct (Z.eqb_spec nstype 0) as [->|?]; cbn.
    + intros [= <- <-]. exists typ, id. split; [done|]. split; [by left|done].
    + destruct (Z.eqb_spec nstype typ) as [->|?]; [|done].
      intros [= <- <-]. exists typ, id. split; [done|]. split; [by right|done].
  - destruct (fdtab K !! fd) as [[typ id| |]|] eqn:E; try done.
    destruct (Z.eqb_spec nstype 0) as [->|?]; cbn.
    + intros [= <- <-]. exists typ, id. split; [done|]. split; [by left|done].
    + destruct (Z.eqb_spec nstype typ) as [->|?]; [|done].
      intros [= <- <-]. exists typ, id. split; [done|]. split; [by right|done].
Qed.

Lemma Setns_Err fd nstype K e K' :
  Setns fd nstype K = (Err e, K') ->
  fdtab K' = fdtab K /\ cur K' = cur K /\ locked K' = locked K
  /\ nextid K' = nextid K /\ trace K' = trace K ++ [EvSetns fd nstype].
Proof.
  unfold Setns, next_fault. cbn.
  destruct (faults K) as [|[e'|] fs]; cbn.
  - destruct (fdtab K !! fd) as [[typ id| |]|]; try (by intros [= <- <-]).
    destruct ((nstype =? 0) || (nstype =? typ)); [done|by intros [= <- <-]].
  - by intros [= <- <-].
  - destruct (fdtab K !! fd) as [[typ id| |]|]; try (by intros [= <- <-]).
    destruct ((nstype =? 0) || (nstype =? typ)); [done|by intros [= <- <-]].
Qed.

Lemma Close_frame fd K :
  fdtab (Close fd K).2 = delete fd (fdtab K) /\ cur (Close fd K).2 = cur K
  /\ locked (Close fd K).2 = locked K /\ nextid (Close fd K).2 = nextid K
  /\ trace (Close fd K).2 = trace K ++ [EvClose fd].
Proof.
  unfold Close. cbn. destruct (fdtab K !! fd) eqn:E; cbn; [done|].
  by rewrite delete_id.
Qed.

Lemma LockOSThread_spec K :
  LockOSThread K = (tt, set_locked (S (locked K)) (emit EvLockOSThread K)).
Proof. done. Qed.

Lemma resolve_thread_self typ K :
  typ ∈ ns_types ->
  resolve (ThreadSelfNs (Name typ)) K = Some (NsObj typ (cur K typ)).
Proof. intros H. unfold resolve. by rewrite (Name_resolves _ H). Qed.

Lemma Socketpair_Ok K a b K' :
  Socketpair K = (Ok (a, b), K') ->
  fdtab K !! a = None /\ fdtab K !! b = None /\ a <> b
  /\ 0 <= a /\ 0 <= b
  /\ fdtab K' = <[b := SockObj (nextid K) true]> (<[a := SockObj (nextid K) false]> (fdtab K)).
Proof.
  unfold Socketpair, next_fault, install. cbn.
  assert (H : forall (t : gmap Z Obj) o,
             let a := alloc_fd t in let b := alloc_fd (<[a := o]> t) in
             t !! a = None /\ t !! b = None /\ a <> b /\ 0 <= a /\ 0 <= b).
  { intros t o a' b'. subst a' b'.
    pose proof (alloc_fd_fresh t) as Ha.
    pose proof (alloc_fd_fresh (<[alloc_fd t := o]> t)) as Hb.
    assert (Hne : alloc_fd t <> alloc_fd (<[alloc_fd t := o]> t)).
    { intros Heq. rewrite <- Heq, lookup_insert_eq in Hb. done. }
    rewrite lookup_insert_ne in Hb by done.
    repeat split; try done; apply alloc_fd_nonneg. }
  destruct (faults K) as [|[e|] fs]; cbn; try done.
  - intros [= <- <- <-]. destruct (H (fdtab K) (SockObj (nextid K) false)) as (?&?&?&?&?).
    done.
  - intros [= <- <- <-]. destruct (H (fdtab K) (SockObj (nextid K) false)) as (?&?&?&?&?).
    done.
Qed.

Lemma Socketpair_Err K e K' :
  Socketpair K = (Err e, K') -> fdtab K' = fdtab K.
Proof.
  unfold Socketpair, next_fault, install. cbn.
  destruct (faults K) as [|[e'|] fs]; cbn; try done. by intros [= <- <-].
Qed.

Lemma Dup_Ok fd K fd' K' :
  Dup fd K = (Ok fd', K') ->
  exists o, fdtab K !! fd = Some o /\ fdtab K !! fd' = None /\ 0 <= fd'
            /\ (forall k, 0 <= k < fd' -> is_Some (fdtab K !! k))
            /\ fdtab K' = <[fd' := o]> (fdtab K).
Proof.
  unfold Dup, next_fault, install. cbn.
  destruct (faults K) as [|[e|] fs]; cbn; try done.
  - destruct (fdtab K !! fd) as [o|] eqn:E; [|done]. cbn.
    intros [= <- <-]. exists o. split; [done|]. split; [apply alloc_fd_fresh|].
    split; [apply alloc_fd_nonneg|]. split; [apply alloc_fd_least|done].
  - destruct (fdtab K !! fd) as [o|] eqn:E; [|done]. cbn.
    intros [= <- <-]. exists o. split; [done|]. split; [apply alloc_fd_fresh|].
    split; [apply alloc_fd_nonneg|]. split; [apply alloc_fd_least|done].
Qed.

Lemma Dup_Err fd K e K' : Dup fd K = (Err e, K') -> fdtab K' = fdtab K.
Proof.
  unfold Dup, next_fault, install. cbn.
  destruct (faults K) as [|[e'|] fs]; cbn.
  - destruct (fdtab K !! fd); [done|]. by intros [= <- <-].
  - by intros [= <- <-].
  - destruct (fdtab K !! fd); [done|]. by intros [= <- <-].
Qed.

Lemma Close_fdtab fd K : fdtab (Close fd K).2 = delete fd (fdtab K).
Proof. apply Close_spec. Qed.

Lemma Start_fdtab exe flags extra K : fdtab (Start exe flags extra K).2 = fdtab K.
Proof. unfold Start, next_fault. cbn. by destruct (faults K) as [|[e|] fs]. Qed.

Lemma occupied_after_alloc (t : gmap Z Obj) fd o :
  0 <= fd -> (forall k, 0 <= k < fd -> is_Some (t !! k)) ->
  is_Some (<[fd := o]> t !! 0).
Proof.
  intros Hfd Hleast. destruct (decide (fd = 0)) as [->|Hne].
  - rewrite lookup_insert_eq. eauto.
  - rewrite lookup_insert_ne by done. apply Hleast. lia.
Qed.

Lemma Open_tab p K :
  match (Open p K).1 with
  | Ok fd => fdtab K !! fd = None /\ 0 <= fd
             /\ is_Some (fdtab (Open p K).2 !! 0)
             /\ exists o, resolve p K = Some o /\ fdtab (Open p K).2 = <[fd := o]> (fdtab K)
  | Err _ => fdtab (Open p K).2 = fdtab K
  end.
Proof.
  pose proof (Open_spec p K) as [_ H]. destruct (Open p K).1; [|done].
  destruct H as (Hn & Hf & Hl & o & Ho & Ht). split; [done|]. split; [done|].
  split; [|eauto]. rewrite Ht. by apply occupied_after_alloc.
Qed.

Lemma Dup_tab fd K :
  match (Dup fd K).1 with
  | Ok fd' => fdtab K !! fd' = None /\ 0 <= fd'
              /\ is_Some (fdtab (Dup fd K).2 !! 0)
              /\ exists o, fdtab K !! fd = Some o
                           /\ fdtab (Dup fd K).2 = <[fd' := o]> (fdtab K)
  | Err _ => fdtab (Dup fd K).2 = fdtab K
  end.
Proof.
  destruct (Dup fd K) as [[fd'|e] K'] eqn:E; cbn [fst snd].
  - apply Dup_Ok in E as (o & Ho & Hf & Hn & Hl & Ht). split; [done|]. split; [done|].
    split; [|eauto]. rewrite Ht. by apply occupied_after_alloc.
  - by apply Dup_Err in E.
Qed.

Lemma resolve_PidNs_type pid name K o :
  resolve (PidNs pid name) K = Some o ->
  exists typ id, nstype_of_name name = Some typ /\ o = NsObj typ id.
Proof.
  unfold resolve. destruct (procs K !! pid) as [ns|]; [|done]. cbn.
  destruct (nstype_of_name name) as [typ|]; [|done]. cbn.
  intros [= <-]. eauto.
Qed.

End KernelFacts.

(** * Transient namespaces: [EnterTransient] and [NewTransient] *)
Module TransientFacts.
Import Unix Spacetest Props UnixFacts CallFacts RoomFacts KernelFacts.

Lemma NewTransient_types_ns typ : typ ∈ NewTransient_types -> typ ∈ ns_types.
Proof.
  unfold NewTransient_types, ns_types, hierarchical_types, flat_types. cbn [app].
  rewrite !elem_of_cons, !elem_of_nil. tauto.
Qed.

Lemma EnterTransient_types_ns typ : typ ∈ EnterTransient_types -> typ ∈ ns_types.
Proof.
  unfold EnterTransient_types, ns_types, hierarchical_types, flat_types. cbn [app].
  rewrite !elem_of_cons, !elem_of_nil. tauto.
Qed.

(** Inversion of a successful [EnterTransient]. *)
Lemma EnterTransient_Returned typ K fd K1 :
  EnterTransient typ K = (Returned fd, K1) ->
  typ ∈ EnterTransient_types
  /\ fd = alloc_fd (fdtab K)
  /\ fdtab K1 = <[fd := NsObj typ (cur K typ)]> (fdtab K)
  /\ (forall t, cur K1 t = if Z.land typ t =? 0 then cur K t else nextid K)
  /\ locked K1 = S (locked K)
  /\ trace K1 = trace K ++ [EvLockOSThread; EvOpen (ThreadSelfNs (Name typ)); EvUnshare typ].
Proof.
  unfold EnterTransient. destruct (bool_decide_reflect (typ ∈ EnterTransient_types)) as [Hin|]; [|done].
  unfold bind. rewrite LockOSThread_spec.
  destruct (Open _ _) as [[callerns|e] Ka] eqn:EO; [|done].
  destruct (Unshare typ Ka) as [[u|e] Kb] eqn:EU; [|done].
  intros [= <- <-].
  apply Open_Ok in EO as (o & Hres & Hfd & Hft & Hc & Hl & Hn & Ht).
  apply Unshare_Ok in EU as (Hft' & Hl' & Hn' & Hc' & Ht').
  rewrite resolve_thread_self in Hres by (by apply EnterTransient_types_ns).
  injection Hres as <-. cbn in *.
  split; [done|]. split; [done|]. split; [by rewrite Hft', Hft|].
  split; [intros t; by rewrite Hc', Hc, Hn|]. split; [by rewrite Hl', Hl|].
  by rewrite Ht', Ht, <- !app_assoc.
Qed.

(** X23. Entering and leaving: when [EnterTransient] succeeded for one of
    cgroup, IPC, net or UTS, the thread is locked and attached to a new
    namespace of that type and to no other new namespace; and when the
    closure it returned is then run with the recorded handle still in
    place and succeeds, the thread is back in the namespace of that type
    it started from, the handle is closed and the lock taken is released.
    Leaving at once leaves the descriptor table as it was found. *)
Theorem EnterTransient_leave_restores typ K fd K1 Kb K2 :
  typ ∈ NewTransient_types ->
  EnterTransient typ K = (Returned fd, K1) ->
  fdtab Kb !! fd = fdtab K1 !! fd ->
  EnterTransient_leave typ fd Kb = (Returned tt, K2) ->
  (cur K1 typ = nextid K
   /\ (forall t, t ∈ ns_types -> t <> typ -> cur K1 t = cur K t)
   /\ locked K1 = S (locked K))
  /\ (cur K2 typ = cur K typ
      /\ (forall t, t <> typ -> cur K2 t = cur Kb t)
      /\ fdtab K2 = delete fd (fdtab Kb)
      /\ locked K2 = pred (locked Kb))
  /\ (fdtab Kb = fdtab K1 -> fdtab K2 = fdtab K).
Proof.
  intros Hty HE Hkeep HL.
  pose proof (NewTransient_types_ns _ Hty) as Hns.
  apply EnterTransient_Returned in HE as (_ & Hfd & Hft & Hc & Hl & _).
  unfold EnterTransient_leave, bind in HL.
  destruct (Setns fd typ Kb) as [[u|e] Kc] eqn:ES; [|done].
  pose proof (Close_frame fd Kc) as (Hcf & Hcc & Hcl & _).
  destruct (Close fd Kc) as [r Kd]. cbn in HL, Hcf, Hcc, Hcl.
  injection HL as <-.
  apply Setns_Ok in ES as (typ' & id & Hlook & _ & Hsc & Hsf & Hsl & _).
  rewrite Hkeep, Hft, lookup_insert_eq in Hlook. injection Hlook as <- <-.
  split; [|split].
  - split; [|split; [|done]].
    + rewrite Hc, (ns_types_disjoint _ _ Hns Hns), Z.eqb_refl. done.
    + intros t Ht Hne. rewrite Hc, (ns_types_disjoint _ _ Hns Ht).
      apply Z.eqb_neq in Hne. by rewrite Hne.
  - cbn. rewrite Hcc, Hcf, Hcl, Hsf, Hsl. split; [|split; [|done]].
    + by rewrite Hsc, Z.eqb_refl.
    + intros t Hne. rewrite Hsc. apply Z.eqb_neq in Hne. by rewrite Hne.
  - intros Heq. cbn. rewrite Hcf, Hsf, Heq, Hft, delete_insert_eq.
    apply delete_id. rewrite Hfd. apply alloc_fd_fresh.
Qed.

(** X24. [EnterTransient] has no deferred cleanup: when it fails after
    its gate, the thread stays locked, and when the failure is that of
    unshare, the handle of the caller's namespace it had opened stays
    open. *)
Theorem EnterTransient_failure_stays_locked typ K m K' :
  typ ∈ EnterTransient_types ->
  EnterTransient typ K = (Panicked m, K') ->
  locked K' = S (locked K)
  /\ ((events_since K K' = [EvLockOSThread; EvOpen (ThreadSelfNs (Name typ))]
       /\ fdtab K' = fdtab K)
      \/ (events_since K K'
          = [EvLockOSThread; EvOpen (ThreadSelfNs (Name typ)); EvUnshare typ]
          /\ fdtab K !! alloc_fd (fdtab K) = None
          /\ fdtab K'
             = <[alloc_fd (fdtab K) := NsObj typ (cur K typ)]> (fdtab K))).
Proof.
  intros Hin. unfold EnterTransient. rewrite bool_decide_eq_true_2 by done.
  unfold bind. rewrite LockOSThread_spec.
  destruct (Open _ _) as [[callerns|e] Ka] eqn:EO.
  - destruct (Unshare typ Ka) as [[u|e] Kb] eqn:EU; [done|].
    intros [= <- <-].
    apply Open_Ok in EO as (o & Hres & Hfd & Hft & Hc & Hl & Hn & Ht).
    apply Unshare_Err in EU as (Hft' & Hl' & Hn' & Hc' & Ht').
    rewrite resolve_thread_self in Hres by (by apply EnterTransient_types_ns).
    injection Hres as <-. cbn in *.
    split; [by rewrite Hl', Hl|]. right. split; [|split].
    + apply events_since_app. by rewrite Ht', Ht, <- !app_assoc.
    + apply alloc_fd_fresh.
    + by rewrite Hft', Hft, Hfd.
  - intros [= <- <-].
    apply Open_Err in EO as (Hft & Hc & Hl & Hn & Ht). cbn in *.
    split; [done|]. left. split; [|done].
    apply events_since_app. by rewrite Ht, <- !app_assoc.
Qed.

(** X25. When the closure returned by [EnterTransient] cannot switch
    back, it panics with the text that names the type and the reason
    after the single setns; the recorded handle is not closed, the thread
    is not unlocked and stays where it was. *)
Theorem EnterTransient_leave_failure_changes_nothing typ fd K m K' :
  EnterTransient_leave typ fd K = (Panicked m, K') ->
  fdtab K' = fdtab K /\ cur K' = cur K /\ locked K' = locked K
  /\ events_since K K' = [EvSetns fd typ]
  /\ exists e, m = "leaving from EnterTransient: cannot restore original "
                   +:+ Name typ +:+ " namespace, reason: " +:+ e.
Proof.
  unfold EnterTransient_leave, bind.
  destruct (Setns fd typ K) as [[u|e] Kc] eqn:ES.
  - by destruct (Close fd Kc).
  - intros [= <- <-]. apply Setns_Err in ES as (Hf & Hc & Hl & _ & Ht).
    repeat (split; [done|]). split; [by apply events_since_app|]. by exists e.
Qed.

Lemma alloc_second_positive (t : gmap Z Obj) o :
  0 < alloc_fd (<[alloc_fd t := o]> t) \/ 0 < alloc_fd t.
Proof.
  pose proof (alloc_fd_nonneg t) as H1.
  pose proof (alloc_fd_nonneg (<[alloc_fd t := o]> t)) as H2.
  pose proof (alloc_fd_fresh (<[alloc_fd t := o]> t)) as H3.
  destruct (decide (alloc_fd (<[alloc_fd t := o]> t) = alloc_fd t)) as [Heq|Hne].
  - rewrite Heq, lookup_insert_eq in H3. done.
  - lia.
Qed.

(** X26. When [NewTransient] returns, its result is a positive
    descriptor that was free before and now references a namespace of the
    requested type that did not exist before; it is the only change to
    the descriptor table, the thread is attached to the namespaces it had
    been attached to and its lock count is as before; the handle was
    scheduled for a deferred close before the thread was unlocked, and the
    handle of the caller's namespace was closed last. *)
Theorem NewTransient_returns_fresh_handle typ K fd K' :
  NewTransient typ K = (Returned fd, K') ->
  typ ∈ NewTransient_types
  /\ 0 < fd /\ fdtab K !! fd = None
  /\ fdtab K' = <[fd := NsObj typ (nextid K)]> (fdtab K)
  /\ (forall t, t ∈ ns_types -> cur K' t = cur K t)
  /\ locked K' = locked K
  /\ events_since K K'
     = [EvLockOSThread; EvOpen (ThreadSelfNs (Name typ)); EvUnshare typ;
        EvOpen (ThreadSelfNs (Name typ)); EvSetns (alloc_fd (fdtab K)) typ;
        EvDeferCleanup fd; EvUnlockOSThread; EvClose (alloc_fd (fdtab K))].
Proof.
  unfold NewTransient.
  destruct (bool_decide_reflect (typ ∈ NewTransient_types)) as [Hin|]; [|done].
  pose proof (NewTransient_types_ns _ Hin) as Hns.
  unfold bind. rewrite LockOSThread_spec.
  destruct (Open _ _) as [[c|e] Ka] eqn:EO; [|done].
  destruct (Unshare typ Ka) as [[u|e] Kb] eqn:EU; [|unfold ret; cbv beta iota; by destruct (Close c Kb)].
  destruct (Open _ Kb) as [[n|e] Kc] eqn:EN; [|unfold ret; cbv beta iota; by destruct (Close c Kc)].
  destruct (Setns c typ Kc) as [[u'|e] Kd] eqn:ES; [|unfold ret; cbv beta iota; by destruct (Close c Kd)].
  unfold DeferCleanup_close, UnlockOSThread, ret.
  set (Ke := set_locked _ _).
  pose proof (Close_frame c Ke) as (Hcf & Hcc & Hcl & _ & Hct).
  destruct (Close c Ke) as [r Kf]. cbn [fst snd] in *.
  intros [= <- <-]. subst Ke. cbn in Hcf, Hcc, Hcl, Hct.
  apply Open_Ok in EO as (o & Hres & Hfd & Hft & Hc & Hl & Hn & Ht).
  rewrite resolve_thread_self in Hres by done. injection Hres as <-.
  apply Unshare_Ok in EU as (Hft' & Hl' & Hn' & Hc' & Ht').
  apply Open_Ok in EN as (o' & Hres' & Hfd' & Hft2 & Hc2 & Hl2 & Hn2 & Ht2).
  rewrite resolve_thread_self in Hres' by done. injection Hres' as <-.
  apply Setns_Ok in ES as (typ' & id & Hlook & _ & Hsc & Hsf & Hsl & _ & Hst).
  cbn in *.
  assert (Hne : n <> c).
  { intros ->. pose proof (alloc_fd_fresh (fdtab Kb)) as Hfr.
    rewrite <- Hfd', Hft', Hft, lookup_insert_eq in Hfr. done. }
  rewrite Hft2, lookup_insert_ne, Hft', Hft, lookup_insert_eq in Hlook by done.
  injection Hlook as <- <-.
  assert (Hfresh_c : fdtab K !! c = None) by (rewrite Hfd; apply alloc_fd_fresh).
  assert (Hfresh_n : fdtab K !! n = None).
  { pose proof (alloc_fd_fresh (fdtab Kb)) as Hfr.
    rewrite <- Hfd', Hft', Hft, lookup_insert_ne in Hfr by done. done. }
  split; [done|]. split; [|split; [done|split; [|split; [|split]]]].
  - pose proof (alloc_second_positive (fdtab K) (NsObj typ (cur K typ))) as Hp.
    rewrite <- Hfd in Hp. rewrite Hft', Hft in Hfd'. rewrite <- Hfd' in Hp.
    pose proof (alloc_fd_nonneg (fdtab K)) as H0. rewrite <- Hfd in H0.
    destruct Hp as [Hp|Hp]; [done|].
    assert (Hz : is_Some (fdtab K !! 0)).
    { pose proof (alloc_fd_least (fdtab K) 0) as Hl0. apply Hl0. lia. }
    pose proof (alloc_fd_nonneg (<[c := NsObj typ (cur K typ)]> (fdtab K))) as Hn0.
    rewrite <- Hfd' in Hn0.
    destruct (decide (n = 0)) as [->|]; [|lia].
    rewrite Hfresh_n in Hz. by destruct Hz.
  - rewrite Hcf, Hsf, Hft2, Hft', Hft.
    rewrite Hc', (ns_types_disjoint _ _ Hns Hns), Z.eqb_refl, Hn. cbn [negb].
    rewrite delete_insert_ne by done. rewrite delete_insert_eq.
    by rewrite delete_id.
  - intros t Ht_ns. rewrite Hcc, Hsc, Hc2, Hc', Hc, Hn.
    rewrite (ns_types_disjoint _ _ Hns Ht_ns).
    destruct (Z.eqb_spec t typ) as [->|?]; done.
  - by rewrite Hcl, Hsl, Hl2, Hl', Hl.
  - apply events_since_app. rewrite Hct, Hst, Ht2, Ht', Ht.
    rewrite <- Hfd. by rewrite <- !app_assoc.
Qed.

(** X27. When [NewTransient] fails after its gate, the thread stays
    locked and the handle of the caller's namespace is closed on every
    path that opened it.  The descriptor table is as before unless the
    failure is that of switching back: then the handle of the new
    namespace stays open, unscheduled for any close, and the thread stays
    in the new namespace. *)
Theorem NewTransient_failure_closes_callers_handle typ K m K' :
  typ ∈ NewTransient_types ->
  NewTransient typ K = (Panicked m, K') ->
  let c := alloc_fd (fdtab K) in
  let opened := EvOpen (ThreadSelfNs (Name typ)) in
  locked K' = S (locked K)
  /\ fdtab K' !! c = None
  /\ ((events_since K K' = [EvLockOSThread; opened] /\ fdtab K' = fdtab K)
      \/ (events_since K K' = [EvLockOSThread; opened; EvUnshare typ; EvClose c]
          /\ fdtab K' = fdtab K)
      \/ (events_since K K'
          = [EvLockOSThread; opened; EvUnshare typ; opened; EvClose c]
          /\ fdtab K' = fdtab K)
      \/ (events_since K K'
          = [EvLockOSThread; opened; EvUnshare typ; opened; EvSetns c typ; EvClose c]
          /\ cur K' typ = nextid K
          /\ exists fd, fdtab K !! fd = None
               /\ fdtab K' = <[fd := NsObj typ (nextid K)]> (fdtab K))).
Proof.
  intros Hin. pose proof (NewTransient_types_ns _ Hin) as Hns.
  intros HN c0 opened. subst c0 opened. revert HN.
  unfold NewTransient. rewrite bool_decide_eq_true_2 by done.
  unfold bind. rewrite LockOSThread_spec.
  pose proof (alloc_fd_fresh (fdtab K)) as Hfresh_c.
  destruct (Open _ _) as [[c|e] Ka] eqn:EO.
  2:{ intros [= <- <-]. apply Open_Err in EO as (Hft & Hc & Hl & Hn & Ht). cbn in *.
      split; [done|]. split; [by rewrite Hft|]. left. split; [|done].
      apply events_since_app. by rewrite Ht, <- !app_assoc. }
  apply Open_Ok in EO as (o & Hres & Hfd & Hft & Hc & Hl & Hn & Ht).
  rewrite resolve_thread_self in Hres by done. injection Hres as <-.
  cbn in Hfd, Hft, Hc, Hl, Hn, Ht. rewrite <- Hfd in Hfresh_c |- *.
  assert (Hdel : delete c (fdtab Ka) = fdtab K).
  { rewrite Hft, delete_insert_eq. by apply delete_id. }
  destruct (Unshare typ Ka) as [[u|e] Kb] eqn:EU.
  2:{ unfold ret; cbv beta iota.
      pose proof (Close_frame c Kb) as (Hcf & Hcc & Hcl & _ & Hct).
      destruct (Close c Kb) as [r Kf]. cbn [fst snd] in *. intros [= <- <-].
      apply Unshare_Err in EU as (Hft' & Hl' & Hn' & Hc' & Ht').
      split; [by rewrite Hcl, Hl', Hl|].
      split; [rewrite Hcf; apply lookup_delete_eq|].
      right; left. split; [|by rewrite Hcf, Hft'].
      apply events_since_app. by rewrite Hct, Ht', Ht, <- !app_assoc. }
  apply Unshare_Ok in EU as (Hft' & Hl' & Hn' & Hc' & Ht').
  destruct (Open _ Kb) as [[n|e] Kc] eqn:EN.
  2:{ unfold ret; cbv beta iota.
      pose proof (Close_frame c Kc) as (Hcf & Hcc & Hcl & _ & Hct).
      destruct (Close c Kc) as [r Kf]. cbn [fst snd] in *. intros [= <- <-].
      apply Open_Err in EN as (Hft2 & Hc2 & Hl2 & Hn2 & Ht2).
      split; [by rewrite Hcl, Hl2, Hl', Hl|].
      split; [rewrite Hcf; apply lookup_delete_eq|].
      right; right; left. split; [|by rewrite Hcf, Hft2, Hft'].
      apply events_since_app. by rewrite Hct, Ht2, Ht', Ht, <- !app_assoc. }
  apply Open_Ok in EN as (o' & Hres' & Hfd' & Hft2 & Hc2 & Hl2 & Hn2 & Ht2).
  rewrite resolve_thread_self in Hres' by done. injection Hres' as <-.
  destruct (Setns c typ Kc) as [[u'|e] Kd] eqn:ES.
  { unfold DeferCleanup_close, UnlockOSThread, ret. cbv beta iota.
    by destruct (Close c _). }
  unfold ret; cbv beta iota.
  pose proof (Close_frame c Kd) as (Hcf & Hcc & Hcl & _ & Hct).
  destruct (Close c Kd) as [r Kf]. cbn [fst snd] in *. intros [= <- <-].
  apply Setns_Err in ES as (Hsf & Hsc & Hsl & _ & Hst).
  assert (Hne : n <> c).
  { intros ->. pose proof (alloc_fd_fresh (fdtab Kb)) as Hfr.
    rewrite <- Hfd', Hft', Hft, lookup_insert_eq in Hfr. done. }
  assert (Hfresh_n : fdtab K !! n = None).
  { pose proof (alloc_fd_fresh (fdtab Kb)) as Hfr.
    rewrite <- Hfd', Hft', Hft, lookup_insert_ne in Hfr by done. done. }
  assert (Hcur : cur Kb typ = nextid K).
  { by rewrite Hc', (ns_types_disjoint _ _ Hns Hns), Z.eqb_refl, Hn. }
  split; [by rewrite Hcl, Hsl, Hl2, Hl', Hl|].
  split; [rewrite Hcf; apply lookup_delete_eq|].
  right; right; right. split; [|split].
  - apply events_since_app. by rewrite Hct, Hst, Ht2, Ht', Ht, <- !app_assoc.
  - by rewrite Hcc, Hsc, Hc2.
  - exists n. split; [done|].
    rewrite Hcf, Hsf, Hft2, Hft', Hcur, delete_insert_ne, Hdel by done. done.
Qed.

(** X28. [mntns.EnterTransient] and its closure: after entering, the
    thread is locked and in a new mount namespace; the closure switches
    back with setns and closes the recorded handle, and it never unlocks
    the thread.  Leaving at once leaves the descriptor table as it was
    found. *)
Theorem mntns_EnterTransient_leave_stays_locked K fd K1 Kb K2 :
  Mntns.EnterTransient K = (Returned fd, K1) ->
  fdtab Kb !! fd = fdtab K1 !! fd ->
  Mntns.EnterTransient_leave fd Kb = (Returned tt, K2) ->
  (cur K1 CLONE_NEWNS = nextid K /\ locked K1 = S (locked K))
  /\ (cur K2 CLONE_NEWNS = cur K CLONE_NEWNS
      /\ fdtab K2 = delete fd (fdtab Kb)
      /\ locked K2 = locked Kb
      /\ events_since Kb K2 = [EvSetns fd 0; EvClose fd])
  /\ (fdtab Kb = fdtab K1 -> fdtab K2 = fdtab K).
Proof.
  unfold Mntns.EnterTransient, bind. rewrite LockOSThread_spec.
  destruct (Open _ _) as [[c|e] Ka] eqn:EO; [|done].
  destruct (Unshare _ Ka) as [[u|e] Kc] eqn:EU; [|done].
  destruct (MountRootPrivate Kc) as [[u'|e] Kd] eqn:EM; [|done].
  intros [= <- <-] Hkeep HL.
  apply Open_Ok in EO as (o & Hres & Hfd & Hft & Hc & Hl & Hn & Ht).
  change (ThreadSelfNs "mnt") with (ThreadSelfNs (Name CLONE_NEWNS)) in Hres.
  assert (Hns : CLONE_NEWNS ∈ ns_types).
  { unfold ns_types, hierarchical_types, flat_types. cbn [app].
    rewrite !elem_of_cons. tauto. }
  rewrite resolve_thread_self in Hres by done. injection Hres as <-.
  apply Unshare_Ok in EU as (Hft' & Hl' & Hn' & Hc' & Ht').
  assert (HM : fdtab Kd = fdtab Kc /\ cur Kd = cur Kc /\ locked Kd = locked Kc).
  { revert EM. unfold MountRootPrivate, next_fault. cbn.
    destruct (faults Kc) as [|[e|] fs]; cbn; try done; intros H; by inversion H. }
  destruct HM as (Hmf & Hmc & Hml).
  unfold Mntns.EnterTransient_leave, bind in HL.
  destruct (Setns c 0 Kb) as [[u2|e] Ke] eqn:ES; [|done].
  pose proof (Close_frame c Ke) as (Hcf & Hcc & Hcl & _ & Hct).
  destruct (Close c Ke) as [r Kf]. cbn in HL, Hcf, Hcc, Hcl, Hct.
  injection HL as <-.
  apply Setns_Ok in ES as (typ' & id & Hlook & _ & Hsc & Hsf & Hsl & _ & Hst).
  cbn in Hft, Hc, Hl, Hn.
  rewrite Hkeep, Hmf, Hft', Hft, lookup_insert_eq in Hlook. injection Hlook as <- <-.
  split; [|split].
  - split; [|by rewrite Hml, Hl', Hl].
    by rewrite Hmc, Hc', Hn.
  - split; [by rewrite Hcc, Hsc, Z.eqb_refl|]. split; [by rewrite Hcf, Hsf|].
    split; [by rewrite Hcl, Hsl|].
    apply events_since_app. by rewrite Hct, Hst, <- !app_assoc.
  - intros Heq. rewrite Hcf, Hsf, Heq, Hmf, Hft', Hft, delete_insert_eq.
    apply delete_id. rewrite Hfd. apply alloc_fd_fresh.
Qed.

End TransientFacts.

(** * The descriptors [Room] and [Serve] leave behind *)
Module ServeTableFacts.
Import Unix Spacetest Api Service Props UnixFacts CallFacts ValidationFacts RoomFacts DecodeFacts ServeFacts ApiFacts.

Lemma close_all_lookup fds : forall K k,
  fdtab (close_all fds K).2 !! k = if decide (k ∈ fds) then None else fdtab K !! k.
Proof.
  induction fds as [|fd rest IH]; intros K k; cbn [close_all].
  { rewrite decide_False; [done|]. apply not_elem_of_nil. }
  unfold bind. pose proof (Close_spec fd K) as [_ Hf].
  destruct (Close fd K) as [r K1]. cbn [fst snd] in *. rewrite IH, Hf.
  destruct (decide (k ∈ rest)) as [Hin|Hout].
  - rewrite decide_True; [done|by right].
  - destruct (decide (k = fd)) as [->|Hne].
    + rewrite decide_True by (by left). apply lookup_delete_eq.
    + rewrite decide_False.
      2:{ intros H. apply elem_of_cons in H as [?|?]; done. }
      by rewrite lookup_delete_ne.
Qed.

(** The descriptor table [Room] leaves behind. *)
Lemma Room_table req K :
  match (Room req K).1 with
  | RoomsResp r =>
      (forall f, RoomsResponse.get f r = 0
                 \/ (0 < RoomsResponse.get f r
                     /\ fdtab K !! RoomsResponse.get f r = None
                     /\ exists id, fdtab (Room req K).2 !! RoomsResponse.get f r
                                   = Some (NsObj (RoomsResponse.type_of f) id)))
      /\ (forall fd, (forall f, 0 < RoomsResponse.get f r -> RoomsResponse.get f r <> fd) ->
                     fdtab (Room req K).2 !! fd = fdtab K !! fd)
  | ErrorResponse _ => fdtab (Room req K).2 = fdtab K
  | SubspaceResp _ => False
  end.
Proof.
  unfold Room.
  destruct (negb _); [done|]. destruct (_ =? 0); [done|].
  unfold bind.
  pose proof (Room_units_inv req K) as (Ha & Hb & He & Hd & Hc & Hm).
  destruct (Room_units req K) as [st K']; cbn [fst snd] in *.
  destruct (decide (errmsg st = "")) as [Hok|Hne].
  - unfold Room_finish. rewrite decide_True by done. done.
  - destruct (Room_finish_failed st K' Hne) as (HR & Hf & _).
    rewrite HR, Hf. apply map_eq. intros k. rewrite lookup_close_list.
    destruct (decide (0 < k /\ _)) as [[Hk Hin]|Hn].
    + apply list_elem_of_fmap in Hin as (f & -> & _).
      destruct (Ha f) as [?|(_ & H0 & _)]; [lia|done].
    + apply Hb. intros f Hpos Heq. apply Hn. split; [lia|].
      apply list_elem_of_fmap. exists f. split; [done|]. apply all_fields.
Qed.

(** X15. Whatever the request, [Room] either answers with an
    ErrorResponse and leaves the descriptor table as it found it, or
    answers with a RoomsResponse whose positive fields are pairwise
    distinct descriptors that were free before and now reference a
    namespace of the type of their field, and no other descriptor has
    changed. *)
Theorem Room_leaves_only_returned_handles req K :
  match (Room req K).1 with
  | RoomsResp r =>
      (forall f, RoomsResponse.get f r = 0
                 \/ (0 < RoomsResponse.get f r
                     /\ fdtab K !! RoomsResponse.get f r = None
                     /\ kernel_type (Room req K).2 (RoomsResponse.get f r)
                        = Some (RoomsResponse.type_of f)))
      /\ (forall f g, 0 < RoomsResponse.get f r ->
                      RoomsResponse.get f r = RoomsResponse.get g r -> f = g)
      /\ (forall fd, (forall f, 0 < RoomsResponse.get f r -> RoomsResponse.get f r <> fd) ->
                     fdtab (Room req K).2 !! fd = fdtab K !! fd)
  | ErrorResponse _ => fdtab (Room req K).2 = fdtab K
  | SubspaceResp _ => False
  end.
Proof.
  pose proof (Room_table req K) as HT.
  destruct (Room req K) as [[reason|s|r] K1]; cbn [fst snd] in *; [done|done|].
  destruct HT as [Ha Hb]. split; [|split; [|done]].
  - intros f. destruct (Ha f) as [H0|(Hpos & Hfree & id & Hid)]; [by left|right].
    split; [done|]. split; [done|]. unfold kernel_type. by rewrite Hid.
  - intros f g Hpos Heq.
    destruct (Ha f) as [H0|(_ & _ & idf & Hf)]; [lia|].
    destruct (Ha g) as [H0|(_ & _ & idg & Hg)]; [lia|].
    rewrite Heq, Hg in Hf. injection Hf as Hf _. symmetry. by apply type_of_inj.
Qed.

Section Reply.
Context {Bytes : Type} (gob_encode : Response -> Result Bytes).

Lemma Serve_reply_table resp K msg :
  gob_encode resp = Ok msg ->
  let fds := (EncodeFds resp).1 in
  let K' := (Serve_reply gob_encode resp K).2 in
  (forall fd, fd ∈ fds -> fdtab K' !! fd = None)
  /\ (forall fd, fd ∉ fds -> fdtab K' !! fd = fdtab K !! fd)
  /\ events_since K K' = EvSendmsg fds :: map EvClose fds.
Proof.
  intros Henc fds K'. subst fds K'. unfold Serve_reply. rewrite Henc.
  destruct (EncodeFds resp) as [fds resp']. cbn [fst snd].
  unfold bind.
  assert (HS : fdtab (Sendmsg fds K).2 = fdtab K
               /\ trace (Sendmsg fds K).2 = trace K ++ [EvSendmsg fds]).
  { unfold Sendmsg, next_fault. cbn. by destruct (faults K) as [|[e|] fs]. }
  destruct HS as [HSf HSt].
  destruct (Sendmsg fds K) as [sent K1]. cbn [fst snd] in *.
  pose proof (close_all_lookup fds K1) as Hl.
  pose proof (close_all_trace fds K1) as Ht.
  destruct (close_all fds K1) as [[] K2]. cbn [fst snd] in *.
  assert (HK : forall A (a b : A), (match sent with Err _ => ret a | Ok _ => ret b end K2).2 = K2).
  { intros A a b. by destruct sent. }
  rewrite HK. split; [|split].
  - intros fd Hin. by rewrite Hl, decide_True.
  - intros fd Hout. by rewrite Hl, decide_False, HSf.
  - apply events_since_app. by rewrite Ht, HSt, <- app_assoc.
Qed.

(** X18. Once the response is encoded, [Serve] closes every descriptor
    it borrowed from the response, whether or not sending succeeded, and
    touches no other; the send is followed by one close per borrowed
    descriptor, in order; the answer went out with exactly these
    descriptors, or the loop ended. *)
Theorem Serve_reply_closes_every_handle resp K msg :
  gob_encode resp = Ok msg ->
  let fds := (EncodeFds resp).1 in
  let R := Serve_reply gob_encode resp K in
  (forall fd, fd ∈ fds -> fdtab R.2 !! fd = None)
  /\ (forall fd, fd ∉ fds -> fdtab R.2 !! fd = fdtab K !! fd)
  /\ events_since K R.2 = EvSendmsg fds :: map EvClose fds
  /\ (R.1 = Some (msg, fds) \/ R.1 = None).
Proof.
  intros Henc fds R. subst fds R.
  destruct (Serve_reply_table resp K msg Henc) as (H1 & H2 & H3).
  split; [done|]. split; [done|]. split; [done|].
  unfold Serve_reply. rewrite Henc.
  destruct (EncodeFds resp) as [fds resp']. cbn [fst snd]. unfold bind.
  destruct (Sendmsg fds K) as [sent K1]. destruct (close_all fds K1) as [[] K2].
  destruct sent; [by left|by right].
Qed.

(** X19. One turn of the serving loop on a RoomsRequest, from the
    dispatch to [Room] to the closes after the send, leaves the descriptor
    table of the service as it was, whatever the request and however the
    units and the send end, provided the response could be encoded. *)
Theorem Serve_rooms_turn_keeps_table req K msg :
  gob_encode (Room req K).1 = Ok msg ->
  fdtab (Serve_reply gob_encode (Room req K).1 (Room req K).2).2 = fdtab K.
Proof.
  intros Henc.
  pose proof (Serve_reply_table _ (Room req K).2 _ Henc) as (Hin & Hout & _).
  cbn zeta in Hin, Hout.
  pose proof (Room_table req K) as HT.
  destruct (Room req K) as [resp K1]. cbn [fst snd] in *.
  apply map_eq. intros k.
  destruct resp as [reason|s|r]; [|done|].
  - rewrite Hout by (cbn; apply not_elem_of_nil). by rewrite HT.
  - destruct HT as [Ha Hb]. cbn [EncodeFds] in Hin, Hout.
    pose proof (rooms_EncodeFds_spec r) as (H1 & _).
    destruct (RoomsResponse.EncodeFds r) as [fds r']. cbn [fst snd] in *.
    destruct (decide (k ∈ fds)) as [Hk|Hk].
    + rewrite Hin by done. rewrite H1 in Hk.
      apply list_elem_of_filter in Hk as [Hpos Hk].
      apply list_elem_of_fmap in Hk as (f & -> & _).
      destruct (Ha f) as [?|(_ & H0 & _)]; [lia|done].
    + rewrite Hout by done. apply Hb. intros f Hpos Heq. apply Hk.
      rewrite H1. apply list_elem_of_filter. split; [lia|].
      apply list_elem_of_fmap. exists f. split; [done|]. apply all_fields.
Qed.

End Reply.

End ServeTableFacts.

(** * The thread of the caller: namespaces and lock *)
Module ThreadFacts.
Import Unix Spacetest Api Service Props UnixFacts CallFacts ValidationFacts RoomFacts DecodeFacts KernelFacts.

Lemma go_and_receive_thread {A} typ (body : M A) K :
  cur (go_and_receive typ body K).2 = cur K
  /\ locked (go_and_receive typ body K).2 = locked K.
Proof. unfold go_and_receive. by destruct (body _). Qed.

Lemma unshare_thread req typ f st K :
  cur (unshare req typ f st K).2 = cur K
  /\ locked (unshare req typ f st K).2 = locked K.
Proof.
  unfold unshare. destruct (_ =? 0); [done|]. unfold bind.
  pose proof (go_and_receive_thread typ (newNamespace typ) K) as H.
  destruct (go_and_receive typ (newNamespace typ) K) as [res K1].
  by destruct res.2.
Qed.

Lemma run_units_thread req fs : forall st K,
  cur (run_units req fs st K).2 = cur K
  /\ locked (run_units req fs st K).2 = locked K.
Proof.
  induction fs as [|f fs IH]; intros st K; [done|].
  cbn [run_units]. unfold bind.
  pose proof (unshare_thread req (RoomsResponse.type_of f) f st K) as [H1 H2].
  destruct (unshare _ _ _ _ _) as [st' K']. cbn [fst snd] in *.
  destruct (IH st' K') as [H3 H4]. by rewrite H3, H4.
Qed.

Lemma close_if_open_thread fd K :
  cur (close_if_open fd K).2 = cur K /\ locked (close_if_open fd K).2 = locked K.
Proof.
  unfold close_if_open, bind, ret. destruct (0 <? fd); [|done].
  pose proof (Close_frame fd K) as (_ & Hc & Hl & _). by destruct (Close fd K).
Qed.

Lemma Room_finish_thread st K :
  cur (Room_finish st K).2 = cur K /\ locked (Room_finish st K).2 = locked K.
Proof.
  unfold Room_finish. destruct (decide _); [done|]. unfold bind, ret.
  repeat match goal with
    | |- context [close_if_open ?fd ?K] =>
        let Hc := fresh "Hc" in let Hl := fresh "Hl" in
        pose proof (close_if_open_thread fd K) as [Hc Hl];
        destruct (close_if_open fd K) as [[] ?]; cbn [fst snd] in Hc, Hl
    end.
  cbn [fst snd]. split; congruence.
Qed.

(** X14. [Room] runs every unit on a goroutine of its own and itself
    only closes descriptors: whatever the request and however the units
    end, the serving goroutine's thread is attached to the same namespaces
    and has the same lock count afterwards. *)
Theorem Room_keeps_serving_thread req K :
  cur (Room req K).2 = cur K /\ locked (Room req K).2 = locked K.
Proof.
  unfold Room. destruct (negb _); [done|]. destruct (_ =? 0); [done|].
  unfold bind. rewrite Room_units_run.
  pose proof (run_units_thread req RoomsResponse.fields
                (mkRoomState RoomsResponse.zero "" []) K) as [H1 H2].
  destruct (run_units _ _ _ _) as [st K1]. cbn [fst snd] in *.
  destruct (Room_finish_thread st K1) as [H3 H4]. split; congruence.
Qed.

Lemma keeps_lock_ret {A} (a : A) : keeps_lock (ret a).
Proof. intros K. split; [done|]. exists []. by rewrite app_nil_r. Qed.

Lemma keeps_lock_bind {A B} (m : M A) (k : A -> M B) :
  keeps_lock m -> (forall a, keeps_lock (k a)) -> keeps_lock (bind m k).
Proof.
  intros Hm Hk K. unfold bind. destruct (Hm K) as (Hl & evs & Ht & Hf).
  destruct (m K) as [a K1]. cbn [fst snd] in *.
  destruct (Hk a K1) as (Hl' & evs' & Ht' & Hf').
  split; [congruence|]. exists (evs ++ evs'). split.
  - by rewrite Ht', Ht, <- app_assoc.
  - by apply Forall_app.
Qed.

Lemma keeps_lock_one {A} (m : M A) e :
  e <> EvUnlockOSThread ->
  (forall K, locked (m K).2 = locked K /\ trace (m K).2 = trace K ++ [e]) ->
  keeps_lock m.
Proof.
  intros He H K. destruct (H K) as [Hl Ht]. split; [done|].
  exists [e]. split; [done|]. by constructor.
Qed.

Lemma keeps_lock_Open p : keeps_lock (Open p).
Proof.
  apply (keeps_lock_one _ (EvOpen p)); [done|]. intros K.
  destruct (Open p K) as [[fd|e] K'] eqn:E; cbn [snd].
  - by apply Open_Ok in E as (_ & _ & _ & _ & _ & ? & _ & ?).
  - by apply Open_Err in E as (_ & _ & ? & _ & ?).
Qed.

Lemma keeps_lock_Unshare flags : keeps_lock (Unshare flags).
Proof.
  apply (keeps_lock_one _ (EvUnshare flags)); [done|]. intros K.
  destruct (Unshare flags K) as [[u|e] K'] eqn:E; cbn [snd].
  - by apply Unshare_Ok in E as (_ & ? & _ & _ & ?).
  - by apply Unshare_Err in E as (_ & ? & _ & _ & ?).
Qed.

Lemma keeps_lock_Setns fd nstype : keeps_lock (Setns fd nstype).
Proof.
  apply (keeps_lock_one _ (EvSetns fd nstype)); [done|]. intros K.
  destruct (Setns fd nstype K) as [[u|e] K'] eqn:E; cbn [snd].
  - by apply Setns_Ok in E as (_ & _ & _ & _ & _ & _ & ? & _ & ?).
  - by apply Setns_Err in E as (_ & _ & ? & _ & ?).
Qed.

Lemma keeps_lock_Close fd : keeps_lock (Close fd).
Proof.
  apply (keeps_lock_one _ (EvClose fd)); [done|]. intros K.
  by destruct (Close_frame fd K) as (_ & _ & ? & _ & ?).
Qed.

Lemma keeps_lock_Mount : keeps_lock MountRootPrivate.
Proof.
  apply (keeps_lock_one _ EvMountRootPrivate); [done|]. intros K.
  unfold MountRootPrivate, next_fault. cbn. by destruct (faults K) as [|[e|] fs].
Qed.

(** X12. [newNamespace] locks its thread once and never unlocks it.
    When the first open fails it returns 0 and the error after the lock
    and that open alone; on every other path, successful or not, its last
    two calls are the deferred setns back to the caller's namespace and
    the close of the caller's handle. *)
Theorem newNamespace_never_unlocks typ K :
  let R := newNamespace typ K in
  let opened := EvOpen (ThreadSelfNs (Name typ)) in
  locked R.2 = S (locked K)
  /\ Forall (fun e => e <> EvUnlockOSThread) (events_since K R.2)
  /\ match (Open (ThreadSelfNs (Name typ)) (LockOSThread K).2).1 with
     | Err e =>
         R.1 = (0, Some e) /\ events_since K R.2 = [EvLockOSThread; opened]
     | Ok callerns =>
         exists mid,
           events_since K R.2
           = [EvLockOSThread; opened] ++ mid ++ [EvSetns callerns 0; EvClose callerns]
     end.
Proof.
  intros R opened. subst R opened.
  destruct (newNamespace typ K) as [res K4] eqn:EN. cbn [fst snd].
  revert EN. unfold newNamespace.
  unfold bind at 1. rewrite !LockOSThread_spec. cbn [fst snd].
  set (K0 := set_locked _ _).
  assert (HK0 : locked K0 = S (locked K) /\ trace K0 = trace K ++ [EvLockOSThread]) by done.
  destruct HK0 as [Hl0 Ht0]. clearbody K0.
  unfold bind at 1.
  destruct (keeps_lock_Open (ThreadSelfNs (Name typ)) K0) as (HlO & _).
  destruct (Open _ K0) as [[c|e] K1] eqn:EO; cbv beta iota; cbn [fst snd] in *.
  2:{ apply Open_Err in EO as (_ & _ & _ & _ & Ht). intros [= <- <-].
      assert (Hev : events_since K K1 = [EvLockOSThread; EvOpen (ThreadSelfNs (Name typ))]).
      { apply events_since_app. by rewrite Ht, Ht0, <- app_assoc. }
      split; [congruence|]. rewrite Hev. split; [|done].
      by repeat constructor. }
  apply Open_Ok in EO as (_ & _ & _ & _ & _ & _ & _ & Ht1).
  match goal with
  | |- context [bind ?inner ?k K1] =>
      assert (Hin : keeps_lock inner); [|
        assert (Hk : forall res, keeps_lock (k res))]
  end.
  { repeat first
      [ apply keeps_lock_Unshare | apply keeps_lock_Open | apply keeps_lock_Mount
      | match goal with |- keeps_lock (if ?b then _ else _) => destruct b end
      | match goal with |- keeps_lock (match ?r with Ok _ => _ | Err _ => _ end) =>
          destruct r end
      | apply keeps_lock_ret
      | apply keeps_lock_bind
      | intro ]. }
  { intros res'. repeat first
      [ apply keeps_lock_Setns | apply keeps_lock_Close
      | apply keeps_lock_ret | apply keeps_lock_bind | intro ]. }
  unfold bind at 1.
  destruct (Hin K1) as (Hl2 & mid & Ht2 & Hf2).
  match goal with |- context [let (_, _) := ?inner K1 in _] =>
    destruct (inner K1) as [res' K2] end.
  cbn [fst snd] in *.
  unfold bind, ret.
  pose proof (Setns_spec c 0 K2) as [HtS _].
  destruct (keeps_lock_Setns c 0 K2) as (HlS & _).
  destruct (Setns c 0 K2) as [rs K3]. cbn [fst snd] in *.
  pose proof (Close_frame c K3) as (_ & _ & HlC & _ & HtC).
  destruct (Close c K3) as [rc K5]. cbn [fst snd] in *.
  intros [= <- <-].
  assert (Hev : events_since K K5
                = [EvLockOSThread; EvOpen (ThreadSelfNs (Name typ))]
                  ++ mid ++ [EvSetns c 0; EvClose c]).
  { apply events_since_app. rewrite HtC, HtS, Ht2, Ht1, Ht0.
    rewrite <- !app_assoc. done. }
  split; [congruence|]. rewrite Hev. split; [|by exists mid].
  apply Forall_app. split; [by repeat constructor|].
  apply Forall_app. split; [done|]. by repeat constructor.
Qed.

End ThreadFacts.

(** * [newNamespace] where no call is refused *)
Module CoopFacts.
Import Unix Spacetest Api Service Props UnixFacts CallFacts ValidationFacts RoomFacts DecodeFacts KernelFacts.

Lemma Open_cooperative p K o :
  faults K = [] -> resolve p K = Some o ->
  Open p K = (Ok (alloc_fd (fdtab K)),
              set_fdtab (<[alloc_fd (fdtab K) := o]> (fdtab K)) (emit (EvOpen p) K)).
Proof.
  intros HF Hres. unfold Open, next_fault, install. cbn. rewrite HF.
  change (resolve p (emit (EvOpen p) K)) with (resolve p K). by rewrite Hres.
Qed.

Lemma Unshare_cooperative flags K :
  faults K = [] ->
  Unshare flags K
  = (Ok tt, set_nextid (S (nextid K))
              (set_cur (fun t => if Z.land flags t =? 0 then cur K t else nextid K)
                 (emit (EvUnshare flags) K))).
Proof. intros HF. unfold Unshare, next_fault. cbn. by rewrite HF. Qed.

Lemma Mount_cooperative K :
  faults K = [] -> MountRootPrivate K = (Ok tt, emit EvMountRootPrivate K).
Proof. intros HF. unfold MountRootPrivate, next_fault. cbn. by rewrite HF. Qed.

Lemma Setns_cooperative fd K typ id :
  faults K = [] -> fdtab K !! fd = Some (NsObj typ id) ->
  Setns fd 0 K
  = (Ok tt, set_cur (fun t => if t =? typ then id else cur K t) (emit (EvSetns fd 0) K)).
Proof.
  intros HF Hl. unfold Setns, next_fault. cbn [faults emit]. rewrite HF.
  change (fdtab (emit (EvSetns fd 0) K)) with (fdtab K). by rewrite Hl.
Qed.

(** X13. Where the environment refuses no call, [newNamespace] for
    cgroup, IPC, mount, net or UTS returns a positive descriptor that was
    free before and now references a namespace of the requested type
    created during the call; this is the only change to the descriptor
    table, and the thread is attached to the namespaces it had been
    attached to. *)
Theorem newNamespace_creates_and_returns typ K :
  typ ∈ [CLONE_NEWCGROUP; CLONE_NEWIPC; CLONE_NEWNS; CLONE_NEWNET; CLONE_NEWUTS] ->
  faults K = [] ->
  let R := newNamespace typ K in
  exists fd id,
    R.1 = (fd, None) /\ 0 < fd /\ fdtab K !! fd = None
    /\ fdtab R.2 = <[fd := NsObj typ id]> (fdtab K)
    /\ (nextid K <= id < nextid R.2)%nat
    /\ cur R.2 typ = cur K typ
    /\ (forall t, t ∈ ns_types -> cur R.2 t = cur K t).
Proof.
  intros Hty HF R. subst R.
  assert (Hns : typ ∈ ns_types).
  { revert Hty. unfold ns_types, hierarchical_types, flat_types. cbn [app].
    rewrite !elem_of_cons, !elem_of_nil. tauto. }
  pose proof (newNamespace_spec typ K) as [_ Hspec].
  assert (Hrun : exists fd id K',
             newNamespace typ K = ((fd, None), K')
             /\ (nextid K <= id < nextid K')%nat
             /\ fdtab K' !! fd = Some (NsObj typ id)
             /\ (forall t, t ∈ ns_types -> cur K' t = cur K t)).
  { unfold newNamespace, bind, ret. rewrite LockOSThread_spec.
    set (K0 := set_locked _ _).
    rewrite (Open_cooperative _ K0 (NsObj typ (cur K0 typ)))
      by (done || by apply resolve_thread_self).
    set (c := alloc_fd (fdtab K0)). set (K1 := set_fdtab _ _).
    destruct (Z.eqb_spec typ CLONE_NEWNS) as [->|Hne].
    - rewrite (Unshare_cooperative _ K1) by done.
      set (K2 := set_nextid _ _).
      rewrite (Unshare_cooperative _ K2) by done.
      set (K3 := set_nextid _ _).
      rewrite (Mount_cooperative K3) by done.
      set (K4 := emit _ K3).
      rewrite (Open_cooperative _ K4 (NsObj CLONE_NEWNS (cur K4 CLONE_NEWNS)))
        by (done || by apply resolve_thread_self).
      set (n := alloc_fd (fdtab K4)). set (K5 := set_fdtab _ _).
      assert (Hnc : n <> c).
      { intros Heq. pose proof (alloc_fd_fresh (fdtab K4)) as Hfr.
        fold n in Hfr. rewrite Heq in Hfr. subst K4 K3 K2 K1. cbn in Hfr.
        by rewrite lookup_insert_eq in Hfr. }
      rewrite (Setns_cooperative c K5 CLONE_NEWNS (cur K CLONE_NEWNS)).
      2:{ done. }
      2:{ subst K5 K4 K3 K2 K1. cbn. rewrite lookup_insert_ne by done.
          apply lookup_insert_eq. }
      set (K6 := set_cur _ _).
      pose proof (Close_frame c K6) as (Hcf & Hcc & _ & Hcn & _).
      destruct (Close c K6) as [rc K7]. cbn [fst snd] in *.
      exists n, (S (nextid K)), K7. split; [done|]. split; [|split].
      + rewrite Hcn. subst K6 K5 K4 K3 K2 K1 K0. cbn. lia.
      + rewrite Hcf, lookup_delete_ne by done. subst K6 K5 K4 K3 K2 K1 K0. cbn.
        apply lookup_insert_eq.
      + intros t Ht. rewrite Hcc. subst K6 K5 K4 K3 K2 K1 K0. cbn.
        assert (HNS : CLONE_NEWNS ∈ ns_types).
        { unfold ns_types, hierarchical_types, flat_types. cbn [app].
          rewrite !elem_of_cons. tauto. }
        pose proof (ns_types_disjoint _ _ HNS Ht) as Hd.
        destruct (Z.eqb_spec t CLONE_NEWNS) as [->|?]; [done|].
        cbn [negb] in Hd. rewrite Hd.
        assert (HFS : (Z.land CLONE_FS t =? 0) = true).
        { revert Ht. unfold ns_types, hierarchical_types, flat_types. cbn [app].
          rewrite !elem_of_cons, elem_of_nil. intros H.
          repeat (destruct H as [->|H]; [reflexivity|]). done. }
        by rewrite HFS.
    - rewrite (Unshare_cooperative _ K1) by done.
      set (K2 := set_nextid _ _).
      rewrite (Open_cooperative _ K2 (NsObj typ (cur K2 typ)))
        by (done || by apply resolve_thread_self).
      set (n := alloc_fd (fdtab K2)). set (K5 := set_fdtab _ _).
      assert (Hnc : n <> c).
      { intros Heq. pose proof (alloc_fd_fresh (fdtab K2)) as Hfr.
        fold n in Hfr. rewrite Heq in Hfr. subst K2 K1. cbn in Hfr.
        by rewrite lookup_insert_eq in Hfr. }
      rewrite (Setns_cooperative c K5 typ (cur K typ)).
      2:{ done. }
      2:{ subst K5 K2 K1. cbn. rewrite lookup_insert_ne by done.
          apply lookup_insert_eq. }
      set (K6 := set_cur _ _).
      pose proof (Close_frame c K6) as (Hcf & Hcc & _ & Hcn & _).
      destruct (Close c K6) as [rc K7]. cbn [fst snd] in *.
      exists n, (nextid K), K7. split; [done|]. split; [|split].
      + rewrite Hcn. subst K6 K5 K2 K1 K0. cbn. lia.
      + rewrite Hcf, lookup_delete_ne by done. subst K6 K5 K2 K1 K0. cbn.
        rewrite (ns_types_disjoint _ _ Hns Hns), Z.eqb_refl. cbn [negb].
        apply lookup_insert_eq.
      + intros t Ht. rewrite Hcc. subst K6 K5 K2 K1 K0. cbn.
        rewrite (ns_types_disjoint _ _ Hns Ht).
        by destruct (Z.eqb_spec t typ) as [->|?]. }
  destruct Hrun as (fd & id & K' & Hrun & Hid & Hlook & Hcur).
  rewrite Hrun in *. cbn [fst snd] in *.
  destruct Hspec as (Hpos & Hfresh & typ' & id' & _ & Hft).
  exists fd, id. split; [done|]. split; [done|]. split; [done|].
  rewrite Hft, lookup_insert_eq in Hlook. injection Hlook as -> ->.
  split; [done|]. split; [done|]. split; [by apply Hcur|done].
Qed.

End CoopFacts.

(** * [goInAndOut]: the namespaces of the thread, and panics *)
Module InAndOutFacts.
Import Unix Spacetest Api Service Props UnixFacts CallFacts ValidationFacts RoomFacts DecodeFacts ExecuteFacts KernelFacts.

Lemma saved_of_app tab t l1 l2 :
  saved_of tab t (l1 ++ l2)
  = match saved_of tab t l1 with Some id => Some id | None => saved_of tab t l2 end.
Proof.
  induction l1 as [|fd l1 IH]; [done|]. cbn [app saved_of].
  destruct (tab !! fd) as [[t' id| |]|]; try done. by destruct (t' =? t).
Qed.

Lemma saved_of_agree tab tab' t fds :
  (forall fd, fd ∈ fds -> tab' !! fd = tab !! fd) ->
  saved_of tab' t fds = saved_of tab t fds.
Proof.
  induction fds as [|fd fds IH]; intros H; [done|]. cbn [saved_of].
  rewrite (H fd) by (by left). rewrite IH; [done|].
  intros x Hx. apply H. by right.
Qed.

(** The restoring loop, when it goes through. *)
Lemma restore_cur fds : forall K K',
  restore fds K = (Returned tt, K') ->
  forall t, cur K' t = match saved_of (fdtab K) t (rev fds) with
                       | Some id => id
                       | None => cur K t
                       end.
Proof.
  induction fds as [|fd rest IH]; intros K K'.
  { intros [= <-]. done. }
  cbn [restore]. unfold bind.
  destruct (Setns fd 0 K) as [[u|e] K1] eqn:ES.
  2:{ unfold Type_fd, bind, ret. destruct (IoctlRetInt_NSTYPE fd K1) as [r K2].
      by destruct r.2. }
  intros HR t. apply Setns_Ok in ES as (typ & id & Hlook & _ & Hc & Hf & _).
  rewrite (IH _ _ HR t), Hf. cbn [rev]. rewrite saved_of_app.
  destruct (saved_of (fdtab K) t (rev rest)); [done|].
  cbn [saved_of]. rewrite Hlook, Hc. rewrite (Z.eqb_sym t typ).
  by destruct (typ =? t).
Qed.

Lemma Name_known typ : Name typ <> "" -> typ ∈ ns_types.
Proof.
  unfold Name, ns_types, hierarchical_types, flat_types. cbn [app].
  rewrite !elem_of_cons.
  repeat match goal with
         | |- context [typ =? ?c] => destruct (Z.eqb_spec typ c) as [->|?]; [tauto|]
         end.
  done.
Qed.

Lemma Name_of_type typ : typ ∈ ns_types -> Name typ <> "".
Proof.
  unfold ns_types, hierarchical_types, flat_types. cbn [app].
  rewrite !elem_of_cons, elem_of_nil.
  intros H. repeat (destruct H as [->|H]; [by vm_compute|]). done.
Qed.

(** X29. [Current] either returns a descriptor that was free before
    and now references the namespace of the given type the thread is
    attached to, after the open and the scheduling of the deferred close
    of that descriptor, the only change to the descriptor table; or it
    fails with the table unchanged and at most the open attempted, and
    for a value that is none of the eight types it fails with "unknown
    type of namespace" before any call. *)
Theorem Current_opens_current_namespace typ K :
  let R := Current typ K in
  match R.1 with
  | Returned fd =>
      typ ∈ ns_types
      /\ fdtab K !! fd = None
      /\ fdtab R.2 = <[fd := NsObj typ (cur K typ)]> (fdtab K)
      /\ events_since K R.2 = [EvOpen (ThreadSelfNs (Name typ)); EvDeferCleanup fd]
  | Panicked m =>
      fdtab R.2 = fdtab K
      /\ Forall (fun e => e = EvOpen (ThreadSelfNs (Name typ))) (events_since K R.2)
      /\ (typ ∉ ns_types -> R.2 = K /\ m = "unknown type of namespace " +:+ pretty typ)
  end.
Proof.
  intros R. subst R. unfold Current.
  destruct (decide (Name typ = "")) as [Hn|Hn].
  { unfold ret. cbn [fst snd]. split; [done|]. split; [|done].
    unfold events_since. rewrite drop_all. constructor. }
  pose proof (Name_known _ Hn) as Hns.
  unfold bind.
  destruct (Open _ K) as [[fd|e] K1] eqn:EO.
  - apply Open_Ok in EO as (o & Hres & Hfd & Hft & _ & _ & _ & Ht).
    rewrite resolve_thread_self in Hres by done. injection Hres as <-.
    unfold DeferCleanup_close, ret. cbn [fst snd]. split; [done|].
    split; [rewrite Hfd; apply alloc_fd_fresh|]. split; [done|].
    apply events_since_app. cbn. by rewrite Ht, <- app_assoc.
  - apply Open_Err in EO as (Hft & _ & _ & _ & Ht). unfold ret. cbn [fst snd].
    split; [done|]. split; [|done].
    rewrite (events_since_app _ _ _ Ht). by repeat constructor.
Qed.

(** The attach loop, when it goes through: the descriptor table only
    grows, and the first handle recorded for a type references the
    namespace the thread was in when the loop started. *)
Lemma attach_saved nsfds : forall acc K recorded K1,
  attach nsfds acc K = ((recorded, Returned tt), K1) ->
  exists new,
    recorded = acc ++ new
    /\ (forall fd, is_Some (fdtab K !! fd) -> fdtab K1 !! fd = fdtab K !! fd)
    /\ forall t, match saved_of (fdtab K1) t new with
                 | Some id => id = cur K t
                 | None => cur K1 t = cur K t
                 end.
Proof.
  induction nsfds as [|nsfd rest IH]; intros acc K recorded K1.
  { intros [= <- <-]. exists []. by rewrite app_nil_r. }
  cbn [attach]. unfold bind at 1. unfold Type_fd, bind at 1.
  pose proof (IoctlRetInt_NSTYPE_spec nsfd K) as [HK Hr].
  destruct (IoctlRetInt_NSTYPE nsfd K) as [r Ka]. cbn [fst snd] in *. subst Ka.
  unfold ret at 1 2.
  destruct r.2; [done|]. 
  set (typ := r.1). clearbody typ. clear Hr.
  unfold bind at 1. unfold Current.
  destruct (decide (Name typ = "")) as [|Hname]; [done|].
  apply Name_known in Hname.
  unfold bind at 1.
  destruct (Open _ _) as [[cfd|e] Kb] eqn:EO; [|done].
  apply Open_Ok in EO as (o & Hres & Hfd & Hft & Hc & _).
  rewrite resolve_thread_self in Hres by done. injection Hres as <-.
  cbn in Hfd, Hft, Hc.
  unfold DeferCleanup_close, bind at 1, ret at 1.
  set (Kc := emit (EvDeferCleanup cfd) Kb).
  unfold bind at 1.
  destruct (Setns nsfd typ Kc) as [[u|e] Kd] eqn:ES; [|done].
  apply Setns_Ok in ES as (typ' & id' & Hlook & Hor & Hsc & Hsf & _).
  assert (typ' = typ) as ->.
  { destruct Hor as [-> | ->]; [|done]. exfalso. revert Hname.
    unfold ns_types, hierarchical_types, flat_types. cbn [app].
    rewrite !elem_of_cons, elem_of_nil. intros H.
    repeat (destruct H as [H|H]; [discriminate H|]). done. }
  intros HA. destruct (IH _ _ _ _ HA) as (new & -> & Hgrow & Hsaved).
  assert (Hfresh : fdtab K !! cfd = None) by (rewrite Hfd; apply alloc_fd_fresh).
  assert (Htab : fdtab Kd = <[cfd := NsObj typ (cur K typ)]> (fdtab K)).
  { by rewrite Hsf. }
  exists (cfd :: new). split; [by rewrite <- app_assoc|]. split.
  - intros fd Hsome. rewrite Hgrow.
    + rewrite Htab, lookup_insert_ne; [done|]. intros <-.
      rewrite Hfresh in Hsome. by destruct Hsome.
    + rewrite Htab. destruct (decide (cfd = fd)) as [->|Hne].
      * rewrite lookup_insert_eq. eauto.
      * by rewrite lookup_insert_ne.
  - intros t. cbn [saved_of]. rewrite Hgrow, Htab, lookup_insert_eq.
    2:{ rewrite Htab, lookup_insert_eq. eauto. }
    destruct (Z.eqb_spec typ t) as [->|Hne]; [done|].
    specialize (Hsaved t). rewrite Hsc in Hsaved.
    apply not_eq_sym in Hne. apply Z.eqb_neq in Hne. rewrite Hne in Hsaved.
    cbn in Hsaved. rewrite Hc in Hsaved. done.
Qed.

(** X22. In and out: when the attach loop and the caller logic
    returned, the recorded handles are still in place and [goInAndOut]
    returns, the thread is back, for every type a handle was recorded
    for, in the namespace it was attached to when [goInAndOut] was called,
    also where two of the given namespaces have the same type; for every
    other type it stays where the caller logic left it; and the lock
    taken is released. *)
Theorem goInAndOut_restores_thread fn nsfds K recorded K1 K2 K3 :
  attach nsfds [] (LockOSThread K).2 = ((recorded, Returned tt), K1) ->
  fn K1 = (Returned tt, K2) ->
  (forall fd, fd ∈ recorded -> fdtab K2 !! fd = fdtab K1 !! fd) ->
  goInAndOut fn nsfds K = (Returned tt, K3) ->
  (forall t, cur K3 t = match saved_of (fdtab K1) t recorded with
                        | Some _ => cur K t
                        | None => cur K2 t
                        end)
  /\ (forall t, cur K2 t = cur K1 t -> cur K3 t = cur K t)
  /\ locked K3 = pred (locked K2).
Proof.
  intros HA Hfn Hkeep. unfold goInAndOut, bind.
  rewrite LockOSThread_spec in *. cbn [fst snd] in *.
  rewrite HA. cbn [fst snd]. rewrite Hfn. unfold deferred, bind, ret.
  destruct (restore (rev recorded) K2) as [[u|m] K4] eqn:ER; [|done].
  destruct u. unfold UnlockOSThread. intros [= <-].
  pose proof (restore_spec (rev recorded) K2) as (_ & Hl & _).
  rewrite ER in Hl. cbn [fst snd] in Hl.
  pose proof (restore_cur _ _ _ ER) as Hcur.
  destruct (attach_saved _ _ _ _ _ HA) as (new & Hnew & _ & Hsaved).
  cbn [app] in Hnew. subst new.
  assert (Hmain : forall t, cur K4 t = match saved_of (fdtab K1) t recorded with
                                       | Some _ => cur K t
                                       | None => cur K2 t
                                       end).
  { intros t. rewrite Hcur, rev_involutive.
    rewrite (saved_of_agree (fdtab K1) (fdtab K2) t recorded Hkeep).
    specialize (Hsaved t). destruct (saved_of (fdtab K1) t recorded); [|done].
    by rewrite Hsaved. }
  cbn. split; [done|]. split; [|by rewrite Hl].
  intros t Heq. rewrite Hmain. specialize (Hsaved t).
  destruct (saved_of (fdtab K1) t recorded); [done|]. by rewrite Heq, Hsaved.
Qed.

Lemma restore_silently_spec fds : forall K,
  fdtab (restore_silently fds K).2 = fdtab K
  /\ locked (restore_silently fds K).2 = locked K
  /\ trace (restore_silently fds K).2 = trace K ++ restore_events fds.
Proof.
  induction fds as [|fd rest IH]; intros K; cbn [restore_silently].
  { unfold ret. cbn. by rewrite app_nil_r. }
  unfold bind. pose proof (Setns_spec fd 0 K) as [Ht Hf].
  pose proof (Setns_locked fd 0 K) as Hl.
  destruct (Setns fd 0 K) as [r K1]. cbn [fst snd] in *.
  destruct (IH K1) as (Hf' & Hl' & Ht').
  split; [congruence|]. split; [congruence|].
  rewrite Ht', Ht. unfold restore_events. cbn [map]. by rewrite <- app_assoc.
Qed.

(** X21. When attaching fails or the caller logic panics, [goInAndOut]
    ends with that same panic, after one setns per recorded handle in
    reverse order whose errors are dropped; it closes nothing and leaves
    the thread locked. *)
Theorem goInAndOut_repanics fn nsfds K recorded a K1 m K2 :
  attach nsfds [] (LockOSThread K).2 = ((recorded, a), K1) ->
  match a with
  | Returned _ => fn K1
  | Panicked m' => (Panicked m', K1)
  end = (Panicked m, K2) ->
  let R := goInAndOut fn nsfds K in
  R.1 = Panicked m
  /\ events_since K2 R.2 = restore_events (rev recorded)
  /\ fdtab R.2 = fdtab K2
  /\ locked R.2 = locked K2.
Proof.
  intros HA Hbody R. subst R. unfold goInAndOut, bind.
  rewrite LockOSThread_spec in *. cbn [fst snd] in *.
  rewrite HA. cbn [fst snd].
  assert (Hb : forall B (k : Outcome unit -> M B),
             (let (body, K') := (match a with
                                 | Returned _ => fn
                                 | Panicked m' => ret (Panicked m')
                                 end) K1 in k body K')
             = k (Panicked m) K2).
  { intros B k. destruct a; [by rewrite Hbody|]. unfold ret. by injection Hbody as -> ->. }
  rewrite Hb. unfold deferred, bind, ret.
  pose proof (restore_silently_spec (rev recorded) K2) as (Hf & Hl & Ht).
  destruct (restore_silently (rev recorded) K2) as [[] K3]. cbn [fst snd] in *.
  split; [done|]. split; [by apply events_since_app|done].
Qed.

End InAndOutFacts.

(** * The descriptors [NewPair] and [Subspace] leave behind *)
Module TableFacts.
Import Unix Spacetest Api Service Props UnixFacts CallFacts ValidationFacts RoomFacts DecodeFacts ServeFacts ApiFacts KernelFacts ServeTableFacts.

(** Closing what was just installed at a free place undoes it. *)
Lemma delete_insert_fresh (t : gmap Z Obj) k o :
  t !! k = None -> delete k (<[k := o]> t) = t.
Proof. intros H. rewrite delete_insert_eq. by apply delete_id. Qed.

Lemma NewPair_table K :
  match (Uds.NewPair K).1 with
  | Err _ => fdtab (Uds.NewPair K).2 = fdtab K
  | Ok (dupond, dupont) =>
      dupond <> dupont
      /\ fdtab K !! dupond = None /\ fdtab K !! dupont = None
      /\ fdtab (Uds.NewPair K).2
         = <[dupont := SockObj (nextid K) true]>
             (<[dupond := SockObj (nextid K) false]> (fdtab K))
  end.
Proof.
  unfold Uds.NewPair, Uds.NewUnixConn, bind, ret.
  destruct (Socketpair K) as [[[a b]|e] K1] eqn:ES.
  2:{ cbn. by apply Socketpair_Err in ES. }
  apply Socketpair_Ok in ES as (Ha & Hb & Hab & _ & _ & Ht1).
  destruct (Dup a K1) as [[c|e] K2] eqn:ED1.
  - apply Dup_Ok in ED1 as (o & Ho & Hc & _ & _ & Ht2).
    rewrite Ht1, lookup_insert_ne, lookup_insert_eq in Ho by done.
    injection Ho as <-.
    pose proof (Close_fdtab a K2) as Ht3.
    destruct (Close a K2) as [r3 K3]. cbn [fst snd] in *.
    destruct (Dup b K3) as [[d|e] K4] eqn:ED2.
    + apply Dup_Ok in ED2 as (o & Ho & Hd & _ & _ & Ht4).
      pose proof (Close_fdtab b K4) as Ht5.
      destruct (Close b K4) as [r5 K5]. cbn [fst snd] in *.
      rewrite Ht1 in Hc. rewrite Ht3, Ht2, Ht1 in Ho, Hd.
      assert (Hcb : c <> b) by (intros ->; by rewrite lookup_insert_eq in Hc).
      rewrite lookup_insert_ne in Hc by done.
      assert (Hca : c <> a) by (intros ->; by rewrite lookup_insert_eq in Hc).
      rewrite lookup_insert_ne in Hc by done.
      rewrite lookup_delete_ne, lookup_insert_ne, lookup_insert_eq in Ho by done.
      injection Ho as <-.
      assert (Hdc : d <> c).
      { intros ->. rewrite lookup_delete_ne, lookup_insert_eq in Hd by done. done. }
      assert (Hdb : d <> b).
      { intros ->. rewrite lookup_delete_ne, lookup_insert_ne, lookup_insert_eq in Hd by done.
        done. }
      assert (HdK : fdtab K !! d = None).
      { destruct (decide (d = a)) as [->|Hda]; [done|].
        by rewrite lookup_delete_ne, !lookup_insert_ne in Hd by done. }
      split; [done|]. split; [done|]. split; [done|].
      rewrite Ht5, Ht4, Ht3, Ht2, Ht1. apply map_eq. intros k.
      destruct (decide (k = d)) as [->|Hkd].
      { rewrite lookup_delete_ne, !lookup_insert_eq by done. done. }
      destruct (decide (k = c)) as [->|Hkc].
      { rewrite lookup_insert_ne, lookup_insert_eq by done.
        rewrite lookup_delete_ne, lookup_insert_ne, lookup_delete_ne, lookup_insert_eq by done.
        done. }
      rewrite !(lookup_insert_ne _ d), !(lookup_insert_ne _ c) by done.
      destruct (decide (k = b)) as [->|Hkb]; [by rewrite lookup_delete_eq, Hb|].
      rewrite lookup_delete_ne, lookup_insert_ne by done.
      destruct (decide (k = a)) as [->|Hka]; [by rewrite lookup_delete_eq, Ha|].
      rewrite lookup_delete_ne, !lookup_insert_ne by done. done.
    + apply Dup_Err in ED2.
      pose proof (Close_fdtab b K4) as Ht5.
      destruct (Close b K4) as [r5 K5]. cbn [fst snd] in *.
      pose proof (Close_fdtab c K5) as Ht6.
      destruct (Close c K5) as [r6 K6]. cbn [fst snd] in *.
      rewrite Ht1 in Hc.
      assert (Hcb : c <> b) by (intros ->; by rewrite lookup_insert_eq in Hc).
      rewrite lookup_insert_ne in Hc by done.
      assert (Hca : c <> a) by (intros ->; by rewrite lookup_insert_eq in Hc).
      rewrite lookup_insert_ne in Hc by done.
      rewrite Ht6, Ht5, ED2, Ht3, Ht2, Ht1. apply map_eq. intros k.
      destruct (decide (k = c)) as [->|Hkc]; [by rewrite lookup_delete_eq, Hc|].
      rewrite lookup_delete_ne by done.
      destruct (decide (k = b)) as [->|Hkb]; [by rewrite lookup_delete_eq, Hb|].
      rewrite lookup_delete_ne by done.
      destruct (decide (k = a)) as [->|Hka]; [by rewrite lookup_delete_eq, Ha|].
      rewrite lookup_delete_ne, !lookup_insert_ne by done. done.
  - apply Dup_Err in ED1.
    pose proof (Close_fdtab a K2) as Ht3.
    destruct (Close a K2) as [r3 K3]. cbn [fst snd] in *.
    pose proof (Close_fdtab b K3) as Ht5.
    destruct (Close b K3) as [r5 K5]. cbn [fst snd] in *.
    rewrite Ht5, Ht3, ED1, Ht1. apply map_eq. intros k.
    destruct (decide (k = b)) as [->|Hkb]; [by rewrite lookup_delete_eq, Hb|].
    rewrite lookup_delete_ne by done.
    destruct (decide (k = a)) as [->|Hka]; [by rewrite lookup_delete_eq, Ha|].
    rewrite lookup_delete_ne, !lookup_insert_ne by done. done.
Qed.

(** X16. [uds.NewPair] leaks nothing: when it fails the descriptor
    table is as before, and when it succeeds the two connections are
    distinct descriptors that were free before and now hold the two ends
    of one new socket pair, the only change to the table; the descriptors
    socketpair handed out are closed. *)
Theorem NewPair_leaves_only_connections K :
  match (Uds.NewPair K).1 with
  | Err _ => fdtab (Uds.NewPair K).2 = fdtab K
  | Ok (dupond, dupont) =>
      dupond <> dupont
      /\ fdtab K !! dupond = None /\ fdtab K !! dupont = None
      /\ fdtab (Uds.NewPair K).2
         = <[dupont := SockObj (nextid K) true]>
             (<[dupond := SockObj (nextid K) false]> (fdtab K))
  end.
Proof. apply NewPair_table. Qed.

Ltac tab_step :=
  match goal with
  | |- context [Dup ?fd ?K] =>
      let H := fresh "HD" in
      pose proof (Dup_tab fd K) as H;
      destruct (Dup fd K) as [[?|?] ?]; cbn [fst snd] in H
  | |- context [Open ?p ?K] =>
      let H := fresh "HO" in
      pose proof (Open_tab p K) as H;
      destruct (Open p K) as [[?|?] ?]; cbn [fst snd] in H
  | |- context [Start ?x ?f ?e ?K] =>
      let H := fresh "HS" in
      pose proof (Start_fdtab x f e K) as H;
      destruct (Start x f e K) as [[?|?] ?]; cbn [fst snd] in H
  | |- context [Close ?fd ?K] =>
      let H := fresh "HC" in
      pose proof (Close_fdtab fd K) as H;
      destruct (Close fd K) as [? ?]; cbn [fst snd] in H
  | |- context [if negb (?x =? 0) then _ else _] =>
      let E := fresh "Ereq" in
      destruct (x =? 0) eqn:E; cbn [negb]
  end; cbv beta iota.

(** All the tables of a run in terms of the first. *)
Ltac tab_unfold :=
  repeat match goal with
    | H : _ /\ _ |- _ => destruct H
    | H : exists _, _ |- _ => destruct H
    end;
  repeat match goal with
    | H : fdtab ?K = _ |- _ => is_var K; rewrite H in *; clear H
    end;
  repeat match goal with
    | H : <[_ := _]> _ !! _ = None |- _ =>
        apply lookup_insert_None in H; destruct H
    end.

Ltac tab_lookup :=
  repeat first
    [ rewrite lookup_delete_eq
    | rewrite lookup_insert_eq
    | rewrite lookup_delete_ne by done
    | rewrite lookup_insert_ne by done ].

(** Two tables agree when they agree at every descriptor the run
    touched and elsewhere. *)
Ltac tab_key kk :=
  repeat match goal with
    | |- context [delete ?x _ !! kk] =>
        destruct (decide (kk = x)) as [->|?];
        [by tab_lookup|rewrite (lookup_delete_ne _ x kk) by done]
    | |- context [<[?x := _]> _ !! kk] =>
        destruct (decide (kk = x)) as [->|?];
        [by tab_lookup|rewrite (lookup_insert_ne _ x kk) by done]
    end;
  try done.

Ltac tab_eq :=
  let kk := fresh "kk" in
  apply map_eq; intros kk; tab_key kk.

(** What the descriptors of a run reference. *)
Ltac tab_objs :=
  repeat match goal with
    | H : _ !! _ = Some _ |- _ =>
        progress (repeat first
          [ rewrite lookup_insert_eq in H
          | rewrite lookup_insert_ne in H by done ])
    end;
  repeat match goal with
    | H : Some _ = Some ?x |- _ => is_var x; injection H as <-
    end;
  repeat match goal with
    | H : resolve (PidNs _ _) _ = Some _ |- _ =>
        let Hn := fresh "Hn" in
        apply resolve_PidNs_type in H as (? & ? & Hn & ->);
        first [ change (nstype_of_name "user") with (Some CLONE_NEWUSER) in Hn
              | change (nstype_of_name "pid") with (Some CLONE_NEWPID) in Hn ];
        injection Hn as <-
    end.

(** A descriptor handed out while descriptor 0 was taken is positive. *)
Ltac tab_pos :=
  match goal with
  | H : 0 <= ?x |- 0 < ?x =>
      let Hz := fresh "Hz" in
      assert (Hz : x <> 0);
      [ intros ->;
        repeat match goal with
          | H' : is_Some (_ !! 0) |- _ =>
              repeat first
                [ rewrite lookup_insert_eq in H'
                | rewrite lookup_insert_ne in H' by done ];
              first
                [ match type of H' with is_Some (Some _) => clear H' end
                | match goal with
                  | Hn : ?t !! 0 = None |- _ =>
                      rewrite Hn in H'; by destruct H'
                  end ]
          end
      | apply Z.le_neq; split; [exact H|intros Heq; apply Hz; by symmetry] ]
  end.

Ltac tab_frame :=
  let kk := fresh "kk" in
  let H1 := fresh "Hk" in let H2 := fresh "Hk" in let H3 := fresh "Hk" in
  intros kk H1 H2 H3;
  try specialize (H2 eq_refl); try specialize (H3 eq_refl);
  tab_key kk.

(** The descriptor table [Subspace] leaves behind, path by path. *)
Lemma Subspace_table s req K :
  let R := Subspace s req K in
  match R.1 with
  | Panicked _ => fdtab R.2 = fdtab K
  | Returned (ErrorResponse _) =>
      fdtab R.2 = fdtab K \/ fdtab R.2 = delete 0 (fdtab K)
  | Returned (SubspaceResp r) =>
      0 < SubspaceResponse.Conn r
      /\ fdtab K !! SubspaceResponse.Conn r = None
      /\ (exists id, fdtab R.2 !! SubspaceResponse.Conn r = Some (SockObj id false))
      /\ (if requested (SubspaceRequest.Spaces req) CLONE_NEWUSER
          then 0 < SubspaceResponse.User r
               /\ fdtab K !! SubspaceResponse.User r = None
               /\ kernel_type R.2 (SubspaceResponse.User r) = Some CLONE_NEWUSER
          else SubspaceResponse.User r = 0)
      /\ (if requested (SubspaceRequest.Spaces req) CLONE_NEWPID
          then 0 < SubspaceResponse.PID r
               /\ fdtab K !! SubspaceResponse.PID r = None
               /\ kernel_type R.2 (SubspaceResponse.PID r) = Some CLONE_NEWPID
          else SubspaceResponse.PID r = 0)
      /\ (forall k, k <> SubspaceResponse.Conn r ->
                    (requested (SubspaceRequest.Spaces req) CLONE_NEWUSER = true ->
                     k <> SubspaceResponse.User r) ->
                    (requested (SubspaceRequest.Spaces req) CLONE_NEWPID = true ->
                     k <> SubspaceResponse.PID r) ->
                    fdtab R.2 !! k = fdtab K !! k)
  | Returned (RoomsResp _) => False
  end.
Proof.
  intros R. subst R.
  destruct (Subspace s req K) as [out K'] eqn:EQ. cbn [fst snd]. revert EQ.
  unfold Subspace.
  destruct (negb _); [intros [= <- <-]; by left|].
  destruct (_ =? 0); [intros [= <- <-]; by left|].
  unfold bind at 1.
  pose proof (NewPair_table K) as HP.
  destruct (Uds.NewPair K) as [[[c d]|e] K1]; cbn [fst snd] in HP;
    cbv beta iota; [|unfold ret; by intros [= <- <-]].
  destruct HP as (Hcd & Hc & Hd & HT1).
  unfold Subspace_start, Uds.File, Uds.Close_conn, Subspace_namespaces, bind, ret, requested.
  cbv beta iota.
  tab_step.
  2:{ repeat tab_step; intros [= <- <-]; left; tab_unfold; tab_eq. }
  repeat tab_step; intros [= <- <-]; unfold kernel_type; tab_unfold.
  all: try (left; tab_eq; fail).
  all: tab_objs.
  all: cbn [SubspaceResponse.Conn SubspaceResponse.User SubspaceResponse.PID].
  all: try (right;
            repeat match goal with
              | |- context [delete ?x (delete 0 ?m)] => rewrite (delete_delete m x 0)
              end;
            f_equal; tab_eq; fail).
  all: split; [tab_pos|].
  all: split; [done|].
  all: split; [eexists; by tab_lookup|].
  all: split; [first [done | split; [tab_pos|split; [done|by tab_lookup]]]|].
  all: split; [first [done | split; [tab_pos|split; [done|by tab_lookup]]]|].
  all: tab_frame.
Qed.

(** X17. [Subspace] leaks nothing of its own.  When it panics the
    descriptor table is as before; when it answers with an ErrorResponse
    the table is as before, except that descriptor 0 may have been
    closed; when it answers with a SubspaceResponse every descriptor is
    as before or is one of the returned handles, each of which is
    positive and was free before, and the connection handle is the
    client's end of the socket pair. *)
Theorem Subspace_leaves_only_returned_handles s req K :
  let R := Subspace s req K in
  match R.1 with
  | Panicked _ => fdtab R.2 = fdtab K
  | Returned (ErrorResponse _) =>
      fdtab R.2 = fdtab K \/ fdtab R.2 = delete 0 (fdtab K)
  | Returned (SubspaceResp r) =>
      (exists id, fdtab R.2 !! SubspaceResponse.Conn r = Some (SockObj id false))
      /\ forall k, fdtab R.2 !! k = fdtab K !! k
                   \/ (k ∈ [SubspaceResponse.Conn r; SubspaceResponse.User r;
                             SubspaceResponse.PID r]
                       /\ 0 < k /\ fdtab K !! k = None)
  | Returned (RoomsResp _) => False
  end.
Proof.
  intros R. subst R. pose proof (Subspace_table s req K) as HT. cbn zeta in HT.
  destruct (Subspace s req K) as [[[reason|r|r]|m] K1]; cbn [fst snd] in *; try done.
  destruct HT as (Hpos & Hfree & Hconn & Hu & Hp & Hframe). split; [done|].
  intros k.
  destruct (decide (k = SubspaceResponse.Conn r)) as [->|Hc].
  { right. split; [by left|done]. }
  destruct (requested (SubspaceRequest.Spaces req) CLONE_NEWUSER) eqn:Eu.
  - destruct Hu as (Hupos & Hufree & _).
    destruct (decide (k = SubspaceResponse.User r)) as [->|Hku].
    { right. split; [right; by left|done]. }
    destruct (requested (SubspaceRequest.Spaces req) CLONE_NEWPID) eqn:Ep.
    + destruct Hp as (Hppos & Hpfree & _).
      destruct (decide (k = SubspaceResponse.PID r)) as [->|Hkp].
      { right. split; [right; right; by left|done]. }
      left. by apply Hframe.
    + left. by apply Hframe.
  - destruct (requested (SubspaceRequest.Spaces req) CLONE_NEWPID) eqn:Ep.
    + destruct Hp as (Hppos & Hpfree & _).
      destruct (decide (k = SubspaceResponse.PID r)) as [->|Hkp].
      { right. split; [right; right; by left|done]. }
      left. by apply Hframe.
    + left. by apply Hframe.
Qed.

(** X20. One turn of the serving loop on a SubspaceRequest that
    [Subspace] answered, from the dispatch to the closes after the send,
    leaves the descriptor table of the service as it was, except that
    descriptor 0 may have been closed, provided the response could be
    encoded. *)
Theorem Serve_subspace_turn_keeps_table {Bytes : Type}
    (gob_encode : Response -> Result Bytes) s req K resp K1 msg :
  Subspace s req K = (Returned resp, K1) ->
  gob_encode resp = Ok msg ->
  let K2 := (Serve_reply gob_encode resp K1).2 in
  fdtab K2 = fdtab K \/ fdtab K2 = delete 0 (fdtab K).
Proof.
  intros HS Henc K2. subst K2.
  pose proof (Serve_reply_table gob_encode resp K1 msg Henc) as (Hin & Hout & _).
  cbn zeta in Hin, Hout.
  pose proof (Subspace_table s req K) as HT. cbn zeta in HT. rewrite HS in HT.
  cbn [fst snd] in HT.
  destruct resp as [reason|r|r]; [| |done].
  - assert (Heq : fdtab (Serve_reply gob_encode (ErrorResponse reason) K1).2 = fdtab K1).
    { apply map_eq. intros k. apply Hout. cbn. apply not_elem_of_nil. }
    rewrite Heq. done.
  - left. destruct HT as (Hpos & Hfresh & _ & Hu & Hp & Hframe).
    cbn [EncodeFds] in Hin, Hout.
    pose proof (subspace_EncodeFds_spec r) as (H1 & _).
    cbn zeta in H1.
    destruct (SubspaceResponse.EncodeFds r) as [fds r']. cbn [fst snd] in *.
    apply map_eq. intros k.
    destruct (decide (k ∈ fds)) as [Hk|Hk].
    + rewrite Hin by done. rewrite H1 in Hk.
      apply list_elem_of_filter in Hk as [Hkpos Hk].
      rewrite !elem_of_cons, elem_of_nil in Hk.
      destruct Hk as [->|[->|[->|[]]]]; [done| |].
      * destruct (requested _ CLONE_NEWUSER); [by destruct Hu as (_ & ? & _)|lia].
      * destruct (requested _ CLONE_NEWPID); [by destruct Hp as (_ & ? & _)|lia].
    + rewrite Hout by done. apply Hframe.
      * intros ->. apply Hk. rewrite H1. apply list_elem_of_filter.
        split; [done|]. by left.
      * intros Hreq ->. rewrite Hreq in Hu. destruct Hu as (Hupos & _).
        apply Hk. rewrite H1. apply list_elem_of_filter.
        split; [done|]. right. by left.
      * intros Hreq ->. rewrite Hreq in Hp. destruct Hp as (Hppos & _).
        apply Hk. rewrite H1. apply list_elem_of_filter.
        split; [done|]. right. right. by left.
Qed.

End TableFacts.

(** * Concrete runs *)
Module Runs.
Import Unix Spacetest Api Service Props UnixFacts CallFacts ValidationFacts RoomFacts DecodeFacts.
Import ApiFacts KernelFacts TransientFacts ServeTableFacts ThreadFacts CoopFacts InAndOutFacts.
Import TableFacts.

(** A run is what it returns together with the state it leaves. *)
Ltac by_run :=
  match goal with
  | |- ?f = (_, _) => transitivity (f.1, f.2); [by destruct f|reflexivity]
  end.

(** A net namespace handle sent and received. *)
Lemma rooms_EncodeFds_DecodeFds_round_trip_witness :
  let r := RoomsResponse.mk 0 0 0 7 0 0 in
  let K := holding 7 (NsObj CLONE_NEWNET 1) boot in
  let E := RoomsResponse.EncodeFds r in
  let R := RoomsResponse.DecodeFds E.1 E.2 K in
  R.1 = r /\ fdtab R.2 = fdtab K /\ events_since K R.2 = map EvNsType E.1.
Proof.
  intros r K.
  apply (rooms_EncodeFds_DecodeFds_round_trip r K).
  intros f Hf. destruct f; cbn in Hf; try lia. reflexivity.
Defined.

(** A connection and a user namespace handle sent and received. *)
Lemma subspace_EncodeFds_DecodeFds_round_trip_witness :
  let s := SubspaceResponse.mk 5 6 0 in
  let K := holding 6 (NsObj CLONE_NEWUSER 3) (holding 5 (SockObj 1 false) boot) in
  let E := SubspaceResponse.EncodeFds s in
  let R := SubspaceResponse.DecodeFds E.1 E.2 K in
  R.1 = Returned s /\ fdtab R.2 = fdtab K
  /\ events_since K R.2 = map EvNsType (tail E.1).
Proof.
  intros s K.
  apply (subspace_EncodeFds_DecodeFds_round_trip s K).
  - cbn. lia.
  - intros _. reflexivity.
  - cbn. lia.
Defined.

(** A response without connection: the user handle takes its place. *)
Lemma subspace_decode_without_conn_misplaces_user_witness :
  let s := SubspaceResponse.mk 0 6 0 in
  let K := holding 6 (NsObj CLONE_NEWUSER 3) boot in
  let E := SubspaceResponse.EncodeFds s in
  let R := SubspaceResponse.DecodeFds E.1 E.2 K in
  exists s', R.1 = Returned s'
    /\ SubspaceResponse.Conn s' = SubspaceResponse.User s
    /\ (SubspaceResponse.User s' = 0
        \/ SubspaceResponse.User s' = SubspaceResponse.PID s).
Proof.
  intros s K.
  apply (subspace_decode_without_conn_misplaces_user s K); cbn; lia.
Defined.

(** Two net namespace handles received: the first one is shadowed. *)
Lemma rooms_DecodeFds_shadowed_handle_leaks_witness :
  let K := holding 8 (NsObj CLONE_NEWNET 2) (holding 7 (NsObj CLONE_NEWNET 1) boot) in
  let R := RoomsResponse.DecodeFds [7; 8] RoomsResponse.zero K in
  (forall g, RoomsResponse.get g R.1 <> 7)
  /\ fdtab R.2 !! 7 = fdtab K !! 7
  /\ EvClose 7 ∉ events_since K R.2.
Proof.
  intros K.
  apply (rooms_DecodeFds_shadowed_handle_leaks [7; 8] RoomsResponse.zero K 7 RoomsResponse.FNet).
  - reflexivity.
  - vm_compute. discriminate.
  - intros g. destruct g; cbn; lia.
Defined.

(** A new net namespace from a freshly started process. *)
Lemma newNamespace_creates_and_returns_witness :
  let R := newNamespace CLONE_NEWNET boot in
  exists fd id,
    R.1 = (fd, None) /\ 0 < fd /\ fdtab boot !! fd = None
    /\ fdtab R.2 = <[fd := NsObj CLONE_NEWNET id]> (fdtab boot)
    /\ (nextid boot <= id < nextid R.2)%nat
    /\ cur R.2 CLONE_NEWNET = cur boot CLONE_NEWNET
    /\ (forall t, t ∈ ns_types -> cur R.2 t = cur boot t).
Proof.
  apply (newNamespace_creates_and_returns CLONE_NEWNET boot).
  - apply (bool_decide_unpack _). by vm_compute.
  - reflexivity.
Defined.

(** Answering with one net namespace handle. *)
Lemma Serve_reply_closes_every_handle_witness :
  let resp := RoomsResp (RoomsResponse.mk 0 0 0 7 0 0) in
  let K := holding 7 (NsObj CLONE_NEWNET 1) boot in
  let fds := (EncodeFds resp).1 in
  let R := Serve_reply (Bytes := Response) Ok resp K in
  (forall fd, fd ∈ fds -> fdtab R.2 !! fd = None)
  /\ (forall fd, fd ∉ fds -> fdtab R.2 !! fd = fdtab K !! fd)
  /\ events_since K R.2 = EvSendmsg fds :: map EvClose fds
  /\ (R.1 = Some (resp, fds) \/ R.1 = None).
Proof.
  intros resp K.
  apply (Serve_reply_closes_every_handle (Bytes := Response) Ok resp K resp).
  reflexivity.
Defined.

(** Serving the request for one net namespace. *)
Lemma Serve_rooms_turn_keeps_table_witness :
  let req := RoomsRequest.mk CLONE_NEWNET in
  fdtab (Serve_reply (Bytes := Response) Ok (Room req boot).1 (Room req boot).2).2
  = fdtab boot.
Proof.
  intros req.
  apply (Serve_rooms_turn_keeps_table (Bytes := Response) Ok req boot (Room req boot).1).
  reflexivity.
Defined.

(** Serving the request for a child user namespace. *)
Lemma Serve_subspace_turn_keeps_table_witness :
  let s := mkSpacemaker "" in
  let req := SubspaceRequest.mk CLONE_NEWUSER in
  let resp := SubspaceResp (SubspaceResponse.mk 7 8 0) in
  let K2 := (Serve_reply (Bytes := Response) Ok resp (Subspace s req boot).2).2 in
  fdtab K2 = fdtab boot \/ fdtab K2 = delete 0 (fdtab boot).
Proof.
  intros s req resp.
  apply (Serve_subspace_turn_keeps_table (Bytes := Response) Ok s req boot resp
           (Subspace s req boot).2 resp).
  - by_run.
  - reflexivity.
Defined.

(** The caller logic panics while attached to a net namespace. *)
Lemma goInAndOut_repanics_witness :
  let K := holding 3 (NsObj CLONE_NEWNET 7) boot in
  let fn : M (Outcome unit) := ret (Panicked "boom") in
  let K1 := (attach [3] [] (LockOSThread K).2).2 in
  let R := goInAndOut fn [3] K in
  R.1 = Panicked "boom"
  /\ events_since K1 R.2 = restore_events (rev [4])
  /\ fdtab R.2 = fdtab K1
  /\ locked R.2 = locked K1.
Proof.
  intros K fn K1.
  apply (goInAndOut_repanics fn [3] K [4] (Returned tt) K1 "boom" K1).
  - by_run.
  - reflexivity.
Defined.

(** In and out of a net namespace. *)
Lemma goInAndOut_restores_thread_witness :
  let K := holding 3 (NsObj CLONE_NEWNET 7) boot in
  let fn : M (Outcome unit) := ret (Returned tt) in
  let K1 := (attach [3] [] (LockOSThread K).2).2 in
  let K3 := (goInAndOut fn [3] K).2 in
  (forall t, cur K3 t = match saved_of (fdtab K1) t [4] with
                        | Some _ => cur K t
                        | None => cur K1 t
                        end)
  /\ (forall t, cur K1 t = cur K1 t -> cur K3 t = cur K t)
  /\ locked K3 = pred (locked K1).
Proof.
  intros K fn K1 K3.
  apply (goInAndOut_restores_thread fn [3] K [4] K1 K1 K3).
  - by_run.
  - reflexivity.
  - reflexivity.
  - by_run.
Defined.

(** Into a transient net namespace and out again. *)
Lemma EnterTransient_leave_restores_witness :
  let K1 := (EnterTransient CLONE_NEWNET boot).2 in
  let K2 := (EnterTransient_leave CLONE_NEWNET 3 K1).2 in
  (cur K1 CLONE_NEWNET = nextid boot
   /\ (forall t, t ∈ ns_types -> t <> CLONE_NEWNET -> cur K1 t = cur boot t)
   /\ locked K1 = S (locked boot))
  /\ (cur K2 CLONE_NEWNET = cur boot CLONE_NEWNET
      /\ (forall t, t <> CLONE_NEWNET -> cur K2 t = cur K1 t)
      /\ fdtab K2 = delete 3 (fdtab K1)
      /\ locked K2 = pred (locked K1))
  /\ (fdtab K1 = fdtab K1 -> fdtab K2 = fdtab boot).
Proof.
  intros K1 K2.
  apply (EnterTransient_leave_restores CLONE_NEWNET boot 3 K1 K1 K2).
  - apply (bool_decide_unpack _). by vm_compute.
  - by_run.
  - reflexivity.
  - by_run.
Defined.

(** Entering where unshare is refused. *)
Lemma EnterTransient_failure_stays_locked_witness :
  let K := boot_refusing 1 "no space left on device" in
  let K' := (EnterTransient CLONE_NEWNET K).2 in
  locked K' = S (locked K)
  /\ ((events_since K K' = [EvLockOSThread; EvOpen (ThreadSelfNs (Name CLONE_NEWNET))]
       /\ fdtab K' = fdtab K)
      \/ (events_since K K'
          = [EvLockOSThread; EvOpen (ThreadSelfNs (Name CLONE_NEWNET));
             EvUnshare CLONE_NEWNET]
          /\ fdtab K !! alloc_fd (fdtab K) = None
          /\ fdtab K'
             = <[alloc_fd (fdtab K) := NsObj CLONE_NEWNET (cur K CLONE_NEWNET)]> (fdtab K))).
Proof.
  intros K K'.
  apply (EnterTransient_failure_stays_locked CLONE_NEWNET K
           "cannot create new net namespace" K').
  - apply (bool_decide_unpack _). by vm_compute.
  - by_run.
Defined.

(** Leaving with a handle that is not open. *)
Lemma EnterTransient_leave_failure_changes_nothing_witness :
  let K' := (EnterTransient_leave CLONE_NEWNET 3 boot).2 in
  fdtab K' = fdtab boot /\ cur K' = cur boot /\ locked K' = locked boot
  /\ events_since boot K' = [EvSetns 3 CLONE_NEWNET]
  /\ exists e, "leaving from EnterTransient: cannot restore original net namespace, reason: bad file descriptor"
               = "leaving from EnterTransient: cannot restore original "
                   +:+ Name CLONE_NEWNET +:+ " namespace, reason: " +:+ e.
Proof.
  intros K'.
  apply (EnterTransient_leave_failure_changes_nothing CLONE_NEWNET 3 boot
           "leaving from EnterTransient: cannot restore original net namespace, reason: bad file descriptor"
           K').
  by_run.
Defined.

(** A new transient net namespace. *)
Lemma NewTransient_returns_fresh_handle_witness :
  let K' := (NewTransient CLONE_NEWNET boot).2 in
  CLONE_NEWNET ∈ NewTransient_types
  /\ 0 < 4 /\ fdtab boot !! 4 = None
  /\ fdtab K' = <[4 := NsObj CLONE_NEWNET (nextid boot)]> (fdtab boot)
  /\ (forall t, t ∈ ns_types -> cur K' t = cur boot t)
  /\ locked K' = locked boot
  /\ events_since boot K'
     = [EvLockOSThread; EvOpen (ThreadSelfNs (Name CLONE_NEWNET)); EvUnshare CLONE_NEWNET;
        EvOpen (ThreadSelfNs (Name CLONE_NEWNET)); EvSetns (alloc_fd (fdtab boot)) CLONE_NEWNET;
        EvDeferCleanup 4; EvUnlockOSThread; EvClose (alloc_fd (fdtab boot))].
Proof.
  intros K'.
  apply (NewTransient_returns_fresh_handle CLONE_NEWNET boot 4 K').
  by_run.
Defined.

(** A new transient net namespace, where switching back is refused. *)
Lemma NewTransient_failure_closes_callers_handle_witness :
  let K := boot_refusing 3 "operation not permitted" in
  let K' := (NewTransient CLONE_NEWNET K).2 in
  let c := alloc_fd (fdtab K) in
  let opened := EvOpen (ThreadSelfNs (Name CLONE_NEWNET)) in
  locked K' = S (locked K)
  /\ fdtab K' !! c = None
  /\ ((events_since K K' = [EvLockOSThread; opened] /\ fdtab K' = fdtab K)
      \/ (events_since K K' = [EvLockOSThread; opened; EvUnshare CLONE_NEWNET; EvClose c]
          /\ fdtab K' = fdtab K)
      \/ (events_since K K'
          = [EvLockOSThread; opened; EvUnshare CLONE_NEWNET; opened; EvClose c]
          /\ fdtab K' = fdtab K)
      \/ (events_since K K'
          = [EvLockOSThread; opened; EvUnshare CLONE_NEWNET; opened;
             EvSetns c CLONE_NEWNET; EvClose c]
          /\ cur K' CLONE_NEWNET = nextid K
          /\ exists fd, fdtab K !! fd = None
               /\ fdtab K' = <[fd := NsObj CLONE_NEWNET (nextid K)]> (fdtab K))).
Proof.
  intros K K'.
  apply (NewTransient_failure_closes_callers_handle CLONE_NEWNET K
           "cannot switch back into original net namespace" K').
  - apply (bool_decide_unpack _). by vm_compute.
  - by_run.
Defined.

(** Into a transient mount namespace and out again. *)
Lemma mntns_EnterTransient_leave_stays_locked_witness :
  let K1 := (Mntns.EnterTransient boot).2 in
  let K2 := (Mntns.EnterTransient_leave 3 K1).2 in
  (cur K1 CLONE_NEWNS = nextid boot /\ locked K1 = S (locked boot))
  /\ (cur K2 CLONE_NEWNS = cur boot CLONE_NEWNS
      /\ fdtab K2 = delete 3 (fdtab K1)
      /\ locked K2 = locked K1
      /\ events_since K1 K2 = [EvSetns 3 0; EvClose 3])
  /\ (fdtab K1 = fdtab K1 -> fdtab K2 = fdtab boot).
Proof.
  intros K1 K2.
  apply (mntns_EnterTransient_leave_stays_locked boot 3 K1 K1 K2).
  - by_run.
  - reflexivity.
  - by_run.
Defined.

End Runs.
